(** * Rational parameter normalisation of the Kolmogorov-Zabih driver

    A shallow embedding of [main.cpp]: the fraction decoder [GetFraction],
    the rescaling helpers [setLambda] ... [setK], the Euclidean [gcd],
    [fix_parameters] and the part of [main] that sequences them, followed
    by the properties of the parameter normaliser.

    Conventions.
    - A C++ [int] is a [Z] in the 32-bit range.  Signed overflow is
      undefined behaviour in C++, not wrap-around, so every arithmetic
      step is checked and a step that leaves the range yields [Undef];
      [wrap32] tells what a two's complement build would keep instead.
    - A C++ [float] is an IEEE-754 binary32 value, a [spec_float] with a
      24-bit significand, rounded to nearest-even by the operations of
      [SpecFloat].
    - The solver [Match] lives outside this file.  It is represented by the
      trace of the calls made to it and by the value its [GetK] answers. *)

From Stdlib Require Import ZArith Lia List Bool String Ascii QArith Qround.
From Stdlib Require Import Floats.SpecFloat.
Import ListNotations.
Local Close Scope Q_scope.
Local Open Scope string_scope.
Local Open Scope list_scope.
Local Open Scope Z_scope.

(** ** Outcomes of a computation *)

Inductive result (A : Type) : Type :=
| Ok (a : A)          (* ran to completion *)
| Abort (code : Z)    (* [return code] out of [main] *)
| Undef.              (* behaviour the language leaves undefined *)
Arguments Ok {A} a.
Arguments Abort {A} code.
Arguments Undef {A}.

Definition bind {A B : Type} (r : result A) (k : A -> result B) : result B :=
  match r with
  | Ok a => k a
  | Abort c => Abort c
  | Undef => Undef
  end.

Notation "x <- e ;; k" := (bind e (fun x => k))
  (at level 61, e at next level, right associativity).
Notation "' p <- e ;; k" := (bind e (fun x => match x with p => k end))
  (at level 61, p pattern, e at next level, right associativity).

(** ** 32-bit signed integers *)

Definition INT_MIN : Z := -2147483648.
Definition INT_MAX : Z := 2147483647.

Definition fits (z : Z) : bool := (INT_MIN <=? z) && (z <=? INT_MAX).

Definition checked (z : Z) : result Z := if fits z then Ok z else Undef.

(** The [int] that two's complement hardware keeps of [z]. *)
Definition wrap32 (z : Z) : Z := (z + 2 ^ 31) mod 2 ^ 32 - 2 ^ 31.

(** [a * b] on [int]. *)
Definition imul (a b : Z) : result Z := checked (a * b).

(** [a / b] on [int], for [b <> 0]: truncation towards zero. *)
Definition idiv (a b : Z) : result Z := checked (Z.quot a b).

(** [a % b] on [int], for [b <> 0].  It is undefined exactly when the
    quotient [a / b] is not an [int], that is for [INT_MIN % -1]. *)
Definition irem (a b : Z) : result Z :=
  if (a =? INT_MIN) && (b =? -1) then Undef else Ok (Z.rem a b).

(** ** binary32 floating point *)

Module F32.
Definition prec : Z := 24.
Definition emax : Z := 128.
Definition float := spec_float.

(** Conversion [int -> float], round to nearest even. *)
Definition of_int (z : Z) : float := binary_normalize prec emax z 0 false.

Definition div : float -> float -> float := SFdiv prec emax.
Definition mul : float -> float -> float := SFmul prec emax.
Definition add : float -> float -> float := SFadd prec emax.
Definition ltb : float -> float -> bool := SFltb.

(** The literal [0.5f]. *)
Definition half : float := S754_finite false 8388608 (-24).

(** Integer part of a finite value, dropping the fraction. *)
Definition trunc (x : float) : option Z :=
  match x with
  | S754_zero _ => Some 0
  | S754_finite s m e =>
      let a := if 0 <=? e then Zpos m * 2 ^ e else Zpos m / 2 ^ (- e) in
      Some (if s then - a else a)
  | S754_infinity _ | S754_nan => None
  end.

(** Conversion [float -> int] as written [int(x)]: truncation; undefined
    when the truncated value is not an [int]. *)
Definition to_int (x : float) : result Z :=
  match trunc x with
  | Some z => checked z
  | None => Undef
  end.
End F32.

(** ** The parameter bundle and the solver *)

Inductive DataCost : Type := L1 | L2.

Record Parameters : Type := mkParameters {
  dataCost : DataCost;
  denominator : Z;
  edgeThresh : Z;
  lambda1 : Z;
  lambda2 : Z;
  K : Z;
  maxIter : Z;
  bRandomizeEveryIteration : bool
}.

Definition with_denominator (v : Z) (p : Parameters) : Parameters :=
  mkParameters (dataCost p) v (edgeThresh p) (lambda1 p) (lambda2 p) (K p)
               (maxIter p) (bRandomizeEveryIteration p).
Definition with_lambda1 (v : Z) (p : Parameters) : Parameters :=
  mkParameters (dataCost p) (denominator p) (edgeThresh p) v (lambda2 p) (K p)
               (maxIter p) (bRandomizeEveryIteration p).
Definition with_lambda2 (v : Z) (p : Parameters) : Parameters :=
  mkParameters (dataCost p) (denominator p) (edgeThresh p) (lambda1 p) v (K p)
               (maxIter p) (bRandomizeEveryIteration p).
Definition with_K (v : Z) (p : Parameters) : Parameters :=
  mkParameters (dataCost p) (denominator p) (edgeThresh p) (lambda1 p)
               (lambda2 p) v (maxIter p) (bRandomizeEveryIteration p).
Definition with_dataCost (v : DataCost) (p : Parameters) : Parameters :=
  mkParameters v (denominator p) (edgeThresh p) (lambda1 p) (lambda2 p) (K p)
               (maxIter p) (bRandomizeEveryIteration p).
Definition with_random (v : bool) (p : Parameters) : Parameters :=
  mkParameters (dataCost p) (denominator p) (edgeThresh p) (lambda1 p)
               (lambda2 p) (K p) (maxIter p) v.

(** Calls received by the solver, oldest first. *)
Inductive call : Type :=
| CallSetParameters (p : Parameters)
| CallGetK
| CallSetDispRange (lo hi : Z)
| CallKZ2
| CallSaveXLeft (file : string)
| CallSaveScaledXLeft (file : string) (flag : bool).

(** The solver as seen from [main.cpp]: what [GetK] answers for the
    parameters it was last given, and the calls made so far. *)
Record Match : Type := mkMatch {
  K_estimate : Parameters -> F32.float;
  calls : list call
}.

Definition record (c : call) (m : Match) : Match :=
  mkMatch (K_estimate m) (calls m ++ [c]).

Definition SetParameters (m : Match) (params : Parameters) : Match :=
  record (CallSetParameters params) m.

Definition GetK (m : Match) (params : Parameters) : Match * F32.float :=
  (record CallGetK m, K_estimate m params).

(** ** GetFraction *)

Definition code (c : ascii) : Z := Z.of_N (N_of_ascii c).

(** [isspace] in the C locale. *)
Definition isspace (c : ascii) : bool :=
  (code c =? 32) || ((9 <=? code c) && (code c <=? 13)).

Definition isdigit (c : ascii) : bool := (48 <=? code c) && (code c <=? 57).

Definition digit_value (c : ascii) : Z := code c - 48.

Fixpoint skip_space (s : string) : string :=
  match s with
  | String c r => if isspace c then skip_space r else s
  | EmptyString => s
  end.

(** Reads the longest run of decimal digits, most significant first. *)
Fixpoint scan_digits (s : string) (acc : Z) : Z * string :=
  match s with
  | String c r =>
      if isdigit c then scan_digits r (10 * acc + digit_value c) else (acc, s)
  | EmptyString => (acc, s)
  end.

(** One [%d] conversion of [sscanf]. *)
Inductive conversion : Type :=
| Converted (v : Z) (rest : string)
| MatchingFailure
| InputFailure.

Definition scan_d (s : string) : conversion :=
  match skip_space s with
  | EmptyString => InputFailure
  | String c r =>
      let '(neg, body) :=
        if Ascii.eqb c "-" then (true, r)
        else if Ascii.eqb c "+" then (false, r)
        else (false, String c r) in
      match body with
      | String d _ =>
          if isdigit d then
            let '(v, rest) := scan_digits body 0 in
            Converted (if neg then - v else v) rest
          else MatchingFailure
      | EmptyString => MatchingFailure
      end
  end.

Definition EOF : Z := -1.

(** [sscanf(s, "%d", &numerator)]: the count returned and [numerator]. *)
Definition sscanf_d (s : string) (numerator : Z) : result (Z * Z) :=
  match scan_d s with
  | InputFailure => Ok (EOF, numerator)
  | MatchingFailure => Ok (0, numerator)
  | Converted n _ => n <- checked n ;; Ok (1, n)
  end.

(** [sscanf(s, "%d/%d", &numerator, &denominator)]. *)
Definition sscanf_d_slash_d (s : string) (numerator denominator : Z)
  : result (Z * Z * Z) :=
  match scan_d s with
  | InputFailure => Ok (EOF, numerator, denominator)
  | MatchingFailure => Ok (0, numerator, denominator)
  | Converted n rest =>
      n <- checked n ;;
      match rest with
      | String "/" rest' =>
          match scan_d rest' with
          | Converted d _ => d <- checked d ;; Ok (2, n, d)
          | _ => Ok (1, n, denominator)
          end
      | _ => Ok (1, n, denominator)
      end
  end.

(** [GetFraction(s, numerator, denominator)]: the boolean returned and
    the two referenced variables afterwards.  The arguments [numerator]
    and [denominator] are what the variables held before the call. *)
Definition GetFraction (s : string) (numerator denominator : Z)
  : result (bool * Z * Z) :=
  if String.eqb s "AUTO" then Ok (true, -1, 1)
  else
    '(n, numerator, denominator) <- sscanf_d_slash_d s numerator denominator ;;
    '(numerator, denominator) <-
      (if negb (n =? 2) then
         '(n1, numerator) <- sscanf_d s numerator ;;
         Ok (numerator, if n1 =? 1 then 1 else denominator)
       else Ok (numerator, denominator)) ;;
    let ok := (0 <=? numerator) && (1 <=? denominator) in
    Ok (ok, numerator, denominator).

(** ** Rescaling the bundle *)

(** [multLambdaK]: multiplies [lambda], [lambda1], [lambda2], [K] and
    [denominator] by [denom[0]] ... [denom[4]], in this order. *)
Definition multLambdaK (lambda : Z) (denom : list Z) (params : Parameters)
  : result (Z * Parameters) :=
  lambda <- imul lambda (nth 0 denom 0) ;;
  l1 <- imul (lambda1 params) (nth 1 denom 0) ;;
  l2 <- imul (lambda2 params) (nth 2 denom 0) ;;
  k <- imul (K params) (nth 3 denom 0) ;;
  d <- imul (denominator params) (nth 4 denom 0) ;;
  Ok (lambda,
      with_denominator d (with_K k (with_lambda2 l2 (with_lambda1 l1 params)))).

Definition setLambda (lambda denom : Z) (params : Parameters)
  : result (Z * Parameters) :=
  let mult := [denominator params; denom; denom; denom; denom] in
  multLambdaK lambda mult params.

Definition setLambda1 (lambda denom : Z) (params : Parameters)
  : result (Z * Parameters) :=
  let mult := [denom; denominator params; denom; denom; denom] in
  multLambdaK lambda mult params.

Definition setLambda2 (lambda denom : Z) (params : Parameters)
  : result (Z * Parameters) :=
  let mult := [denom; denom; denominator params; denom; denom] in
  multLambdaK lambda mult params.

Definition setK (lambda denom : Z) (params : Parameters)
  : result (Z * Parameters) :=
  let mult := [denom; denom; denom; denominator params; denom] in
  multLambdaK lambda mult params.

(** ** gcd *)

(** The recursion of [gcd], cut after [fuel] calls. *)
Fixpoint gcd_rec (fuel : nat) (a b : Z) : result Z :=
  match fuel with
  | O => Undef
  | S n => if b =? 0 then Ok a else r <- irem a b ;; gcd_rec n b r
  end.

(** Enough calls for any second operand: the remainders at least halve
    every two calls ([gcd_adequate] below). *)
Definition gcd_depth (b : Z) : nat :=
  S (S (2 * (Z.to_nat (Z.log2 (Z.abs b)) + 1))).

Definition gcd (a b : Z) : result Z := gcd_rec (gcd_depth b) a b.

(** ** fix_parameters *)

Definition two : F32.float := F32.of_int 2.
Definition three : F32.float := F32.of_int 3.
Definition five : F32.float := F32.of_int 5.

(** [while(K < 3) { K *= 2; denom *= 2; }], cut after [fuel] rounds. *)
Fixpoint doubling (fuel : nat) (Kf : F32.float) (denom : Z)
  : result (F32.float * Z) :=
  if F32.ltb Kf three then
    match fuel with
    | O => Undef
    | S n => denom <- imul denom 2 ;; doubling n (F32.mul Kf two) denom
    end
  else Ok (Kf, denom).

(** The counter starts at 1 and its 31st doubling overflows, so 31 rounds
    are all the loop can run ([doubling_fuel] below). *)
Definition doubling_rounds : nat := 31.

(** Lines 112-114: from the occlusion cost to [lambda] and its [denom]. *)
Definition lambda_of_K (Kf : F32.float) : result (Z * Z) :=
  let Kf := F32.div Kf five in
  '(Kf, denom) <- doubling doubling_rounds Kf 1 ;;
  lambda <- F32.to_int (F32.add Kf F32.half) ;;
  Ok (lambda, denom).

(** Lines 106-116: derives [lambda] from the occlusion cost when it was
    not given. *)
Definition resolve_lambda (m : Match) (params : Parameters) (lambda : Z)
  : result (Match * Parameters * Z) :=
  if lambda <? 0 then
    let Kf := F32.div (F32.of_int (K params))
                      (F32.of_int (denominator params)) in
    let '(m, Kf) :=
      if K params <=? 0 then GetK (SetParameters m params) params
      else (m, Kf) in
    '(lambda, denom) <- lambda_of_K Kf ;;
    '(lambda, params) <- setLambda lambda denom params ;;
    Ok (m, params, lambda)
  else Ok (m, params, lambda).

(** Lines 117-119: the defaults relative to [lambda]. *)
Definition fill_defaults (params : Parameters) (lambda : Z)
  : result Parameters :=
  params <- (if K params <? 0
             then k <- imul 5 lambda ;; Ok (with_K k params)
             else Ok params) ;;
  params <- (if lambda1 params <? 0
             then l <- imul 3 lambda ;; Ok (with_lambda1 l params)
             else Ok params) ;;
  Ok (if lambda2 params <? 0 then with_lambda2 lambda params else params).

(** Lines 120-131: divides the bundle by the gcd of its four integers;
    also yields [denomLambda]. *)
Definition reduce_params (params : Parameters) : result (Parameters * Z) :=
  g2 <- gcd (lambda2 params) (denominator params) ;;
  g1 <- gcd (lambda1 params) g2 ;;
  denom <- gcd (K params) g1 ;;
  let denomLambda := denominator params in
  if denom >? 1 then
    let denomLambda := denom in
    k <- idiv (K params) denom ;;
    l1 <- idiv (lambda1 params) denom ;;
    l2 <- idiv (lambda2 params) denom ;;
    d <- idiv (denominator params) denom ;;
    Ok (with_denominator d (with_lambda2 l2 (with_lambda1 l1
          (with_K k params))), denomLambda)
  else Ok (params, denomLambda).

(** Lines 134-138: reduces the fraction [lambda/denomLambda]. *)
Definition reduce_lambda (lambda denomLambda : Z) : result (Z * Z) :=
  denom <- gcd lambda denomLambda ;;
  if denom >? 1 then
    l <- idiv lambda denom ;;
    d <- idiv denomLambda denom ;;
    Ok (l, d)
  else Ok (lambda, denomLambda).

(** [fix_parameters(m, params, lambda)]: the solver, [params] and [lambda]
    afterwards, and the returned denominator of [lambda]. *)
Definition fix_parameters (m : Match) (params : Parameters) (lambda : Z)
  : result (Match * Parameters * Z * Z) :=
  '(m, params, lambda) <- resolve_lambda m params lambda ;;
  params <- fill_defaults params lambda ;;
  '(params, denomLambda) <- reduce_params params ;;
  let m := SetParameters m params in
  '(lambda, denomLambda) <- reduce_lambda lambda denomLambda ;;
  Ok (m, params, lambda, denomLambda).

(** ** Images *)

Definition RGBImage : Type := list (list (Z * Z * Z)).
Definition GrayImage : Type := list (list Z).

Inductive GeneralImage : Type :=
| ImRGB (im : RGBImage)
| ImGray (im : GrayImage).

(** [isGray]: no pixel has a channel that differs from channel 0. *)
Definition isGray (im : RGBImage) : bool :=
  forallb (forallb (fun '(c0, c1, c2) =>
                      negb (negb (c0 =? c1) || negb (c0 =? c2)))) im.

(** [convert_gray]: keeps channel 0 of every pixel. *)
Definition convert_gray (im : RGBImage) : GrayImage :=
  map (map (fun '(c0, _, _) => c0)) im.

(** ** main *)

(** The command line once [cmd.process] has bound the options and left
    the positional arguments in [argv]. *)
Record CmdLine : Type := mkCmdLine {
  argc : Z;
  argv : list string;
  opt_max_iter : option Z;
  sDisp : string;
  used_r : bool;
  used_c : bool;
  cost : string;
  slambda : string;
  slambda1 : string;
  slambda2 : string;
  opt_threshold : option Z;
  sK : string
}.

(** What the run reads from outside the program. *)
Record Env : Type := mkEnv {
  imLoad : string -> option RGBImage;
  (* [(std::istringstream(s) >> x).eof()]: the value read and the flag *)
  read_int : string -> Z * bool;
  (* the answer of [GetK] for the solver built on the two images *)
  estimate : GeneralImage -> GeneralImage -> bool -> Parameters -> F32.float;
  (* what the uninitialised [int denom] happens to hold *)
  uninit : Z
}.

Inductive token : Type :=
| Text (s : string)
| Int (z : Z)
| Endl.

(** A run that reached [return 0]. *)
Record Run : Type := mkRun {
  solver : Match;
  params_end : Parameters;
  lambda_end : Z;
  denomLambda_end : Z;
  cout : list token
}.

Definition default_params (cmd : CmdLine) : Parameters :=
  mkParameters L2 1
    (match opt_threshold cmd with Some t => t | None => 8 end) (-1) (-1)
    (-1)
    (match opt_max_iter cmd with Some i => i | None => 4 end) false.

Definition empty (s : string) : bool := String.eqb s "".

(** Lines 194-198. *)
Definition main_lambda (s : string) (junk lambda : Z) (params : Parameters)
  : result (Z * Parameters) :=
  if negb (empty s) then
    '(ok, lambda, denom) <- GetFraction s lambda junk ;;
    if negb ok then Abort 1 else setLambda lambda denom params
  else Ok (lambda, params).

(** Lines 199-203. *)
Definition main_lambda1 (s : string) (junk lambda : Z) (params : Parameters)
  : result (Z * Parameters) :=
  if negb (empty s) then
    '(ok, l1, denom) <- GetFraction s (lambda1 params) junk ;;
    let params := with_lambda1 l1 params in
    if negb ok then Abort 1 else setLambda1 lambda denom params
  else Ok (lambda, params).

(** Lines 204-208. *)
Definition main_lambda2 (s : string) (junk lambda : Z) (params : Parameters)
  : result (Z * Parameters) :=
  if negb (empty s) then
    '(ok, l2, denom) <- GetFraction s (lambda2 params) junk ;;
    let params := with_lambda2 l2 params in
    if negb ok then Abort 1 else setLambda2 lambda denom params
  else Ok (lambda, params).

(** Lines 209-213. *)
Definition main_K (s : string) (junk lambda : Z) (params : Parameters)
  : result (Z * Parameters) :=
  if negb (empty s) then
    '(ok, k, denom) <- GetFraction s (K params) junk ;;
    let params := with_K k params in
    if negb ok then Abort 1 else setK lambda denom params
  else Ok (lambda, params).

(** Lines 193-213: the coefficients given on the command line. *)
Definition main_coefficients (cmd : CmdLine) (junk : Z) (params : Parameters)
  : result (Z * Parameters) :=
  let lambda := -1 in
  '(lambda, params) <- main_lambda (slambda cmd) junk lambda params ;;
  '(lambda, params) <- main_lambda1 (slambda1 cmd) junk lambda params ;;
  '(lambda, params) <- main_lambda2 (slambda2 cmd) junk lambda params ;;
  main_K (sK cmd) junk lambda params.

(** Lines 253-258. *)
Definition report (params : Parameters) (lambda denomLambda : Z) : list token :=
  [Text "K="; Int (K params)]
  ++ (if negb (denominator params =? 1)
      then [Text "/"; Int (denominator params)] else [])
  ++ [Endl; Text "lambda="; Int lambda]
  ++ (if negb (denomLambda =? 1) then [Text "/"; Int denomLambda] else [])
  ++ [Endl].

(** Lines 245-259. *)
Definition main_finish (cmd : CmdLine) (m : Match) (params : Parameters)
  (lambda : Z) : result Run :=
  '(m, params, lambda, denomLambda) <- fix_parameters m params lambda ;;
  if (argc cmd >? 5) || negb (empty (sDisp cmd)) then
    let m := record CallKZ2 m in
    let m := if argc cmd >? 5
             then record (CallSaveXLeft (nth 5 (argv cmd) "")) m else m in
    let m := if negb (empty (sDisp cmd))
             then record (CallSaveScaledXLeft (sDisp cmd) false) m else m in
    Ok (mkRun m params lambda denomLambda [])
  else
    Ok (mkRun m params lambda denomLambda
              (report params lambda denomLambda)).

(** [main], from the processed command line to [return 0] ([Ok]) or
    [return 1] ([Abort 1]).  Messages on [cerr], the seeding of [rand] and
    [imFree] leave nothing that is observed here. *)
Definition main (cmd : CmdLine) (env : Env) : result Run :=
  let params := default_params cmd in
  if negb (argc cmd =? 5) && negb (argc cmd =? 6) then Abort 1
  else
    let params := if used_r cmd then with_random true params else params in
    params <-
      (if used_c cmd then
         if String.eqb (cost cmd) "L1" then Ok (with_dataCost L1 params)
         else if String.eqb (cost cmd) "L2" then Ok (with_dataCost L2 params)
         else Abort 1
       else Ok params) ;;
    '(lambda, params) <- main_coefficients cmd (uninit env) params ;;
    match imLoad env (nth 1 (argv cmd) ""),
          imLoad env (nth 2 (argv cmd) "") with
    | None, _ => Abort 1
    | Some _, None => Abort 1
    | Some rgb1, Some rgb2 =>
        let '(color, im1, im2) :=
          if isGray rgb1 && isGray rgb2
          then (false, ImGray (convert_gray rgb1), ImGray (convert_gray rgb2))
          else (true, ImRGB rgb1, ImRGB rgb2) in
        let m := mkMatch (estimate env im1 im2 color) [] in
        let '(disp_base, eof_f) := read_int env (nth 3 (argv cmd) "") in
        let '(disp_max, eof_g) :=
          if eof_f then read_int env (nth 4 (argv cmd) "") else (0, false) in
        if negb (eof_f && eof_g) then Abort 1
        else
          let m := record (CallSetDispRange disp_base disp_max) m in
          main_finish cmd m params lambda
    end.

(** ** Vocabulary of the properties *)

(** The recursion of the source, as a relation: what [gcd(a, b)] returns. *)
Inductive Euclid : Z -> Z -> result Z -> Prop :=
| Euclid_zero a : Euclid a 0 (Ok a)
| Euclid_trap a b : b <> 0 -> irem a b = Undef -> Euclid a b Undef
| Euclid_step a b r g :
    b <> 0 -> irem a b = Ok r -> Euclid b r g -> Euclid a b g.

(** The working value after [n] rounds of the doubling loop. *)
Definition doubled (n : nat) (Kf : F32.float) : F32.float :=
  Nat.iter n (fun x => F32.mul x two) Kf.

(** The four coefficients that a rescaling can target. *)
Inductive field : Type := Lambda | Lambda1 | Lambda2 | FieldK.

(** The rescaling primitive: the helper of the source for each target. *)
Definition rescale (target : field)
  : Z -> Z -> Parameters -> result (Z * Parameters) :=
  match target with
  | Lambda => setLambda
  | Lambda1 => setLambda1
  | Lambda2 => setLambda2
  | FieldK => setK
  end.

(** The integer held for a coefficient. *)
Definition numerator (f : field) (lambda : Z) (params : Parameters) : Z :=
  match f with
  | Lambda => lambda
  | Lambda1 => lambda1 params
  | Lambda2 => lambda2 params
  | FieldK => K params
  end.

Definition field_eqb (f g : field) : bool :=
  match f, g with
  | Lambda, Lambda | Lambda1, Lambda1 | Lambda2, Lambda2
  | FieldK, FieldK => true
  | _, _ => false
  end.

(** A sequence of rescalings, each with its new denominator. *)
Fixpoint rescale_all (ops : list (field * Z)) (lambda : Z)
  (params : Parameters) : result (Z * Parameters) :=
  match ops with
  | [] => Ok (lambda, params)
  | (target, denom) :: ops =>
      '(lambda, params) <- rescale target lambda denom params ;;
      rescale_all ops lambda params
  end.

(** The rational [n/d] for a positive [d]. *)
Definition value (n d : Z) : Q := Qmake n (Z.to_pos d).

(** Greatest common divisor of the four integers of the bundle. *)
Definition gcd4 (params : Parameters) : Z :=
  Z.gcd (K params)
        (Z.gcd (lambda1 params)
               (Z.gcd (lambda2 params) (denominator params))).

(** Recognisers of two calls. *)
Definition is_SetParameters (c : call) : bool :=
  match c with CallSetParameters _ => true | _ => false end.

Definition is_KZ2 (c : call) : bool :=
  match c with CallKZ2 => true | _ => false end.

(** The bundle the solver was last given. *)
Definition handed (m : Match) : option Parameters :=
  fold_left (fun acc c =>
               match c with CallSetParameters p => Some p | _ => acc end)
            (calls m) None.

(** How many times the expansion-move computation was run. *)
Definition expansions (m : Match) : nat :=
  List.length (filter is_KZ2 (calls m)).

(** The coefficients of the bundle [main] starts from. *)
Definition initial (p : Parameters) : Prop :=
  denominator p = 1 /\ lambda1 p = -1 /\ lambda2 p = -1 /\ K p = -1.

(** A coefficient that was not given, or given as AUTO. *)
Definition unset (s : string) : bool := empty s || String.eqb s "AUTO".

(** [s] decodes as the fraction [n/d], whatever the variables held. *)
Definition decodes (s : string) (n d : Z) : Prop :=
  forall n0 d0, GetFraction s n0 d0 = Ok (true, n, d).

(** ** The blocks of main, seen as one *)

(** The four coefficient blocks of [main] have one shape: decode into the
    target, then rescale around it. *)
Definition block (target : field) (s : string) (junk lambda : Z)
  (params : Parameters) : result (Z * Parameters) :=
  match target with
  | Lambda => main_lambda s junk lambda params
  | Lambda1 => main_lambda1 s junk lambda params
  | Lambda2 => main_lambda2 s junk lambda params
  | FieldK => main_K s junk lambda params
  end.

(** Stores a decoded numerator into its coefficient. *)
Definition store (target : field) (n lambda : Z) (params : Parameters)
  : Z * Parameters :=
  match target with
  | Lambda => (n, params)
  | Lambda1 => (lambda, with_lambda1 n params)
  | Lambda2 => (lambda, with_lambda2 n params)
  | FieldK => (lambda, with_K n params)
  end.

(** The calls made after [fix_parameters]. *)
Definition finish_calls (cmd : CmdLine) : list call :=
  if (argc cmd >? 5) || negb (empty (sDisp cmd)) then
    [CallKZ2]
    ++ (if argc cmd >? 5 then [CallSaveXLeft (nth 5 (argv cmd) "")] else [])
    ++ (if negb (empty (sDisp cmd))
        then [CallSaveScaledXLeft (sDisp cmd) false] else [])
  else [].

(** ** What fix_parameters computes, written out *)

(** The calls of lines 109-110, made when neither lambda nor K is set. *)
Definition provisional (p : Parameters) (lambda : Z) : list call :=
  if (lambda <? 0) && (K p <=? 0) then [CallSetParameters p; CallGetK]
  else [].

(** The solver after the query of lines 108-111. *)
Definition queried (m : Match) (p : Parameters) : Match :=
  if K p <=? 0 then record CallGetK (SetParameters m p) else m.

(** The occlusion cost that lambda is derived from. *)
Definition working_K (m : Match) (p : Parameters) : F32.float :=
  if K p <=? 0 then K_estimate m p
  else F32.div (F32.of_int (K p)) (F32.of_int (denominator p)).

(** The working value reaches 3 after [n] doublings, within the range of
    the counter, and rounds to the int [lam]. *)
Definition reaches (n : nat) (Kf : F32.float) (lam : Z) : Prop :=
  (n <= 30)%nat /\
  F32.ltb (doubled n (F32.div Kf five)) three = false /\
  (forall i : nat, (i < n)%nat ->
     F32.ltb (doubled i (F32.div Kf five)) three = true) /\
  F32.to_int (F32.add (doubled n (F32.div Kf five)) F32.half) = Ok lam.

(** A float that is not a negative finite number. *)
Definition not_negative (x : F32.float) : Prop :=
  match x with
  | S754_finite true _ _ => False
  | _ => True
  end.

(** The bundle with its four integers multiplied by [c]. *)
Definition scaled (c : Z) (p : Parameters) : Parameters :=
  with_denominator (denominator p * c)
    (with_K (K p * c)
       (with_lambda2 (lambda2 p * c) (with_lambda1 (lambda1 p * c) p))).

(** The bundle after the defaults, written out. *)
Definition filled (p : Parameters) (lambda : Z) : Parameters :=
  let p := if K p <? 0 then with_K (5 * lambda) p else p in
  let p := if lambda1 p <? 0 then with_lambda1 (3 * lambda) p else p in
  if lambda2 p <? 0 then with_lambda2 lambda p else p.

(** Lines 120-131 on non-negative integers: the bundle divided by its
    gcd, and [denomLambda]. *)
Definition reduced (p : Parameters) : Parameters * Z :=
  let g := gcd4 p in
  if g >? 1 then
    (with_denominator (denominator p / g)
       (with_lambda2 (lambda2 p / g)
          (with_lambda1 (lambda1 p / g) (with_K (K p / g) p))), g)
  else (p, denominator p).

(** Lines 134-138 on non-negative integers. *)
Definition reduced_lambda (lambda denomLambda : Z) : Z * Z :=
  let g := Z.gcd lambda denomLambda in
  if g >? 1 then (lambda / g, denomLambda / g) else (lambda, denomLambda).

(** Lines 117-139 on a resolved [lambda], written out. *)
Definition finalized (m : Match) (p : Parameters) (lambda : Z)
  : Match * Parameters * Z * Z :=
  let '(q, denomLambda) := reduced (filled p lambda) in
  let '(lambda, denomLambda) := reduced_lambda lambda denomLambda in
  (SetParameters m q, q, lambda, denomLambda).

(** An outcome of [fix_parameters] with valid integers. *)
Definition valid (r : Match * Parameters * Z * Z) : Prop :=
  let '(_, p, lambda, denomLambda) := r in
  0 <= K p <= INT_MAX /\ 0 <= lambda1 p <= INT_MAX /\
  0 <= lambda2 p <= INT_MAX /\ 1 <= denominator p <= INT_MAX /\
  gcd4 p = 1 /\ 0 <= lambda /\ 1 <= denomLambda.

(** ** The decoder in the words of the specification *)

(** The specified syntax [<int>] is an optional minus sign and one or more
    digits; [all_digits] holds of a non-empty string of digits. *)
Definition all_digits (s : string) : bool :=
  match s with
  | EmptyString => false
  | String _ _ => match snd (scan_digits s 0) with
                  | EmptyString => true
                  | String _ _ => false
                  end
  end.

(** The value of a string that is an integer and nothing else. *)
Definition int_literal (s : string) : option Z :=
  match s with
  | EmptyString => None
  | String c r =>
      if Ascii.eqb c "-"
      then (if all_digits r then Some (- fst (scan_digits r 0)) else None)
      else (if all_digits s then Some (fst (scan_digits s 0)) else None)
  end.

(** The text before and after the first [/]. *)
Fixpoint split_slash (s : string) : option (string * string) :=
  match s with
  | EmptyString => None
  | String c r =>
      if Ascii.eqb c "/" then Some (EmptyString, r)
      else match split_slash r with
           | Some (a, b) => Some (String c a, b)
           | None => None
           end
  end.

(** The decoder as the specification words it: AUTO, [<int>/<int>] or
    [<int>], and a failure on any other syntax, on a negative numerator
    and on a denominator below 1. *)
Definition spec_decode (s : string) : option (Z * Z) :=
  if String.eqb s "AUTO" then Some (-1, 1)
  else
    match split_slash s with
    | Some (a, b) =>
        match int_literal a, int_literal b with
        | Some n, Some d =>
            if (0 <=? n) && (1 <=? d) then Some (n, d) else None
        | _, _ => None
        end
    | None =>
        match int_literal s with
        | Some n => if 0 <=? n then Some (n, 1) else None
        | None => None
        end
    end.

(** The code agrees with the specified decoder on [s]. *)
Definition decoder_agrees (s : string) (n0 d0 : Z) : Prop :=
  match spec_decode s with
  | Some (n, d) => GetFraction s n0 d0 = Ok (true, n, d)
  | None => exists n d, GetFraction s n0 d0 = Ok (false, n, d)
  end.

(** ** Rounding in the words of the specification *)

(** The rational number that a finite binary32 value stands for,
    [m * 2^e] with its sign. *)
Definition float_value (x : F32.float) : Q :=
  match x with
  | S754_finite s m e =>
      let n := if s then Z.neg m else Z.pos m in
      if 0 <=? e then inject_Z (n * 2 ^ e) else value n (2 ^ (- e))
  | _ => inject_Z 0
  end.

(** The rounding of a value to the nearest integer, halves upwards,
    computed on rationals. *)
Definition rounding (x : F32.float) : Z := Qfloor (float_value x + (1 # 2)).

(** How many times a positive binary32 number [m * 2^e] with a 24-bit
    [m] has to be doubled to be 3 or more: 3 is [12582912 * 2^-22]. *)
Definition doublings (m : positive) (e : Z) : nat :=
  Z.to_nat ((if Z.pos m <? 12582912 then -21 else -22) - e).

(** ** Decimal notation *)

(** Decimal notation of a non-negative integer. *)
Definition digit_char (d : Z) : ascii := ascii_of_N (Z.to_N (48 + d)).

(** The digits of [n] put in front of [acc]; [fuel + 1] digits at most. *)
Fixpoint show_digits (fuel : nat) (n : Z) (acc : string) : string :=
  let acc' := String (digit_char (n mod 10)) acc in
  match fuel with
  | O => acc'
  | S f => if n <? 10 then acc' else show_digits f (n / 10) acc'
  end.

(** [n] in decimal, for [0 <= n]. *)
Definition show (n : Z) : string :=
  show_digits (Z.to_nat (Z.log2 n)) n EmptyString.

(** Text that does not go on with a digit. *)
Definition no_digit (s : string) : bool :=
  match s with
  | String c _ => negb (isdigit c)
  | EmptyString => true
  end.

(** Text that does not go on with [/] and an integer. *)
Definition no_denominator (s : string) : bool :=
  match s with
  | String c r =>
      if Ascii.eqb c "/"
      then match scan_d r with Converted _ _ => false | _ => true end
      else true
  | EmptyString => true
  end.

(** ** Sample command lines and bundles *)

(** One colour pixel per image, disparity bounds that parse, an estimate
    of 40 for K. *)
Definition env_demo : Env :=
  mkEnv (fun _ => Some [[(1, 2, 3)]]) (fun _ => (0, true))
        (fun _ _ _ _ => F32.of_int 40) 0.

(** A fresh solver whose estimate of K is 40. *)
Definition solver_demo : Match := mkMatch (fun _ => F32.of_int 40) [].

Definition args_report : list string :=
  ["kz2"; "l.png"; "r.png"; "0"; "9"]%string.

Definition args_compute : list string :=
  ["kz2"; "l.png"; "r.png"; "0"; "9"; "d.tif"]%string.

(** [kz2 -l 3/4 --lambda1 AUTO --lambda2 1/6 -k 9/2 l.png r.png 0 9] *)
Definition cmd_mixed : CmdLine :=
  mkCmdLine 5 args_report None "" false false "" "3/4" "AUTO" "1/6" None "9/2".

(** [kz2 -k 9/2 -o d.png l.png r.png 0 9 d.tif]: lambda is derived. *)
Definition cmd_compute : CmdLine :=
  mkCmdLine 6 args_compute None "d.png" false false "" "" "" "" None "9/2".

(** [kz2 -l 3/4 --lambda1 5/6 --lambda2 1/6 -k 9/2 l.png r.png 0 9] *)
Definition cmd_explicit : CmdLine :=
  mkCmdLine 5 args_report None "" false false "" "3/4" "5/6" "1/6" None "9/2".

(** [kz2 -l 2 l.png r.png 0 9] *)
Definition cmd_lambda2 : CmdLine :=
  mkCmdLine 5 args_report None "" false false "" "2" "" "" None "".

(** [kz2 -l 500000000 l.png r.png 0 9] *)
Definition cmd_big : CmdLine :=
  mkCmdLine 5 args_report None "" false false "" "500000000" "" "" None "".

(** [kz2 -k 1/2000000000 l.png r.png 0 9] *)
Definition cmd_tiny : CmdLine :=
  mkCmdLine 5 args_report None "" false false "" "" "" "" None "1/2000000000".

(** [kz2 -k 41943044 l.png r.png 0 9]: K/5 is an odd integer above 2^23. *)
Definition cmd_k_odd : CmdLine :=
  mkCmdLine 5 args_report None "" false false "" "" "" "" None "41943044".

(** A bundle over denominator 4 with lambda2 = 5/4 set. *)
Definition params_demo : Parameters :=
  mkParameters L2 4 8 (-4) 5 (-4) 4 false.

(** The bundle after [-k 9/2]. *)
Definition params_k : Parameters := mkParameters L2 2 8 (-2) (-2) 9 4 false.

(** The run of a command line, when it returns 0. *)
Definition run_or (cmd : CmdLine) (env : Env) : Run :=
  match main cmd env with
  | Ok run => run
  | _ => mkRun (mkMatch (fun _ => S754_nan) []) (default_params cmd) 0 0 []
  end.

(** ** Vocabulary of the further properties *)

(** A gray image seen as a colour image: the level in all three channels. *)
Definition recolor (g : GrayImage) : RGBImage :=
  map (map (fun v => (v, v, v))) g.

(** The text given for a coefficient on the command line. *)
Definition coefficient_text (f : field) (cmd : CmdLine) : string :=
  match f with
  | Lambda => slambda cmd
  | Lambda1 => slambda1 cmd
  | Lambda2 => slambda2 cmd
  | FieldK => sK cmd
  end.

(** The integer [x] held over the denominator [D] is what the text [s]
    asks for: the mark -1 of a coefficient left unset, or the fraction
    that [s] decodes as. *)
Definition settled (s : string) (x D : Z) : Prop :=
  (unset s = true -> x = - D) /\
  (forall n d, decodes s n d -> x * d = n * D).

(** The fields of the bundle that are options and not coefficients. *)
Definition options (p : Parameters) : DataCost * Z * Z * bool :=
  (dataCost p, edgeThresh p, maxIter p, bRandomizeEveryIteration p).

Definition is_GetK (c : call) : bool :=
  match c with CallGetK => true | _ => false end.

(** How many times the solver was given parameters, and how many times it
    was asked for its estimate of K. *)
Definition configurations (m : Match) : nat :=
  List.length (filter is_SetParameters (calls m)).

Definition queries (m : Match) : nat :=
  List.length (filter is_GetK (calls m)).

(** Product of the new denominators of a sequence of rescalings. *)
Definition denominators (ops : list (field * Z)) : Z :=
  fold_right (fun op acc => snd op * acc) 1 ops.

(** The targets of a sequence of rescalings. *)
Definition targets (ops : list (field * Z)) : list field := map fst ops.

(** Two images, the first gray and the second not, and where they load. *)
Definition gray_demo : RGBImage := [[(7, 7, 7); (9, 9, 9)]].
Definition colour_demo : RGBImage := [[(7, 7, 7); (1, 2, 3)]].

Definition env_images : Env :=
  mkEnv (fun name => if String.eqb name "l.png" then Some gray_demo
                     else Some colour_demo)
        (fun _ => (0, true))
        (fun im1 im2 color _ => F32.of_int (if color then 40 else 20)) 0.

(** [kz2 -k 9/2 l.png r.png 0 9]: lambda is derived from the given K. *)
Definition cmd_k : CmdLine :=
  mkCmdLine 5 args_report None "" false false "" "" "" "" None "9/2".

(** [kz2 l.png r.png 0 9]: nothing is given. *)
Definition cmd_none : CmdLine :=
  mkCmdLine 5 args_report None "" false false "" "" "" "" None "".

(** [kz2 -c L3 l.png r.png 0 9]: a data cost that does not exist. *)
Definition cmd_cost : CmdLine :=
  mkCmdLine 5 args_report None "" false true "L3" "" "" "" None "".

(** The bundle after [-l 3/4 --lambda1 5/6 --lambda2 1/6 -k 9/2], where
    lambda is 216 over the denominator 288, and the bundle in lowest
    terms. *)
Definition params_explicit : Parameters :=
  mkParameters L2 288 8 240 48 1296 4 false.

Definition params_explicit_end : Parameters :=
  mkParameters L2 6 8 5 1 27 4 false.

(** A bundle in lowest terms. *)
Definition params_lowest : Parameters := mkParameters L2 4 8 6 5 9 4 false.

(** * Properties *)

(** ** Outcomes and checked arithmetic *)

Lemma bind_Ok {A B : Type} (r : result A) (k : A -> result B) (b : B) :
  bind r k = Ok b -> exists a, r = Ok a /\ k a = Ok b.
Proof.
  destruct r as [a | c |]; simpl; intros H; try discriminate.
  exists a; split; [reflexivity | exact H].
Qed.

(** Splits a hypothesis [x <- e ;; k = Ok b] into its two steps. *)
Ltac bind_inv H :=
  let a := fresh "a" in
  let E := fresh "E" in
  apply bind_Ok in H; destruct H as (a & E & H).

Lemma fits_iff (z : Z) : fits z = true <-> INT_MIN <= z <= INT_MAX.
Proof. unfold fits. rewrite andb_true_iff, !Z.leb_le. tauto. Qed.

Lemma checked_Ok (z v : Z) :
  checked z = Ok v -> v = z /\ INT_MIN <= z <= INT_MAX.
Proof.
  unfold checked. destruct (fits z) eqn:F; intros H; inversion H; subst.
  split; [reflexivity | now apply fits_iff].
Qed.

Lemma checked_fits (z : Z) : INT_MIN <= z <= INT_MAX -> checked z = Ok z.
Proof. intros H. unfold checked. apply fits_iff in H. now rewrite H. Qed.

Lemma imul_Ok (a b v : Z) :
  imul a b = Ok v -> v = a * b /\ INT_MIN <= a * b <= INT_MAX.
Proof. apply checked_Ok. Qed.

Lemma idiv_Ok (a b v : Z) :
  idiv a b = Ok v -> v = Z.quot a b /\ INT_MIN <= Z.quot a b <= INT_MAX.
Proof. apply checked_Ok. Qed.

Lemma irem_nonneg (a b : Z) : 0 <= b -> irem a b = Ok (Z.rem a b).
Proof.
  intros Hb. unfold irem.
  destruct (Z.eqb_spec b (-1)); [lia | now rewrite andb_false_r].
Qed.

(** ** gcd runs Euclid's algorithm to its end *)

Lemma irem_cases (a b : Z) : irem a b = Undef \/ irem a b = Ok (Z.rem a b).
Proof. unfold irem. destruct (_ && _); auto. Qed.

Lemma rem_halves (a b : Z) :
  b <> 0 -> Z.abs b <= Z.abs a ->
  Z.abs (Z.rem a b) < Z.abs b /\ 2 * Z.abs (Z.rem a b) <= Z.abs a.
Proof.
  intros Hb Hab.
  rewrite <- (Z.rem_abs a b Hb).
  rewrite Z.rem_mod_nonneg by lia.
  pose proof (Z.mod_pos_bound (Z.abs a) (Z.abs b) ltac:(lia)) as Hm.
  pose proof (Z.div_mod (Z.abs a) (Z.abs b) ltac:(lia)) as Hd.
  assert (1 <= Z.abs a / Z.abs b) by (apply Z.div_le_lower_bound; lia).
  nia.
Qed.

Lemma gcd_rec_Euclid (n : nat) : forall a b,
  Z.abs b <= Z.abs a -> Z.abs a * Z.abs b < 2 ^ Z.of_nat n ->
  Euclid a b (gcd_rec (S n) a b).
Proof.
  induction n as [| n IH]; intros a b Hab Hlt.
  - assert (b = 0) by (simpl in Hlt; nia). subst b. simpl. constructor.
  - change (gcd_rec (S (S n)) a b)
      with (if b =? 0 then Ok a else r <- irem a b ;; gcd_rec (S n) b r).
    destruct (Z.eqb_spec b 0) as [-> | Hb]; [constructor |].
    destruct (irem_cases a b) as [E | E]; rewrite E.
    + now apply Euclid_trap.
    + apply Euclid_step with (r := Z.rem a b); [assumption .. |].
      destruct (rem_halves a b Hb Hab) as [H1 H2].
      apply IH; [lia |].
      rewrite Nat2Z.inj_succ, Z.pow_succ_r in Hlt by lia. nia.
Qed.

(** [gcd] never runs out of calls: its result is the one of the source's
    recursion, whatever the operands. *)
Lemma gcd_adequate (a b : Z) : Euclid a b (gcd a b).
Proof.
  unfold gcd, gcd_depth.
  set (k := (2 * (Z.to_nat (Z.log2 (Z.abs b)) + 1))%nat).
  change (gcd_rec (S (S k)) a b)
    with (if b =? 0 then Ok a else r <- irem a b ;; gcd_rec (S k) b r).
  destruct (Z.eqb_spec b 0) as [-> | Hb]; [constructor |].
  destruct (irem_cases a b) as [E | E]; rewrite E.
  - now apply Euclid_trap.
  - apply Euclid_step with (r := Z.rem a b); [assumption .. |].
    pose proof (Z.rem_bound_abs a b Hb) as Hr.
    apply gcd_rec_Euclid; [lia |].
    assert (Hlog : Z.abs b < 2 ^ (Z.log2 (Z.abs b) + 1)).
    { pose proof (Z.log2_spec (Z.abs b) ltac:(lia)). 
      replace (Z.log2 (Z.abs b) + 1) with (Z.succ (Z.log2 (Z.abs b))) by lia.
      lia. }
    pose proof (Z.log2_nonneg (Z.abs b)) as Hnn.
    replace (Z.of_nat k)
      with ((Z.log2 (Z.abs b) + 1) + (Z.log2 (Z.abs b) + 1)) by (subst k; lia).
    rewrite Z.pow_add_r by lia. nia.
Qed.

Lemma Euclid_nonneg (a b : Z) (r : result Z) :
  Euclid a b r -> 0 <= a -> 0 <= b -> r = Ok (Z.gcd a b).
Proof.
  induction 1 as [a | a b Hb E | a b r g Hb E HE IH]; intros Ha Hb0.
  - rewrite Z.gcd_0_r, Z.abs_eq by lia. reflexivity.
  - rewrite irem_nonneg in E by lia. discriminate.
  - rewrite irem_nonneg in E by lia. inversion E; subst r.
    rewrite Z.rem_mod_nonneg in * by lia.
    pose proof (Z.mod_pos_bound a b ltac:(lia)).
    rewrite IH by lia.
    rewrite (Z.gcd_comm b), Z.gcd_mod by lia. now rewrite Z.gcd_comm.
Qed.

(** On non-negative operands, [gcd] is the greatest common divisor. *)
Lemma gcd_nonneg (a b : Z) : 0 <= a -> 0 <= b -> gcd a b = Ok (Z.gcd a b).
Proof. intros. eapply Euclid_nonneg; eauto using gcd_adequate. Qed.

(** ** The doubling loop *)

Lemma doubled_succ (n : nat) (Kf : F32.float) :
  doubled (S n) Kf = doubled n (F32.mul Kf two).
Proof. unfold doubled. now rewrite Nat.iter_succ_r. Qed.

(** What the loop returns: the first doubled value that is not below 3,
    and the matching power of two. *)
Lemma doubling_Ok (fuel : nat) : forall Kf denom Kf' denom',
  doubling fuel Kf denom = Ok (Kf', denom') ->
  exists n : nat,
    Kf' = doubled n Kf /\ denom' = denom * 2 ^ Z.of_nat n /\
    F32.ltb (doubled n Kf) three = false /\
    (forall i : nat, (i < n)%nat -> F32.ltb (doubled i Kf) three = true) /\
    (denom <= INT_MAX -> denom' <= INT_MAX).
Proof.
  induction fuel as [| fuel IH]; intros Kf denom Kf' denom' H; simpl in H;
    destruct (F32.ltb Kf three) eqn:L; try discriminate.
  1, 3: inversion H; subst; exists 0%nat; simpl;
    (split; [reflexivity |]); (split; [lia |]); (split; [assumption |]);
    (split; [intros; lia | auto]).
  bind_inv H. apply imul_Ok in E. destruct E as [-> Hfit].
  apply IH in H. destruct H as (n & HK & Hd & Hstop & Hbelow & Hmax).
    exists (S n). rewrite !doubled_succ.
    split; [assumption |]. split.
    { rewrite Hd, Nat2Z.inj_succ, Z.pow_succ_r by lia. ring. }
    split; [assumption |]. split.
    { intros [| i] Hi; [exact L |].
      rewrite doubled_succ. apply Hbelow. lia. }
    intros _. apply Hmax. lia.
Qed.

(** The converse: a working value that reaches 3 after [n] rounds, with a
    counter that still fits, makes the loop return. *)
Lemma doubling_reaches (n : nat) : forall fuel Kf denom,
  (n <= fuel)%nat -> 0 <= denom -> denom * 2 ^ Z.of_nat n <= INT_MAX ->
  F32.ltb (doubled n Kf) three = false ->
  (forall i : nat, (i < n)%nat -> F32.ltb (doubled i Kf) three = true) ->
  doubling fuel Kf denom = Ok (doubled n Kf, denom * 2 ^ Z.of_nat n).
Proof.
  induction n as [| n IH]; intros fuel Kf denom Hfuel Hd Hfit Hstop Hbelow.
  - change (doubled 0 Kf) with Kf in *. change (Z.of_nat 0) with 0.
    rewrite Z.pow_0_r, Z.mul_1_r.
    destruct fuel; cbn [doubling]; rewrite Hstop; reflexivity.
  - destruct fuel as [| fuel]; [lia |]. cbn [doubling].
    pose proof (Hbelow 0%nat ltac:(lia)) as H0.
    change (doubled 0 Kf) with Kf in H0. rewrite H0.
    rewrite Nat2Z.inj_succ, Z.pow_succ_r in * by lia.
    assert (0 < 2 ^ Z.of_nat n) by (apply Z.pow_pos_nonneg; lia).
    unfold imul. rewrite checked_fits by (unfold INT_MIN, INT_MAX in *; nia).
    cbn [bind]. rewrite doubled_succ in *.
    rewrite IH; try lia; try assumption; try nia.
    + f_equal. f_equal. ring.
    + intros i Hi. specialize (Hbelow (S i)). rewrite doubled_succ in Hbelow.
      apply Hbelow. lia.
Qed.

(** The loop cannot use more than [doubling_rounds] rounds: from 1, the
    counter overflows at the 31st doubling. *)
Lemma doubling_fuel_gen (n : nat) : forall k Kf denom,
  0 < denom -> INT_MAX < denom * 2 ^ Z.of_nat n ->
  doubling (n + k) Kf denom = doubling n Kf denom.
Proof.
  induction n as [| n IH]; intros k Kf denom Hpos Hbig.
  - simpl in *. destruct k; simpl; [reflexivity |].
    destruct (F32.ltb Kf three); [| reflexivity].
    unfold imul, checked.
    replace (fits (denom * 2)) with false; [reflexivity |].
    symmetry. apply not_true_iff_false. rewrite fits_iff. lia.
  - simpl. destruct (F32.ltb Kf three); [| reflexivity].
    unfold imul, checked. destruct (fits (denom * 2)); [| reflexivity].
    simpl. apply IH; [lia |].
    rewrite Nat2Z.inj_succ, Z.pow_succ_r in Hbig by lia. lia.
Qed.

Lemma doubling_fuel (k : nat) (Kf : F32.float) :
  doubling (doubling_rounds + k) Kf 1 = doubling doubling_rounds Kf 1.
Proof. apply doubling_fuel_gen; [lia | reflexivity]. Qed.

(** A working value of 0 stays 0: it is below 3 after any number of
    doublings, so the loop ends only by the overflow of its counter. *)
Lemma zero_never_reaches_three (n : nat) :
  F32.ltb (doubled n (F32.div (F32.of_int 0) five)) three = true /\
  lambda_of_K (F32.of_int 0) = Undef.
Proof.
  split; [| vm_compute; reflexivity].
  assert (doubled n (F32.div (F32.of_int 0) five) = S754_zero false) as ->.
  { induction n as [| n IH]; [vm_compute; reflexivity |].
    change (doubled (S n) (F32.div (F32.of_int 0) five))
      with (F32.mul (doubled n (F32.div (F32.of_int 0) five)) two).
    rewrite IH. vm_compute. reflexivity. }
  vm_compute. reflexivity.
Qed.

(** ** Rounding a value that is not below 3 *)

Lemma trunc_not_negative (x : F32.float) (z : Z) :
  not_negative x -> F32.trunc x = Some z -> 0 <= z.
Proof.
  destruct x as [s | s | | s m e]; unfold F32.trunc; intros Hs H;
    try discriminate.
  - inversion H; lia.
  - destruct s; [contradiction |]. injection H as <-.
    destruct (Z.leb_spec 0 e).
    + change (0 <= Z.pos m * 2 ^ e).
      pose proof (Z.pow_nonneg 2 e ltac:(lia)). nia.
    + apply Z.div_pos; [lia | apply Z.pow_pos_nonneg; lia].
Qed.

Lemma round_aux_not_negative (mx ex : Z) (lx : location) :
  not_negative (binary_round_aux F32.prec F32.emax false mx ex lx).
Proof.
  unfold binary_round_aux.
  destruct (shr_fexp _ _ mx ex lx) as [mrs' e'].
  destruct (shr_fexp _ _ _ e' loc_Exact) as [mrs'' e''].
  destruct (shr_m mrs'') as [| m | m]; try exact I.
  destruct (e'' <=? _); exact I.
Qed.

Lemma round_not_below_three (Kf : F32.float) (z : Z) :
  F32.ltb Kf three = false -> F32.to_int (F32.add Kf F32.half) = Ok z ->
  0 <= z.
Proof.
  intros L H. unfold F32.to_int in H.
  destruct (F32.trunc (F32.add Kf F32.half)) as [t |] eqn:T; [| discriminate].
  apply checked_Ok in H. destruct H as [-> _].
  revert T. apply trunc_not_negative.
  destruct Kf as [s | s | | s m e]; try exact I.
  destruct s; [cbv in L; discriminate |].
  unfold F32.add, SFadd, F32.half. cbv [cond_Zopp].
  match goal with
  | |- not_negative (binary_normalize _ _ (Z.pos ?a + Z.pos ?b) _ _) =>
      change (Z.pos a + Z.pos b) with (Z.pos (a + b))
  end.
  unfold binary_normalize, binary_round.
  destruct (shl_align _ _ _) as [mz ez].
  apply round_aux_not_negative.
Qed.

(** ** Rescaling *)

Lemma multLambdaK_Ok (lambda : Z) (f : list Z) (p : Parameters)
  (lam' : Z) (p' : Parameters) :
  multLambdaK lambda f p = Ok (lam', p') ->
  lam' = lambda * nth 0 f 0 /\
  lambda1 p' = lambda1 p * nth 1 f 0 /\
  lambda2 p' = lambda2 p * nth 2 f 0 /\
  K p' = K p * nth 3 f 0 /\
  denominator p' = denominator p * nth 4 f 0 /\
  INT_MIN <= denominator p' <= INT_MAX.
Proof.
  unfold multLambdaK. intros H.
  repeat bind_inv H.
  repeat match goal with E : imul _ _ = Ok _ |- _ =>
    apply imul_Ok in E; destruct E as [? ?] end.
  inversion H; subst; simpl. repeat split; auto; lia.
Qed.

(** A rescaling multiplies its target by the current denominator, and
    every other coefficient and the denominator by the new one. *)
Lemma rescale_Ok (target : field) (lambda denom : Z) (p : Parameters)
  (lam' : Z) (p' : Parameters) :
  rescale target lambda denom p = Ok (lam', p') ->
  (forall f, numerator f lam' p' =
             numerator f lambda p *
             (if field_eqb f target then denominator p else denom)) /\
  denominator p' = denominator p * denom /\
  INT_MIN <= denominator p' <= INT_MAX.
Proof.
  intros H.
  destruct target; apply multLambdaK_Ok in H; simpl in H;
    destruct H as (H0 & H1 & H2 & H3 & H4 & H5);
    (split; [intros []; simpl; assumption | split; assumption]).
Qed.

Lemma rescale_signs (target : field) (lambda denom : Z) (p : Parameters)
  (lam' : Z) (p' : Parameters) :
  1 <= denominator p -> 1 <= denom ->
  rescale target lambda denom p = Ok (lam', p') ->
  (forall f, numerator f lam' p' < 0 <-> numerator f lambda p < 0) /\
  1 <= denominator p'.
Proof.
  intros HD Hd H. apply rescale_Ok in H. destruct H as (Hn & HD' & _).
  split; [| nia].
  intros f. rewrite Hn. destruct (field_eqb f target); nia.
Qed.

(** ** The stages of fix_parameters *)

Lemma lambda_of_K_Ok (Kf : F32.float) (lambda denom : Z) :
  lambda_of_K Kf = Ok (lambda, denom) ->
  0 <= lambda /\ 1 <= denom <= INT_MAX /\
  exists n : nat,
    denom = 2 ^ Z.of_nat n /\
    F32.ltb (doubled n (F32.div Kf five)) three = false /\
    (forall i : nat, (i < n)%nat ->
       F32.ltb (doubled i (F32.div Kf five)) three = true) /\
    F32.to_int (F32.add (doubled n (F32.div Kf five)) F32.half) = Ok lambda.
Proof.
  unfold lambda_of_K. intros H.
  bind_inv H. destruct a as [Kf' denom'].
  bind_inv H. inversion H; subst; clear H.
  apply doubling_Ok in E.
  destruct E as (n & -> & -> & Hstop & Hbelow & Hmax).
  assert (0 < 2 ^ Z.of_nat n) by (apply Z.pow_pos_nonneg; lia).
  split; [eapply round_not_below_three; eassumption |].
  split; [split; [lia | apply Hmax; unfold INT_MAX; lia] |].
  exists n. rewrite Z.mul_1_l. auto.
Qed.

Lemma resolve_lambda_Ok (m : Match) (p : Parameters) (lambda : Z)
  (m' : Match) (p' : Parameters) (lam' : Z) :
  1 <= denominator p ->
  resolve_lambda m p lambda = Ok (m', p', lam') ->
  0 <= lam' /\
  (exists c, 1 <= c /\ K p' = K p * c /\ lambda1 p' = lambda1 p * c /\
             lambda2 p' = lambda2 p * c /\
             denominator p' = denominator p * c /\
             (0 <= lambda -> c = 1 /\ lam' = lambda)) /\
  calls m' = calls m ++ provisional p lambda.
Proof.
  intros HD H. unfold resolve_lambda, provisional in *.
  destruct (Z.ltb_spec lambda 0) as [Hneg | Hpos].
  - set (Kf := F32.div _ _) in H.
    assert (exists Kf',
      (let '(m0, Kf0) := if K p <=? 0 then GetK (SetParameters m p) p
                        else (m, Kf) in
       '(lambda, denom) <- lambda_of_K Kf0 ;;
       '(lambda, params) <- setLambda lambda denom p ;;
       Ok (m0, params, lambda)) =
      ('(lambda, denom) <- lambda_of_K Kf' ;;
       '(lambda, params) <- setLambda lambda denom p ;;
       Ok (if K p <=? 0 then record CallGetK (SetParameters m p) else m,
           params, lambda))) as [Kf' EQ].
    { destruct (K p <=? 0); simpl; eauto. }
    rewrite EQ in H. clear EQ.
    bind_inv H. destruct a as [lam0 denom].
    bind_inv H. destruct a as [lam1 p1]. inversion H; subst; clear H.
    apply lambda_of_K_Ok in E. destruct E as (Hl & Hd & _).
    pose proof (rescale_Ok Lambda _ _ _ _ _ E0) as (Hn & HD' & Hfit).
    split; [specialize (Hn Lambda); simpl in Hn; nia |].
    split.
    + exists denom. split; [lia |].
      pose proof (Hn FieldK) as HK. pose proof (Hn Lambda1) as H1.
      pose proof (Hn Lambda2) as H2. simpl in HK, H1, H2.
      repeat split; try assumption; lia.
    + destruct (K p <=? 0); simpl; rewrite <- ?app_assoc, ?app_nil_r;
        reflexivity.
  - inversion H; subst; clear H. simpl.
    split; [assumption |]. split.
    + exists 1. rewrite !Z.mul_1_r. repeat split; lia.
    + now rewrite app_nil_r.
Qed.

Lemma fill_defaults_Ok (p : Parameters) (lambda : Z) (p' : Parameters) :
  fill_defaults p lambda = Ok p' ->
  denominator p' = denominator p /\
  K p' = (if K p <? 0 then 5 * lambda else K p) /\
  lambda1 p' = (if lambda1 p <? 0 then 3 * lambda else lambda1 p) /\
  lambda2 p' = (if lambda2 p <? 0 then lambda else lambda2 p).
Proof.
  unfold fill_defaults. intros H.
  bind_inv H. bind_inv H. inversion H; subst; clear H.
  destruct (K p <? 0) eqn:HK.
  - bind_inv E. apply imul_Ok in E1. destruct E1 as [-> _].
    inversion E; subst; clear E. simpl in E0.
    destruct (lambda1 p <? 0) eqn:H1.
    + bind_inv E0. apply imul_Ok in E. destruct E as [-> _].
      inversion E0; subst; clear E0. simpl.
      destruct (lambda2 p <? 0); simpl; rewrite ?HK, ?H1; auto.
    + inversion E0; subst; clear E0. simpl.
      destruct (lambda2 p <? 0); simpl; rewrite ?HK, ?H1; auto.
  - inversion E; subst; clear E.
    destruct (lambda1 a <? 0) eqn:H1.
    + bind_inv E0. apply imul_Ok in E. destruct E as [-> _].
      inversion E0; subst; clear E0. simpl.
      destruct (lambda2 a <? 0); simpl; rewrite ?HK, ?H1; auto.
    + inversion E0; subst; clear E0.
      destruct (lambda2 a0 <? 0); simpl; rewrite ?HK, ?H1; auto.
Qed.

Lemma gcd4_pos (p : Parameters) : 1 <= denominator p -> 1 <= gcd4 p.
Proof.
  intros HD. unfold gcd4.
  set (g := Z.gcd _ _).
  assert (0 <= g) by apply Z.gcd_nonneg.
  assert (g <> 0); [| lia].
  subst g. intros E. apply Z.gcd_eq_0_r in E. apply Z.gcd_eq_0_r in E.
  apply Z.gcd_eq_0_r in E. lia.
Qed.

Lemma gcd4_divides (p : Parameters) :
  (gcd4 p | K p) /\ (gcd4 p | lambda1 p) /\ (gcd4 p | lambda2 p) /\
  (gcd4 p | denominator p).
Proof.
  unfold gcd4.
  set (g2 := Z.gcd (lambda2 p) (denominator p)).
  set (g1 := Z.gcd (lambda1 p) g2).
  pose proof (Z.gcd_divide_l (K p) g1). pose proof (Z.gcd_divide_r (K p) g1).
  pose proof (Z.gcd_divide_l (lambda1 p) g2).
  pose proof (Z.gcd_divide_r (lambda1 p) g2).
  pose proof (Z.gcd_divide_l (lambda2 p) (denominator p)).
  pose proof (Z.gcd_divide_r (lambda2 p) (denominator p)).
  fold g2 in H3, H4. fold g1 in H1, H2.
  repeat split; eauto using Z.divide_trans.
Qed.

(** Dividing four multiples of [g] by [g] divides their gcd by [g]. *)
Lemma gcd4_scaled (g k l1 l2 d : Z) :
  0 <= g ->
  Z.gcd (g * k) (Z.gcd (g * l1) (Z.gcd (g * l2) (g * d))) =
  g * Z.gcd k (Z.gcd l1 (Z.gcd l2 d)).
Proof. intros Hg. now rewrite !Z.gcd_mul_mono_l_nonneg. Qed.

Lemma gcds_nonneg (p : Parameters) :
  0 <= K p -> 0 <= lambda1 p -> 0 <= lambda2 p -> 1 <= denominator p ->
  (g2 <- gcd (lambda2 p) (denominator p) ;;
   g1 <- gcd (lambda1 p) g2 ;;
   gcd (K p) g1) = Ok (gcd4 p).
Proof.
  intros. unfold gcd4.
  rewrite gcd_nonneg by lia. simpl.
  rewrite gcd_nonneg by (try apply Z.gcd_nonneg; lia). simpl.
  rewrite gcd_nonneg by (try apply Z.gcd_nonneg; lia). reflexivity.
Qed.

Lemma reduce_params_spec (p : Parameters) :
  0 <= K p <= INT_MAX -> 0 <= lambda1 p <= INT_MAX ->
  0 <= lambda2 p <= INT_MAX -> 1 <= denominator p <= INT_MAX ->
  reduce_params p = Ok (reduced p).
Proof.
  intros HK H1 H2 HD.
  pose proof (gcds_nonneg p ltac:(lia) ltac:(lia) ltac:(lia) ltac:(lia)) as G.
  unfold reduce_params, reduced.
  destruct (gcd (lambda2 p) (denominator p)) as [g2 | |]; try discriminate.
  simpl in G |- *.
  destruct (gcd (lambda1 p) g2) as [g1 | |]; try discriminate.
  simpl in G |- *. rewrite G. simpl.
  destruct (Z.gtb_spec (gcd4 p) 1) as [Hg | Hg]; [| reflexivity].
  assert (forall x, 0 <= x <= INT_MAX -> idiv x (gcd4 p) = Ok (x / gcd4 p))
    as Hdiv.
  { intros x Hx. unfold idiv. rewrite Z.quot_div_nonneg by lia.
    apply checked_fits.
    pose proof (Z.div_pos x (gcd4 p) ltac:(lia) ltac:(lia)).
    pose proof (Z.div_le_upper_bound x (gcd4 p) x ltac:(lia) ltac:(nia)).
    unfold INT_MIN, INT_MAX in *. lia. }
  rewrite !Hdiv by lia. reflexivity.
Qed.

(** Without range assumptions: when the reduction returns, it returns the
    reduced bundle. *)
Lemma reduce_params_Ok (p : Parameters) (r : Parameters * Z) :
  0 <= K p -> 0 <= lambda1 p -> 0 <= lambda2 p -> 1 <= denominator p ->
  reduce_params p = Ok r -> r = reduced p.
Proof.
  intros HK H1 H2 HD H.
  pose proof (gcds_nonneg p HK H1 H2 HD) as G.
  unfold reduce_params, reduced in *.
  destruct (gcd (lambda2 p) (denominator p)) as [g2 | |]; try discriminate.
  simpl in G, H.
  destruct (gcd (lambda1 p) g2) as [g1 | |]; try discriminate.
  simpl in G, H. rewrite G in H. simpl in H.
  destruct (gcd4 p >? 1) eqn:Hg; [| now inversion H].
  apply Z.gtb_lt in Hg.
  repeat bind_inv H.
  repeat match goal with E : idiv _ _ = Ok _ |- _ =>
    apply idiv_Ok in E; destruct E as [-> _] end.
  rewrite !Z.quot_div_nonneg in H by lia. now inversion H.
Qed.

(** The reduced bundle has the same ratios and a gcd of 1. *)
Lemma reduced_spec (p : Parameters) :
  1 <= denominator p ->
  let p' := fst (reduced p) in
  exists g, 1 <= g /\
    K p = g * K p' /\ lambda1 p = g * lambda1 p' /\
    lambda2 p = g * lambda2 p' /\ denominator p = g * denominator p' /\
    gcd4 p' = 1 /\ (g = 1 \/ snd (reduced p) = g) /\
    (g = 1 -> snd (reduced p) = denominator p).
Proof.
  intros HD. pose proof (gcd4_pos p HD) as Hg.
  destruct (gcd4_divides p) as (DK & D1 & D2 & DD).
  unfold reduced.
  destruct (Z.gtb_spec (gcd4 p) 1) as [Hgt | Hle]; simpl.
  - exists (gcd4 p).
    assert (forall x, (gcd4 p | x) -> x = gcd4 p * (x / gcd4 p)) as Hx.
    { intros x [q ->]. rewrite Z.div_mul by lia. ring. }
    pose proof (Hx _ DK) as EK. pose proof (Hx _ D1) as E1.
    pose proof (Hx _ D2) as E2. pose proof (Hx _ DD) as ED.
    repeat split; try assumption; try lia; auto.
    pose proof (gcd4_scaled (gcd4 p) (K p / gcd4 p) (lambda1 p / gcd4 p)
                  (lambda2 p / gcd4 p) (denominator p / gcd4 p)
                  ltac:(lia)) as S.
    rewrite <- EK, <- E1, <- E2, <- ED in S. fold (gcd4 p) in S.
    unfold gcd4 at 1. simpl. nia.
  - exists 1. repeat split; try lia; auto.
Qed.

Lemma reduce_lambda_spec (lambda denomLambda : Z) :
  0 <= lambda <= INT_MAX -> 1 <= denomLambda <= INT_MAX ->
  reduce_lambda lambda denomLambda = Ok (reduced_lambda lambda denomLambda).
Proof.
  intros Hl Hd. unfold reduce_lambda, reduced_lambda.
  rewrite gcd_nonneg by lia. simpl.
  set (g := Z.gcd lambda denomLambda).
  destruct (Z.gtb_spec g 1) as [Hg | Hg]; [| reflexivity].
  assert (forall x, 0 <= x <= INT_MAX -> idiv x g = Ok (x / g)) as Hdiv.
  { intros x Hx. unfold idiv. rewrite Z.quot_div_nonneg by lia.
    apply checked_fits.
    pose proof (Z.div_pos x g ltac:(lia) ltac:(lia)).
    pose proof (Z.div_le_upper_bound x g x ltac:(lia) ltac:(nia)).
    unfold INT_MIN, INT_MAX in *. lia. }
  rewrite !Hdiv by lia. reflexivity.
Qed.

Lemma reduced_lambda_valid (lambda denomLambda : Z) :
  0 <= lambda -> 1 <= denomLambda ->
  0 <= fst (reduced_lambda lambda denomLambda) /\
  1 <= snd (reduced_lambda lambda denomLambda).
Proof.
  intros Hl Hd. unfold reduced_lambda.
  set (g := Z.gcd lambda denomLambda).
  destruct (Z.gtb_spec g 1) as [Hg | Hg]; simpl; [| lia].
  split; [apply Z.div_pos; lia |].
  destruct (Z.gcd_divide_r lambda denomLambda) as [q Hq]. fold g in Hq.
  rewrite Hq, Z.div_mul by lia. nia.
Qed.

(** What [fix_parameters] guarantees whenever it returns, for a bundle
    with a positive denominator. *)
Lemma fix_parameters_Ok (m : Match) (p : Parameters) (lambda : Z)
  (m' : Match) (p' : Parameters) (lam' dl : Z) :
  1 <= denominator p ->
  fix_parameters m p lambda = Ok (m', p', lam', dl) ->
  (exists c g, 1 <= c /\ 1 <= g /\ (0 <= lambda -> c = 1) /\
     denominator p * c = g * denominator p' /\
     (0 <= K p -> K p * c = g * K p') /\
     (0 <= lambda1 p -> lambda1 p * c = g * lambda1 p') /\
     (0 <= lambda2 p -> lambda2 p * c = g * lambda2 p')) /\
  gcd4 p' = 1 /\
  0 <= K p' /\ 0 <= lambda1 p' /\ 0 <= lambda2 p' /\ 1 <= denominator p' /\
  calls m' = calls m ++ provisional p lambda ++ [CallSetParameters p'].
Proof.
  intros HD H. unfold fix_parameters in H.
  bind_inv H. destruct a as [[m1 p1] lam1].
  bind_inv H. rename a into p2.
  bind_inv H. destruct a as [p3 dl3].
  bind_inv H. destruct a as [lam4 dl4]. inversion H; subst; clear H.
  apply resolve_lambda_Ok in E; [| assumption].
  destruct E as (Hlam & (c & Hc & HK & H1 & H2 & HD1 & Hexp) & Hcalls).
  apply fill_defaults_Ok in E0. destruct E0 as (HD2 & HK2 & H12 & H22).
  assert (0 <= K p2) by (rewrite HK2; destruct (Z.ltb_spec (K p1) 0); lia).
  assert (0 <= lambda1 p2)
    by (rewrite H12; destruct (Z.ltb_spec (lambda1 p1) 0); lia).
  assert (0 <= lambda2 p2)
    by (rewrite H22; destruct (Z.ltb_spec (lambda2 p1) 0); lia).
  assert (1 <= denominator p2) by nia.
  apply reduce_params_Ok in E1; try assumption.
  pose proof (reduced_spec p2 ltac:(assumption)) as R.
  rewrite <- E1 in R. simpl in R.
  destruct R as (g & Hg & RK & R1 & R2 & RD & Hgcd & _).
  split.
  { exists c, g. repeat split; try assumption.
    - intros Hl. now apply Hexp.
    - nia.
    - intros Hp. rewrite <- RK, HK2, HK.
      destruct (Z.ltb_spec (K p * c) 0); [nia | reflexivity].
    - intros Hp. rewrite <- R1, H12, H1.
      destruct (Z.ltb_spec (lambda1 p * c) 0); [nia | reflexivity].
    - intros Hp. rewrite <- R2, H22, H2.
      destruct (Z.ltb_spec (lambda2 p * c) 0); [nia | reflexivity]. }
  split; [assumption |].
  repeat split; try nia.
  simpl. rewrite Hcalls, <- app_assoc. reflexivity.
Qed.

(** ** The decoder's verdict *)

Lemma GetFraction_true (s : string) (n0 d0 n d : Z) :
  GetFraction s n0 d0 = Ok (true, n, d) ->
  (n = -1 /\ d = 1) \/ (0 <= n /\ 1 <= d).
Proof.
  unfold GetFraction. destruct (String.eqb s "AUTO").
  - intros H; inversion H; auto.
  - intros H. bind_inv H. destruct a as [[r n1] d1].
    bind_inv H. destruct a as [n2 d2].
    injection H as Hok -> ->.
    right. apply andb_true_iff in Hok.
    rewrite !Z.leb_le in Hok. exact Hok.
Qed.

(** ** The coefficient blocks of main *)

Lemma block_Ok (target : field) (s : string) (junk lambda : Z)
  (p : Parameters) (lam' : Z) (p' : Parameters) :
  block target s junk lambda p = Ok (lam', p') ->
  (empty s = true /\ lam' = lambda /\ p' = p) \/
  (empty s = false /\
   exists n d,
     GetFraction s (numerator target lambda p) junk = Ok (true, n, d) /\
     rescale target (fst (store target n lambda p)) d
             (snd (store target n lambda p)) = Ok (lam', p')).
Proof.
  destruct target; simpl;
    unfold main_lambda, main_lambda1, main_lambda2, main_K;
    destruct (empty s); simpl; intros H;
    try (left; inversion H; auto; fail);
    right; (split; [reflexivity |]);
    bind_inv H; destruct a as [[ok n] d];
    destruct ok; simpl in H; try discriminate; eauto.
Qed.

Lemma store_denominator (target : field) (n lambda : Z) (p : Parameters) :
  denominator (snd (store target n lambda p)) = denominator p.
Proof. destruct target; reflexivity. Qed.

Lemma block_denominator (target : field) (s : string) (junk lambda : Z)
  (p : Parameters) (lam' : Z) (p' : Parameters) :
  1 <= denominator p ->
  block target s junk lambda p = Ok (lam', p') ->
  1 <= denominator p'.
Proof.
  intros HD H. apply block_Ok in H.
  destruct H as [(_ & _ & ->) | (_ & n & d & G & R)]; [assumption |].
  apply GetFraction_true in G.
  apply rescale_signs in R; rewrite ?store_denominator; try lia.
Qed.

Lemma main_coefficients_Ok (cmd : CmdLine) (junk : Z) (p : Parameters)
  (lambda : Z) (p' : Parameters) :
  main_coefficients cmd junk p = Ok (lambda, p') ->
  exists l1 p1 l2 p2 l3 p3,
    block Lambda (slambda cmd) junk (-1) p = Ok (l1, p1) /\
    block Lambda1 (slambda1 cmd) junk l1 p1 = Ok (l2, p2) /\
    block Lambda2 (slambda2 cmd) junk l2 p2 = Ok (l3, p3) /\
    block FieldK (sK cmd) junk l3 p3 = Ok (lambda, p').
Proof.
  unfold main_coefficients. intros H.
  bind_inv H. destruct a as [l1 p1].
  bind_inv H. destruct a as [l2 p2].
  bind_inv H. destruct a as [l3 p3].
  exists l1, p1, l2, p2, l3, p3. auto.
Qed.

Lemma main_coefficients_denominator (cmd : CmdLine) (junk : Z)
  (p : Parameters) (lambda : Z) (p' : Parameters) :
  1 <= denominator p ->
  main_coefficients cmd junk p = Ok (lambda, p') -> 1 <= denominator p'.
Proof.
  intros HD H. apply main_coefficients_Ok in H.
  destruct H as (l1 & p1 & l2 & p2 & l3 & p3 & B0 & B1 & B2 & B3).
  eauto using block_denominator.
Qed.

(** ** The run as a whole *)

Lemma main_finish_Ok (cmd : CmdLine) (m : Match) (p : Parameters)
  (lambda : Z) (run : Run) :
  main_finish cmd m p lambda = Ok run ->
  exists m1,
    fix_parameters m p lambda =
      Ok (m1, params_end run, lambda_end run, denomLambda_end run) /\
    calls (solver run) = calls m1 ++ finish_calls cmd /\
    cout run =
      (if (argc cmd >? 5) || negb (empty (sDisp cmd)) then []
       else report (params_end run) (lambda_end run) (denomLambda_end run)).
Proof.
  unfold main_finish, finish_calls. intros H.
  bind_inv H. destruct a as [[[m1 p1] lam1] dl1].
  exists m1.
  destruct ((argc cmd >? 5) || negb (empty (sDisp cmd)));
    inversion H; subst; clear H; simpl.
  - split; [assumption |]. split; [| reflexivity].
    destruct (argc cmd >? 5), (negb (empty (sDisp cmd))); simpl;
      rewrite <- ?app_assoc; reflexivity.
  - split; [assumption |]. now rewrite app_nil_r.
Qed.

Lemma main_Ok (cmd : CmdLine) (env : Env) (run : Run) :
  main cmd env = Ok run ->
  (argc cmd = 5 \/ argc cmd = 6) /\
  exists p0 lambda p m lo hi,
    initial p0 /\
    main_coefficients cmd (uninit env) p0 = Ok (lambda, p) /\
    calls m = [CallSetDispRange lo hi] /\
    main_finish cmd m p lambda = Ok run.
Proof.
  unfold main. intros H.
  destruct (Z.eqb_spec (argc cmd) 5) as [A5 | A5];
    destruct (Z.eqb_spec (argc cmd) 6) as [A6 | A6];
    simpl in H; try discriminate;
    (split; [auto |]).
  all: bind_inv H; rename a into p0.
  all: assert (initial p0)
    by (destruct (used_r cmd), (used_c cmd), (String.eqb (cost cmd) "L1"),
          (String.eqb (cost cmd) "L2"); inversion E; repeat split).
  all: bind_inv H; destruct a as [lambda p].
  all: destruct (imLoad env (nth 1 (argv cmd) "")) as [rgb1 |];
    try discriminate.
  all: destruct (imLoad env (nth 2 (argv cmd) "")) as [rgb2 |];
    try discriminate.
  all: destruct (isGray rgb1 && isGray rgb2).
  all: destruct (read_int env (nth 3 (argv cmd) "")) as [lo eof_f].
  all: destruct eof_f; simpl in H; try discriminate.
  all: destruct (read_int env (nth 4 (argv cmd) "")) as [hi eof_g].
  all: destruct eof_g; simpl in H; try discriminate.
  all: eexists p0, lambda, p, _, lo, hi.
  all: split; [assumption |]; split; [eassumption |];
    split; [| eassumption]; reflexivity.
Qed.

Lemma empty_iff (s : string) : empty s = true <-> s = "".
Proof. apply String.eqb_eq. Qed.

Lemma finish_calls_keep (cmd : CmdLine) :
  forallb (fun c => negb (is_SetParameters c)) (finish_calls cmd) = true.
Proof.
  unfold finish_calls.
  destruct (argc cmd >? 5), (negb (empty (sDisp cmd))); reflexivity.
Qed.

Lemma handed_last (m : Match) (pre post : list call) (p : Parameters) :
  calls m = pre ++ CallSetParameters p :: post ->
  forallb (fun c => negb (is_SetParameters c)) post = true ->
  handed m = Some p.
Proof.
  unfold handed. intros -> Hpost.
  rewrite fold_left_app. simpl.
  generalize (Some p) as acc. clear pre. revert Hpost.
  induction post as [| c post IH]; simpl; intros Hpost acc; [reflexivity |].
  apply andb_true_iff in Hpost. destruct Hpost as [Hc Hpost].
  destruct c; simpl in Hc; try discriminate; now apply IH.
Qed.

(** Every run that returns 0 went through the same handoff. *)
Lemma main_handoff (cmd : CmdLine) (env : Env) (run : Run) :
  main cmd env = Ok run ->
  exists p0 lambda p lo hi,
    initial p0 /\
    main_coefficients cmd (uninit env) p0 = Ok (lambda, p) /\
    1 <= denominator p /\
    (exists m m1, calls m = [CallSetDispRange lo hi] /\
       fix_parameters m p lambda =
         Ok (m1, params_end run, lambda_end run, denomLambda_end run)) /\
    calls (solver run) =
      ([CallSetDispRange lo hi] ++ provisional p lambda)
      ++ CallSetParameters (params_end run) :: finish_calls cmd /\
    cout run =
      (if (argc cmd >? 5) || negb (empty (sDisp cmd)) then []
       else report (params_end run) (lambda_end run) (denomLambda_end run)).
Proof.
  intros H. apply main_Ok in H.
  destruct H as (_ & p0 & lambda & p & m & lo & hi & HD0 & HC & Hm & HF).
  apply main_finish_Ok in HF. destruct HF as (m1 & HF & Hcalls & Hout).
  assert (1 <= denominator p) as HD
    by (eapply main_coefficients_denominator; [| eassumption];
        destruct HD0 as [-> _]; lia).
  pose proof (fix_parameters_Ok _ _ _ _ _ _ _ HD HF)
    as (_ & _ & _ & _ & _ & _ & Hm1).
  exists p0, lambda, p, lo, hi.
  split; [assumption |]. split; [assumption |]. split; [assumption |].
  split; [eauto |]. split; [| assumption].
  rewrite Hcalls, Hm1, Hm, <- !app_assoc. reflexivity.
Qed.

Lemma expansions_app (m : Match) (l1 l2 : list call) :
  calls m = l1 ++ l2 ->
  expansions m = (List.length (filter is_KZ2 l1)
                  + List.length (filter is_KZ2 l2))%nat.
Proof.
  unfold expansions. intros ->. now rewrite filter_app, length_app.
Qed.

(** ** Signs through the rescalings and the blocks of main *)

Lemma rescale_all_signs (ops : list (field * Z)) :
  forall (lambda : Z) (params : Parameters) (lambda' : Z)
         (params' : Parameters),
  Forall (fun op => 1 <= snd op) ops ->
  1 <= denominator params ->
  rescale_all ops lambda params = Ok (lambda', params') ->
  (forall f, numerator f lambda' params' < 0 <-> numerator f lambda params < 0)
  /\ 1 <= denominator params'.
Proof.
  induction ops as [| [target denom] ops IH];
    intros lambda params lambda' params' Hops HD H; simpl in H.
  - inversion H; subst. split; [tauto | assumption].
  - bind_inv H. destruct a as [lam1 p1].
    inversion Hops as [| ? ? Hd Hrest]; subst. simpl in Hd.
    destruct (rescale_signs _ _ _ _ _ _ HD Hd E) as [Hs HD1].
    destruct (IH _ _ _ _ Hrest HD1 H) as [Hs' HD'].
    split; [| assumption].
    intros f. rewrite Hs'. apply Hs.
Qed.

Lemma GetFraction_AUTO (n0 d0 : Z) :
  GetFraction "AUTO" n0 d0 = Ok (true, -1, 1).
Proof. reflexivity. Qed.

Lemma GetFraction_given (s : string) (n0 d0 n d : Z) :
  String.eqb s "AUTO" = false ->
  GetFraction s n0 d0 = Ok (true, n, d) -> 0 <= n /\ 1 <= d.
Proof.
  unfold GetFraction. intros ->. intros H.
  bind_inv H. destruct a as [[r n1] d1].
  bind_inv H. destruct a as [n2 d2].
  injection H as Hok -> ->.
  apply andb_true_iff in Hok. now rewrite !Z.leb_le in Hok.
Qed.

Lemma store_numerator (target f : field) (n lambda : Z) (p : Parameters) :
  numerator f (fst (store target n lambda p)) (snd (store target n lambda p))
  = if field_eqb f target then n else numerator f lambda p.
Proof. destruct target, f; reflexivity. Qed.

(** One block of [main]: the other coefficients keep their sign, the
    target is negative afterwards exactly when it is left unset. *)
Lemma block_signs (target : field) (s : string) (junk lambda : Z)
  (p : Parameters) (lam' : Z) (p' : Parameters) :
  1 <= denominator p ->
  block target s junk lambda p = Ok (lam', p') ->
  1 <= denominator p' /\
  (forall f, field_eqb f target = false ->
     (numerator f lam' p' <? 0) = (numerator f lambda p <? 0)) /\
  (numerator target lam' p' <? 0) =
    (if empty s then numerator target lambda p <? 0 else unset s).
Proof.
  intros HD H.
  pose proof (block_denominator _ _ _ _ _ _ _ HD H) as HD'.
  split; [assumption |].
  apply block_Ok in H.
  destruct H as [(E & -> & ->) | (E & n & d & G & R)]; rewrite E.
  - split; reflexivity.
  - apply rescale_Ok in R. destruct R as (Hn & _).
    rewrite store_denominator in Hn.
    assert (1 <= d) by (apply GetFraction_true in G; lia).
    split.
    + intros f Hf. rewrite Hn, store_numerator, Hf.
      destruct (Z.ltb_spec (numerator f lambda p * d) 0),
               (Z.ltb_spec (numerator f lambda p) 0);
        try reflexivity; nia.
    + rewrite Hn, store_numerator.
      assert (field_eqb target target = true) as -> by now destruct target.
      unfold unset. rewrite E. simpl.
      destruct (String.eqb s "AUTO") eqn:A.
      * apply String.eqb_eq in A. subst s.
        rewrite GetFraction_AUTO in G. injection G as <- <-.
        apply Z.ltb_lt. lia.
      * apply (GetFraction_given _ _ _ _ _ A) in G.
        apply Z.ltb_ge. nia.
Qed.

(** After the four blocks, starting from the defaults of [main]: the
    coefficients that test negative are those left unset. *)
Lemma main_coefficients_signs (cmd : CmdLine) (junk : Z) (p0 : Parameters)
  (lambda : Z) (p : Parameters) :
  denominator p0 = 1 -> lambda1 p0 = -1 -> lambda2 p0 = -1 -> K p0 = -1 ->
  main_coefficients cmd junk p0 = Ok (lambda, p) ->
  1 <= denominator p /\
  (lambda <? 0) = unset (slambda cmd) /\
  (lambda1 p <? 0) = unset (slambda1 cmd) /\
  (lambda2 p <? 0) = unset (slambda2 cmd) /\
  (K p <? 0) = unset (sK cmd).
Proof.
  intros HD0 H10 H20 HK0 H. apply main_coefficients_Ok in H.
  destruct H as (l1 & p1 & l2 & p2 & l3 & p3 & B0 & B1 & B2 & B3).
  apply block_signs in B0; [| lia]. destruct B0 as (D1 & O1 & T1).
  apply block_signs in B1; [| lia]. destruct B1 as (D2 & O2 & T2).
  apply block_signs in B2; [| lia]. destruct B2 as (D3 & O3 & T3).
  apply block_signs in B3; [| lia]. destruct B3 as (D4 & O4 & T4).
  split; [assumption |].
  pose proof (O1 Lambda1 eq_refl) as A1. pose proof (O1 Lambda2 eq_refl) as A2.
  pose proof (O1 FieldK eq_refl) as A3.
  pose proof (O2 Lambda eq_refl) as A4. pose proof (O2 Lambda2 eq_refl) as A5.
  pose proof (O2 FieldK eq_refl) as A6.
  pose proof (O3 Lambda eq_refl) as A7. pose proof (O3 Lambda1 eq_refl) as A8.
  pose proof (O3 FieldK eq_refl) as A9.
  pose proof (O4 Lambda eq_refl) as A10.
  pose proof (O4 Lambda1 eq_refl) as A11.
  pose proof (O4 Lambda2 eq_refl) as A12.
  simpl in *. unfold unset in *.
  rewrite H10 in A1. rewrite H20 in A2. rewrite HK0 in A3.
  repeat split.
  - rewrite A10, A7, A4, T1. destruct (empty (slambda cmd)); reflexivity.
  - rewrite A11, A8, T2, A1. destruct (empty (slambda1 cmd)); reflexivity.
  - rewrite A12, T3, A5, A2. destruct (empty (slambda2 cmd)); reflexivity.
  - rewrite T4, A9, A6, A3. destruct (empty (sK cmd)); reflexivity.
Qed.

(** ** Fractions given on the command line *)

Lemma decodes_block (target : field) (s : string) (n d junk lambda : Z)
  (p : Parameters) (lam' : Z) (p' : Parameters) :
  decodes s n d ->
  block target s junk lambda p = Ok (lam', p') ->
  1 <= d /\
  (forall f, numerator f lam' p' =
             if field_eqb f target then n * denominator p
             else numerator f lambda p * d) /\
  denominator p' = denominator p * d.
Proof.
  intros Hs H. apply block_Ok in H.
  destruct H as [(E & _) | (_ & n' & d' & G & R)].
  - apply empty_iff in E. subst s.
    specialize (Hs (-1) 0). discriminate.
  - rewrite Hs in G. injection G as <- <-.
    split; [destruct (GetFraction_true _ _ _ _ _ (Hs 0 0)); lia |].
    apply rescale_Ok in R. destruct R as (Hn & HD & _).
    rewrite store_denominator in Hn, HD.
    split; [| assumption].
    intros f. rewrite Hn, store_numerator.
    destruct (field_eqb f target); reflexivity.
Qed.

(** ** When fix_parameters returns *)

Lemma fill_defaults_spec (p : Parameters) (lambda : Z) :
  0 <= lambda -> 5 * lambda <= INT_MAX ->
  fill_defaults p lambda = Ok (filled p lambda).
Proof.
  intros H0 H5. unfold fill_defaults, filled, imul.
  rewrite !checked_fits by (unfold INT_MIN, INT_MAX in *; lia).
  destruct (K p <? 0); simpl;
    (destruct (lambda1 p <? 0); simpl; reflexivity).
Qed.

Lemma filled_valid (p : Parameters) (lambda : Z) :
  0 <= lambda -> 5 * lambda <= INT_MAX ->
  K p <= INT_MAX -> lambda1 p <= INT_MAX -> lambda2 p <= INT_MAX ->
  let q := filled p lambda in
  0 <= K q <= INT_MAX /\ 0 <= lambda1 q <= INT_MAX /\
  0 <= lambda2 q <= INT_MAX /\ denominator q = denominator p.
Proof.
  intros H0 H5 HK H1 H2. unfold filled.
  destruct p as [dc D et l1 l2 k mi rnd]. cbn -[Z.mul] in *.
  destruct (Z.ltb_spec k 0); cbn -[Z.mul];
    (destruct (Z.ltb_spec l1 0); cbn -[Z.mul];
     (destruct (Z.ltb_spec l2 0); cbn -[Z.mul]; lia)).
Qed.

Lemma reduced_valid (p : Parameters) :
  0 <= K p <= INT_MAX -> 0 <= lambda1 p <= INT_MAX ->
  0 <= lambda2 p <= INT_MAX -> 1 <= denominator p <= INT_MAX ->
  let q := fst (reduced p) in
  0 <= K q <= INT_MAX /\ 0 <= lambda1 q <= INT_MAX /\
  0 <= lambda2 q <= INT_MAX /\ 1 <= denominator q <= INT_MAX /\
  gcd4 q = 1 /\ 1 <= snd (reduced p) <= INT_MAX.
Proof.
  intros HK H1 H2 HD.
  pose proof (reduced_spec p ltac:(lia)) as R. simpl in R.
  destruct R as (g & Hg & RK & R1 & R2 & RD & G & Hs & Hs1).
  simpl.
  assert (1 <= denominator (fst (reduced p))) by nia.
  assert (1 <= snd (reduced p) <= INT_MAX)
    by (destruct Hs as [-> | ->]; [rewrite Hs1 by reflexivity |]; nia).
  repeat split; try nia; try assumption.
Qed.

(** From a resolved, non-negative [lambda] on: the last three stages
    return, with valid integers. *)
Lemma finalize_returns (m : Match) (p : Parameters) (lambda : Z) :
  0 <= lambda -> 5 * lambda <= INT_MAX ->
  1 <= denominator p <= INT_MAX ->
  K p <= INT_MAX -> lambda1 p <= INT_MAX -> lambda2 p <= INT_MAX ->
  (q <- fill_defaults p lambda ;;
   '(q, denomLambda) <- reduce_params q ;;
   let m := SetParameters m q in
   '(lambda, denomLambda) <- reduce_lambda lambda denomLambda ;;
   Ok (m, q, lambda, denomLambda)) = Ok (finalized m p lambda) /\
  valid (finalized m p lambda).
Proof.
  intros H0 H5 HD HK H1 H2. unfold finalized, valid.
  rewrite fill_defaults_spec by assumption. cbn [bind].
  destruct (filled_valid p lambda H0 H5 HK H1 H2) as (FK & F1 & F2 & FD).
  rewrite reduce_params_spec by (rewrite ?FD; assumption).
  destruct (reduced_valid (filled p lambda) FK F1 F2 ltac:(rewrite FD; lia))
    as (RK & R1 & R2 & RD & G & RS).
  destruct (reduced (filled p lambda)) as [q dl0]. cbn [bind fst snd] in *.
  rewrite reduce_lambda_spec by lia.
  destruct (reduced_lambda_valid lambda dl0 H0 ltac:(lia)) as [L1 L2].
  destruct (reduced_lambda lambda dl0) as [lam' dl]. cbn [bind fst snd] in *.
  repeat split; try assumption; lia.
Qed.

Lemma setLambda_spec (lambda denom : Z) (p : Parameters) :
  INT_MIN <= lambda * denominator p <= INT_MAX ->
  INT_MIN <= lambda1 p * denom <= INT_MAX ->
  INT_MIN <= lambda2 p * denom <= INT_MAX ->
  INT_MIN <= K p * denom <= INT_MAX ->
  INT_MIN <= denominator p * denom <= INT_MAX ->
  setLambda lambda denom p = Ok (lambda * denominator p, scaled denom p).
Proof.
  intros. unfold setLambda, multLambdaK, imul. cbn [nth].
  rewrite !checked_fits by assumption. reflexivity.
Qed.

Lemma lambda_of_K_reaches (n : nat) (Kf : F32.float) (lam : Z) :
  reaches n Kf lam -> lambda_of_K Kf = Ok (lam, 2 ^ Z.of_nat n).
Proof.
  intros (Hn & Hstop & Hbelow & Hint). unfold lambda_of_K.
  assert (2 ^ Z.of_nat n <= 2 ^ 30) by (apply Z.pow_le_mono_r; lia).
  rewrite (doubling_reaches n) by
    (try assumption; unfold doubling_rounds, INT_MAX; lia).
  cbn [bind]. rewrite Hint. cbn [bind]. now rewrite Z.mul_1_l.
Qed.

(** [fix_parameters] returns, and what it returns, when lambda is derived
    and every int it forms fits. *)
Lemma fix_parameters_derived (m : Match) (p : Parameters) (lambda : Z)
  (n : nat) (lam : Z) :
  lambda < 0 -> 1 <= denominator p ->
  reaches n (working_K m p) lam ->
  5 * (lam * denominator p) <= INT_MAX ->
  INT_MIN <= K p * 2 ^ Z.of_nat n <= INT_MAX ->
  INT_MIN <= lambda1 p * 2 ^ Z.of_nat n <= INT_MAX ->
  INT_MIN <= lambda2 p * 2 ^ Z.of_nat n <= INT_MAX ->
  denominator p * 2 ^ Z.of_nat n <= INT_MAX ->
  let r := finalized (queried m p) (scaled (2 ^ Z.of_nat n) p)
                     (lam * denominator p) in
  fix_parameters m p lambda = Ok r /\ valid r.
Proof.
  intros Hneg HD Hreach H5 HK H1 H2 HDn r.
  assert (0 <= lam) as Hlam.
  { destruct Hreach as (_ & Hstop & _ & Hint).
    eapply round_not_below_three; eassumption. }
  assert (0 < 2 ^ Z.of_nat n) as Hpow by (apply Z.pow_pos_nonneg; lia).
  apply lambda_of_K_reaches in Hreach.
  assert (resolve_lambda m p lambda =
          Ok (queried m p, scaled (2 ^ Z.of_nat n) p, lam * denominator p))
    as R.
  { unfold resolve_lambda, queried, working_K in *.
    apply Z.ltb_lt in Hneg. rewrite Hneg.
    destruct (K p <=? 0); cbn [GetK SetParameters record K_estimate];
      rewrite Hreach; cbn [bind];
      (rewrite setLambda_spec by (unfold INT_MIN in *; nia));
      reflexivity. }
  unfold fix_parameters. rewrite R. cbn [bind].
  apply finalize_returns; unfold scaled; cbn -[Z.mul Z.pow]; nia.
Qed.

(** The same when lambda was given. *)
Lemma fix_parameters_given (m : Match) (p : Parameters) (lambda : Z) :
  0 <= lambda -> 5 * lambda <= INT_MAX ->
  1 <= denominator p <= INT_MAX ->
  K p <= INT_MAX -> lambda1 p <= INT_MAX -> lambda2 p <= INT_MAX ->
  fix_parameters m p lambda = Ok (finalized m p lambda) /\
  valid (finalized m p lambda).
Proof.
  intros H0 H5 HD HK H1 H2.
  unfold fix_parameters, resolve_lambda.
  apply Z.ltb_ge in H0. rewrite H0. cbn [bind].
  apply finalize_returns; try assumption. now apply Z.ltb_ge.
Qed.

Lemma filled_denominator (p : Parameters) (lambda : Z) :
  denominator (filled p lambda) = denominator p.
Proof.
  unfold filled. destruct p as [dc D et l1 l2 k mi rnd]. cbn -[Z.mul].
  destruct (k <? 0); cbn -[Z.mul];
    (destruct (l1 <? 0); cbn -[Z.mul];
     (destruct (l2 <? 0); reflexivity)).
Qed.

(** With denominator 1 nothing is reduced. *)
Lemma finalized_denominator_one (m : Match) (p : Parameters) (lambda : Z) :
  denominator p = 1 ->
  finalized m p lambda =
    (SetParameters m (filled p lambda), filled p lambda, lambda, 1).
Proof.
  intros HD. unfold finalized, reduced, reduced_lambda.
  assert (gcd4 (filled p lambda) = 1) as G.
  { unfold gcd4. rewrite filled_denominator, HD.
    now rewrite !Z.gcd_1_r. }
  rewrite G, filled_denominator, HD. cbn [Z.gtb Z.compare Pos.compare
    Pos.compare_cont]. now rewrite Z.gcd_1_r.
Qed.

(** ** Reading back decimal notation *)

Lemma digit_char_spec (d : Z) :
  0 <= d < 10 ->
  isdigit (digit_char d) = true /\ digit_value (digit_char d) = d.
Proof.
  intros H.
  assert (d = 0 \/ d = 1 \/ d = 2 \/ d = 3 \/ d = 4 \/ d = 5 \/ d = 6 \/
          d = 7 \/ d = 8 \/ d = 9) as C by lia.
  repeat (destruct C as [-> | C]; [split; reflexivity |]).
  subst d. split; reflexivity.
Qed.

Lemma isdigit_plain (c : ascii) :
  isdigit c = true ->
  isspace c = false /\ Ascii.eqb c "-" = false /\ Ascii.eqb c "+" = false /\
  Ascii.eqb c "/" = false /\ Ascii.eqb c "A" = false.
Proof.
  unfold isdigit, isspace. intros H.
  apply andb_true_iff in H. rewrite !Z.leb_le in H.
  split.
  { destruct (Z.eqb_spec (code c) 32); [lia |].
    destruct (Z.leb_spec 9 (code c)), (Z.leb_spec (code c) 13);
      try reflexivity; lia. }
  repeat split;
    match goal with |- Ascii.eqb c ?x = false =>
      destruct (Ascii.eqb_spec c x) as [-> | ?];
        [vm_compute in H; destruct H as [H1 H2];
         try (exfalso; apply H1; reflexivity);
         try (exfalso; apply H2; reflexivity)
        | reflexivity]
    end.
Qed.

(** Scanning the notation of [n] yields [n] and goes on with what follows. *)
Lemma scan_show_digits (fuel : nat) : forall n rest,
  0 <= n < 10 ^ (Z.of_nat fuel + 1) ->
  scan_digits (show_digits fuel n rest) 0 = scan_digits rest n.
Proof.
  induction fuel as [| fuel IH]; intros n rest Hn.
  - change (Z.of_nat 0 + 1) with 1 in Hn. rewrite Z.pow_1_r in Hn.
    cbn [show_digits scan_digits]. rewrite Z.mod_small by lia.
    destruct (digit_char_spec n Hn) as [-> ->]. f_equal; lia.
  - cbn [show_digits]. destruct (Z.ltb_spec n 10) as [Hlt | Hge].
    + cbn [scan_digits]. rewrite Z.mod_small by lia.
      destruct (digit_char_spec n ltac:(lia)) as [-> ->]. f_equal; lia.
    + rewrite IH.
      * cbn [scan_digits].
        destruct (digit_char_spec (n mod 10)
                    ltac:(apply Z.mod_pos_bound; lia)) as [-> ->].
        f_equal. pose proof (Z.div_mod n 10 ltac:(lia)). lia.
      * split; [apply Z.div_pos; lia |].
        apply Z.div_lt_upper_bound; [lia |].
        replace (Z.of_nat (S fuel) + 1) with (Z.succ (Z.of_nat fuel + 1))
          in Hn by lia.
        rewrite Z.pow_succ_r in Hn by lia. lia.
Qed.

Lemma show_digits_head (fuel : nat) : forall n rest,
  0 <= n ->
  exists c r, show_digits fuel n rest = String c r /\ isdigit c = true.
Proof.
  induction fuel as [| fuel IH]; intros n rest Hn; cbn [show_digits].
  - eexists _, _. split; [reflexivity |].
    apply digit_char_spec. apply Z.mod_pos_bound. lia.
  - destruct (n <? 10).
    + eexists _, _. split; [reflexivity |].
      apply digit_char_spec. apply Z.mod_pos_bound. lia.
    + apply IH. apply Z.div_pos; lia.
Qed.

Lemma show_digits_app (fuel : nat) : forall n acc rest,
  (show_digits fuel n acc ++ rest)%string = show_digits fuel n (acc ++ rest).
Proof.
  induction fuel as [| fuel IH]; intros n acc rest; cbn [show_digits].
  - reflexivity.
  - destruct (n <? 10); [reflexivity |]. now rewrite IH.
Qed.

Lemma show_fuel (n : Z) :
  0 <= n -> n < 10 ^ (Z.of_nat (Z.to_nat (Z.log2 n)) + 1).
Proof.
  intros Hn. pose proof (Z.log2_nonneg n). rewrite Z2Nat.id by lia.
  destruct (Z.eq_dec n 0) as [-> | Hz]; [reflexivity |].
  pose proof (Z.log2_spec n ltac:(lia)) as [_ Hlt].
  replace (Z.succ (Z.log2 n)) with (Z.log2 n + 1) in Hlt by lia.
  eapply Z.lt_le_trans; [exact Hlt |].
  apply Z.pow_le_mono_l. lia.
Qed.

(** One [%d] conversion reads back a written number. *)
Lemma scan_d_show (n : Z) (rest : string) :
  0 <= n -> no_digit rest = true ->
  scan_d (show n ++ rest) = Converted n rest /\
  String.eqb (show n ++ rest) "AUTO" = false.
Proof.
  intros Hn Hrest. unfold show. rewrite show_digits_app. cbn [append].
  pose proof (scan_show_digits _ n rest (conj Hn (show_fuel n Hn))) as S.
  destruct (show_digits_head (Z.to_nat (Z.log2 n)) n rest Hn)
    as (c & r & E & Hc).
  rewrite E in *. destruct (isdigit_plain c Hc) as (Hs & Hm & Hp & _ & HA).
  split.
  - unfold scan_d. cbn [skip_space]. rewrite Hs, Hm, Hp, Hc, S.
    destruct rest as [| c' r']; cbn [scan_digits]; [reflexivity |].
    cbn [no_digit] in Hrest. apply negb_true_iff in Hrest.
    now rewrite Hrest.
  - cbn [String.eqb]. now rewrite HA.
Qed.

Lemma scan_d_minus_show (n : Z) (rest : string) :
  0 <= n -> no_digit rest = true ->
  scan_d (String "-" (show n ++ rest)) = Converted (- n) rest.
Proof.
  intros Hn Hrest. unfold show. rewrite show_digits_app. cbn [append].
  pose proof (scan_show_digits _ n rest (conj Hn (show_fuel n Hn))) as S.
  destruct (show_digits_head (Z.to_nat (Z.log2 n)) n rest Hn)
    as (c & r & E & Hc).
  rewrite E in *.
  assert (scan_d (String "-" (String c r)) =
          let '(v, rest) := scan_digits (String c r) 0 in
          Converted (- v) rest) as ->.
  { unfold scan_d. cbn [skip_space]. change (isspace "-") with false.
    cbv beta iota. change (Ascii.eqb "-" "-") with true.
    cbv beta iota. now rewrite Hc. }
  rewrite S.
  destruct rest as [| c' r']; cbn [scan_digits]; [reflexivity |].
  cbn [no_digit] in Hrest. apply negb_true_iff in Hrest. now rewrite Hrest.
Qed.

Lemma GetFraction_pair (a b : Z) (s t r : string) (n0 d0 : Z) :
  INT_MIN <= a <= INT_MAX -> INT_MIN <= b <= INT_MAX ->
  String.eqb s "AUTO" = false ->
  scan_d s = Converted a (String "/" t) ->
  scan_d t = Converted b r ->
  GetFraction s n0 d0 = Ok ((0 <=? a) && (1 <=? b), a, b).
Proof.
  intros Ha Hb HA S1 S2. unfold GetFraction, sscanf_d_slash_d.
  rewrite HA, S1, (checked_fits a Ha). cbn [bind].
  change (Ascii.eqb "/" "/") with true.
  rewrite S2, (checked_fits b Hb). reflexivity.
Qed.

(** ** Shifts and digits of binary32 rounding *)

Lemma digits2_bounds (p : positive) :
  2 ^ (Z.pos (digits2_pos p) - 1) <= Z.pos p < 2 ^ Z.pos (digits2_pos p).
Proof.
  induction p as [p IH | p IH |]; cbn [digits2_pos].
  - rewrite Pos2Z.inj_succ.
    replace (Z.succ (Z.pos (digits2_pos p)) - 1)
      with (Z.succ (Z.pos (digits2_pos p) - 1)) by lia.
    rewrite !Z.pow_succ_r by lia. lia.
  - rewrite Pos2Z.inj_succ.
    replace (Z.succ (Z.pos (digits2_pos p)) - 1)
      with (Z.succ (Z.pos (digits2_pos p) - 1)) by lia.
    rewrite !Z.pow_succ_r by lia. lia.
  - simpl. lia.
Qed.

Lemma digits2_unique (p : positive) (k : Z) :
  2 ^ (k - 1) <= Z.pos p < 2 ^ k -> Z.pos (digits2_pos p) = k.
Proof.
  intros H. pose proof (digits2_bounds p) as B.
  assert (0 <= k - 1).
  { destruct (Z.le_gt_cases 0 (k - 1)) as [? | N]; [assumption |].
    destruct (Z.eq_dec k 0) as [-> | ?];
      [simpl in H; lia | rewrite (Z.pow_neg_r 2 k) in H by lia; lia]. }
  assert (Z.log2 (Z.pos p) = k - 1) as L1
    by (apply Z.log2_unique; [lia |];
        replace (Z.succ (k - 1)) with k by lia; exact H).
  assert (Z.log2 (Z.pos p) = Z.pos (digits2_pos p) - 1) as L2
    by (apply Z.log2_unique; [lia |];
        replace (Z.succ (Z.pos (digits2_pos p) - 1))
          with (Z.pos (digits2_pos p)) by lia; exact B).
  lia.
Qed.

Lemma iter_pos_nat {A : Type} (f : A -> A) (p : positive) : forall x,
  iter_pos f p x = Nat.iter (Pos.to_nat p) f x.
Proof.
  induction p as [p IH | p IH |]; intros x; cbn [iter_pos].
  - rewrite !IH, Pos2Nat.inj_xI.
    replace (S (2 * Pos.to_nat p)) with (Pos.to_nat p + S (Pos.to_nat p))%nat
      by lia.
    now rewrite Nat.iter_add, Nat.iter_succ_r.
  - rewrite !IH, Pos2Nat.inj_xO.
    replace (2 * Pos.to_nat p)%nat with (Pos.to_nat p + Pos.to_nat p)%nat
      by lia.
    now rewrite Nat.iter_add.
  - reflexivity.
Qed.

Lemma shr_1_spec (m : Z) (r s : bool) :
  0 <= m ->
  shr_1 {| shr_m := m; shr_r := r; shr_s := s |} =
  {| shr_m := m / 2; shr_r := Z.odd m; shr_s := r || s |}.
Proof.
  intros Hm. rewrite <- Z.div2_div.
  destruct m as [| [p | p |] |]; try reflexivity. lia.
Qed.

(** [k + 1] one-bit shifts of [m]: the quotient, the last bit shifted
    out, and whether anything below it was not 0. *)
Lemma shr_nat (m : Z) (k : nat) :
  0 <= m ->
  Nat.iter (S k) shr_1 {| shr_m := m; shr_r := false; shr_s := false |} =
  {| shr_m := m / 2 ^ (Z.of_nat k + 1);
     shr_r := Z.odd (m / 2 ^ Z.of_nat k);
     shr_s := negb (m mod 2 ^ Z.of_nat k =? 0) |}.
Proof.
  intros Hm. induction k as [| k IH].
  - cbn [Nat.iter nat_rect]. rewrite shr_1_spec by assumption.
    change (Z.of_nat 0) with 0. rewrite Z.pow_0_r, Z.div_1_r, Z.mod_1_r.
    reflexivity.
  - change (Nat.iter (S (S k)) shr_1 ?x) with (shr_1 (Nat.iter (S k) shr_1 x)).
    rewrite IH.
    assert (0 < 2 ^ Z.of_nat k) as Hp by (apply Z.pow_pos_nonneg; lia).
    rewrite shr_1_spec by (apply Z.div_pos; [lia | apply Z.pow_pos_nonneg; lia]).
    rewrite Nat2Z.inj_succ.
    replace (Z.succ (Z.of_nat k) + 1) with (Z.succ (Z.of_nat k + 1)) by lia.
    rewrite (Z.pow_succ_r 2 (Z.of_nat k + 1)) by lia.
    rewrite Z.div_div by lia.
    rewrite (Z.mul_comm 2).
    replace (Z.succ (Z.of_nat k)) with (Z.of_nat k + 1) by lia.
    f_equal.
    replace (2 ^ (Z.of_nat k + 1)) with (2 ^ Z.of_nat k * 2)
      by (rewrite Z.pow_add_r by lia; reflexivity).
    rewrite Z.rem_mul_r by lia.
    rewrite Zodd_mod.
    pose proof (Z.mod_pos_bound m (2 ^ Z.of_nat k) Hp).
    pose proof (Z.mod_pos_bound (m / 2 ^ Z.of_nat k) 2 ltac:(lia)).
    destruct (Z.eqb_spec ((m / 2 ^ Z.of_nat k) mod 2) 1) as [E | E];
      destruct (Z.eqb_spec (m mod 2 ^ Z.of_nat k) 0) as [F | F];
      simpl;
      match goal with |- _ = negb (?a =? 0) =>
        destruct (Z.eqb_spec a 0) end; try reflexivity; nia.
Qed.

Lemma shr_spec (m E n : Z) :
  0 <= m -> 0 < n ->
  shr {| shr_m := m; shr_r := false; shr_s := false |} E n =
  ({| shr_m := m / 2 ^ n;
      shr_r := Z.odd (m / 2 ^ (n - 1));
      shr_s := negb (m mod 2 ^ (n - 1) =? 0) |}, E + n).
Proof.
  intros Hm Hn. destruct n as [| p |]; try lia.
  unfold shr. rewrite iter_pos_nat.
  destruct (Pos.to_nat p) as [| k] eqn:K; [lia |].
  rewrite shr_nat by assumption.
  replace (Z.of_nat k) with (Z.pos p - 1) by lia.
  replace (Z.pos p - 1 + 1) with (Z.pos p) by lia. reflexivity.
Qed.

Lemma fexp_normal (d : Z) :
  -149 <= d - 24 -> fexp F32.prec F32.emax d = d - 24.
Proof.
  intros H. unfold fexp, emin, F32.prec, F32.emax. lia.
Qed.

(** One rounding of the positive integer [P] at exponent [E], when the
    rounded significand [R] has 24 digits. *)
Lemma round_aux_normal (P : positive) (E D R : Z) :
  Z.pos (digits2_pos P) = D -> 24 < D -> -149 <= D + E - 24 ->
  D + E - 24 <= 104 ->
  R = round_nearest_even
        (Z.pos P / 2 ^ (D - 24))
        (loc_of_shr_record
           {| shr_m := Z.pos P / 2 ^ (D - 24);
              shr_r := Z.odd (Z.pos P / 2 ^ (D - 24 - 1));
              shr_s := negb (Z.pos P mod 2 ^ (D - 24 - 1) =? 0) |}) ->
  2 ^ 23 <= R < 2 ^ 24 ->
  binary_round_aux F32.prec F32.emax false (Z.pos P) E loc_Exact =
  S754_finite false (Z.to_pos R) (D + E - 24).
Proof.
  intros HD HD24 Hmin Hmax HR HR24.
  unfold binary_round_aux, shr_fexp. cbn [Zdigits2 shr_record_of_loc].
  rewrite HD, fexp_normal by assumption.
  replace (D + E - 24 - E) with (D - 24) by lia.
  rewrite shr_spec by lia. cbn [shr_m]. rewrite <- HR.
  destruct R as [| R' |]; try (simpl in HR24; lia).
  cbn [Zdigits2 shr_record_of_loc].
  rewrite (digits2_unique R' 24) by (simpl; lia).
  rewrite fexp_normal by lia.
  replace (24 + (E + (D - 24)) - 24 - (E + (D - 24))) with 0 by lia.
  cbn [shr shr_m].
  replace (E + (D - 24)) with (D + E - 24) by lia.
  assert ((D + E - 24 <=? F32.emax - F32.prec) = true) as ->
    by (apply Z.leb_le; unfold F32.emax, F32.prec; lia).
  reflexivity.
Qed.

Lemma iter_xO (d m : positive) :
  Z.pos (Pos.iter xO m d) = Z.pos m * 2 ^ Z.pos d.
Proof.
  induction d as [| d IH] using Pos.peano_ind.
  - simpl. lia.
  - rewrite Pos.iter_succ, Pos2Z.inj_succ, Z.pow_succ_r by lia.
    rewrite Pos2Z.inj_xO, IH. ring.
Qed.

(** The sum of a float of exponent at least -22 and 0.5, before it is
    rounded: an integer number of units 2^-24. *)
Lemma add_half_exact (m : positive) (e : Z) :
  -22 <= e ->
  exists P : positive,
    Z.pos P = Z.pos m * 2 ^ (24 + e) + 2 ^ 23 /\
    F32.add (S754_finite false m e) F32.half =
    binary_round_aux F32.prec F32.emax false (Z.pos P) (-24) loc_Exact.
Proof.
  intros He.
  exists (Pos.iter xO m (Z.to_pos (24 + e)) + 8388608)%positive.
  split.
  - rewrite Pos2Z.inj_add, iter_xO, Z2Pos.id by lia. reflexivity.
  - unfold F32.add, SFadd, F32.half.
    rewrite Z.min_r by lia. cbv zeta.
    assert (shl_align m e (-24) =
            (Pos.iter xO m (Z.to_pos (24 + e)), -24)) as ->.
    { unfold shl_align.
      replace (-24 - e) with (Z.neg (Z.to_pos (24 + e)))
        by (rewrite <- Pos2Z.opp_pos, Z2Pos.id by lia; lia).
      reflexivity. }
    change (shl_align 8388608 (-24) (-24)) with (8388608%positive, -24).
    cbn [fst cond_Zopp].
    set (P := (Pos.iter xO m (Z.to_pos (24 + e)) + 8388608)%positive).
    change (Z.pos (Pos.iter xO m (Z.to_pos (24 + e))) + 8388608)
      with (Z.pos P).
    cbn [binary_normalize]. unfold binary_round.
    assert (shl_align P (-24)
              (fexp F32.prec F32.emax (Z.pos (digits2_pos P) + -24)) =
            (P, -24)) as ->; [| reflexivity].
    pose proof (digits2_bounds P) as B.
    assert (2 ^ 23 <= Z.pos P).
    { unfold P. rewrite Pos2Z.inj_add. change (Z.pos 8388608) with (2 ^ 23).
      lia. }
    assert (23 < Z.pos (digits2_pos P)).
    { apply (Z.pow_lt_mono_r_iff 2); lia. }
    unfold shl_align.
    destruct (fexp F32.prec F32.emax (Z.pos (digits2_pos P) + -24) - -24)
      as [| q | q] eqn:Q; try reflexivity.
    unfold fexp, emin, F32.prec, F32.emax in Q. lia.
Qed.

Lemma to_int_finite (m : positive) (e : Z) :
  F32.to_int (S754_finite false m e) =
  checked (if 0 <=? e then Z.pos m * 2 ^ e else Z.pos m / 2 ^ (- e)).
Proof. reflexivity. Qed.

Lemma mantissa_24 (m : positive) :
  Z.pos (digits2_pos m) = 24 -> 2 ^ 23 <= Z.pos m < 2 ^ 24.
Proof. intros H. pose proof (digits2_bounds m) as B. now rewrite H in B. Qed.

(** From exponent 1 on, adding 0.5 changes nothing. *)
Lemma add_half_large (m : positive) (e : Z) :
  Z.pos (digits2_pos m) = 24 -> 1 <= e <= 104 ->
  F32.add (S754_finite false m e) F32.half = S754_finite false m e.
Proof.
  intros Hm He. apply mantissa_24 in Hm.
  destruct (add_half_exact m e ltac:(lia)) as (P & HP & ->).
  assert (0 < 2 ^ (23 + e)) as HX by (apply Z.pow_pos_nonneg; lia).
  assert (2 ^ (24 + e) = 2 * 2 ^ (23 + e)) as E1
    by (replace (24 + e) with (Z.succ (23 + e)) by lia;
        rewrite Z.pow_succ_r by lia; reflexivity).
  assert (2 ^ 23 < 2 ^ (23 + e)) as E2 by (apply Z.pow_lt_mono_r; lia).
  assert (2 ^ (47 + e) = 2 ^ 23 * 2 ^ (24 + e)) as E3
    by (rewrite <- Z.pow_add_r by lia; f_equal; lia).
  assert (2 ^ (48 + e) = 2 ^ 24 * 2 ^ (24 + e)) as E4
    by (rewrite <- Z.pow_add_r by lia; f_equal; lia).
  rewrite (round_aux_normal P (-24) (48 + e) (Z.pos m)).
  - f_equal. lia.
  - apply digits2_unique.
    replace (48 + e - 1) with (47 + e) by lia. rewrite E3, E4, HP. nia.
  - lia.
  - lia.
  - lia.
  - replace (48 + e - 24) with (24 + e) by lia.
    replace (24 + e - 1) with (23 + e) by lia.
    assert (Z.pos P / 2 ^ (24 + e) = Z.pos m) as ->.
    { rewrite HP, Z.div_add_l by lia. rewrite Z.div_small by lia. lia. }
    assert (Z.pos P / 2 ^ (23 + e) = 2 * Z.pos m) as ->.
    { rewrite HP, E1.
      replace (Z.pos m * (2 * 2 ^ (23 + e))) with (2 * Z.pos m * 2 ^ (23 + e))
        by ring.
      rewrite Z.div_add_l by lia. rewrite Z.div_small by lia. lia. }
    assert (Z.pos P mod 2 ^ (23 + e) = 2 ^ 23) as ->.
    { rewrite HP, E1.
      replace (Z.pos m * (2 * 2 ^ (23 + e)) + 2 ^ 23)
        with (2 ^ 23 + 2 * Z.pos m * 2 ^ (23 + e)) by ring.
      rewrite Z.mod_add by lia. apply Z.mod_small. lia. }
    rewrite Z.odd_mul. reflexivity.
  - assumption.
Qed.

(** At exponent 0 the sum is half-way between two floats and goes to
    the even one. *)
Lemma add_half_tie (m : positive) :
  Z.pos (digits2_pos m) = 24 ->
  F32.to_int (F32.add (S754_finite false m 0) F32.half) =
  Ok (if Z.even (Z.pos m) then Z.pos m else Z.pos m + 1).
Proof.
  intros Hm. apply mantissa_24 in Hm.
  destruct (Z.eq_dec (Z.pos m) (2 ^ 24 - 1)) as [E | N].
  { injection E as ->. vm_compute. reflexivity. }
  destruct (add_half_exact m 0 ltac:(lia)) as (P & HP & ->).
  change (24 + 0) with 24 in HP.
  set (R := if Z.even (Z.pos m) then Z.pos m else Z.pos m + 1).
  assert (2 ^ 23 <= R < 2 ^ 24) as HR
    by (unfold R; destruct (Z.even (Z.pos m)); lia).
  rewrite (round_aux_normal P (-24) 48 R).
  - rewrite to_int_finite. change (48 + -24 - 24) with 0.
    change (0 <=? 0) with true. cbv iota. rewrite Z.pow_0_r, Z.mul_1_r.
    rewrite Z2Pos.id by lia. apply checked_fits.
    unfold INT_MIN, INT_MAX. lia.
  - apply digits2_unique. rewrite HP. lia.
  - lia.
  - lia.
  - lia.
  - change (48 - 24) with 24. change (24 - 1) with 23.
    assert (Z.pos P / 2 ^ 24 = Z.pos m) as ->.
    { rewrite HP, Z.div_add_l by lia. reflexivity. }
    assert (Z.pos P / 2 ^ 23 = 2 * Z.pos m + 1) as ->.
    { rewrite HP.
      replace (Z.pos m * 2 ^ 24 + 2 ^ 23)
        with ((2 * Z.pos m + 1) * 2 ^ 23) by lia.
      apply Z.div_mul. lia. }
    assert (Z.pos P mod 2 ^ 23 = 0) as ->.
    { rewrite HP.
      replace (Z.pos m * 2 ^ 24 + 2 ^ 23)
        with ((2 * Z.pos m + 1) * 2 ^ 23) by lia.
      apply Z.mod_mul. lia. }
    replace (2 * Z.pos m + 1) with (1 + 2 * Z.pos m) by ring.
    rewrite Z.odd_add_mul_2. reflexivity.
  - assumption.
Qed.

(** Below exponent 0 the sum is exact, or is rounded without crossing
    an integer: truncating it gives the floor of the exact sum. *)
Lemma add_half_small (m : positive) (e : Z) :
  Z.pos (digits2_pos m) = 24 -> -22 <= e <= -1 ->
  F32.to_int (F32.add (S754_finite false m e) F32.half) =
  Ok ((Z.pos m + 2 ^ (- 1 - e)) / 2 ^ (- e)).
Proof.
  intros Hm He. apply mantissa_24 in Hm.
  destruct (add_half_exact m e ltac:(lia)) as (P & HP & ->).
  set (j := - 1 - e) in *.
  set (X := 2 ^ (24 + e)) in *.
  assert (0 < X) as HX by (apply Z.pow_pos_nonneg; lia).
  assert (1 <= 2 ^ j <= 2 ^ 21) as Hj
    by (split; [apply (Z.pow_le_mono_r 2 0); lia
               | apply Z.pow_le_mono_r; lia]).
  assert (2 ^ 23 = 2 ^ j * X) as E23
    by (unfold X; rewrite <- Z.pow_add_r by lia; f_equal; lia).
  assert (2 ^ (- e) = 2 * 2 ^ j) as Ee
    by (replace (- e) with (Z.succ j) by lia;
        rewrite Z.pow_succ_r by lia; reflexivity).
  set (m2 := Z.pos m + 2 ^ j) in *.
  assert (Z.pos P = m2 * X) as HP2 by (rewrite HP, E23; unfold m2; ring).
  assert (forall k, 0 <= k -> 2 ^ (k + (24 + e)) = 2 ^ k * X) as Hpow
    by (intros k Hk; unfold X; rewrite Z.pow_add_r by lia; reflexivity).
  destruct (Z.lt_ge_cases m2 (2 ^ 24)) as [Hlt | Hge].
  - rewrite (round_aux_normal P (-24) (48 + e) m2).
    + rewrite to_int_finite.
      replace (48 + e + -24 - 24) with e by lia.
      assert ((0 <=? e) = false) as -> by (apply Z.leb_gt; lia).
      rewrite Z2Pos.id by lia. apply checked_fits.
      pose proof (Z.div_pos m2 (2 ^ (- e)) ltac:(lia) ltac:(lia)).
      pose proof (Z.div_le_upper_bound m2 (2 ^ (- e)) m2 ltac:(lia)
                    ltac:(nia)).
      unfold INT_MIN, INT_MAX. lia.
    + apply digits2_unique.
      replace (48 + e - 1) with (23 + (24 + e)) by lia.
      replace (48 + e) with (24 + (24 + e)) by lia.
      rewrite !Hpow, HP2 by lia. nia.
    + lia.
    + lia.
    + lia.
    + replace (48 + e - 24) with (24 + e) by lia.
      replace (24 + e - 1) with (23 + e) by lia.
      fold X.
      assert (X = 2 * 2 ^ (23 + e)) as EX
        by (unfold X; replace (24 + e) with (Z.succ (23 + e)) by lia;
            rewrite Z.pow_succ_r by lia; reflexivity).
      assert (0 < 2 ^ (23 + e)) by (apply Z.pow_pos_nonneg; lia).
      assert (Z.pos P / X = m2) as -> by (rewrite HP2; apply Z.div_mul; lia).
      assert (Z.pos P = 2 * m2 * 2 ^ (23 + e)) as HP3
        by (rewrite HP2, EX; ring).
      assert (Z.pos P / 2 ^ (23 + e) = 2 * m2) as ->
        by (rewrite HP3; apply Z.div_mul; lia).
      assert (Z.pos P mod 2 ^ (23 + e) = 0) as ->
        by (rewrite HP3; apply Z.mod_mul; lia).
      rewrite Z.odd_mul. reflexivity.
    + lia.
  - set (q := m2 / 2).
    set (R := round_nearest_even q
                (loc_of_shr_record
                   {| shr_m := q; shr_r := Z.odd m2; shr_s := false |})).
    assert (m2 = 2 * q + (if Z.odd m2 then 1 else 0)) as Hq
      by (unfold q; rewrite <- Z.div2_div; apply Z.div2_odd).
    assert (2 ^ 23 <= q) as Hq23 by (destruct (Z.odd m2); lia).
    assert (q <= R <= q + 1) as HR1.
    { unfold R. destruct (Z.odd m2); cbn; [| lia].
      destruct (Z.even q); lia. }
    assert (m2 < 2 ^ 24 + 2 ^ j) as Hm2 by (unfold m2; lia).
    rewrite (round_aux_normal P (-24) (49 + e) R).
    + rewrite to_int_finite.
      replace (49 + e + -24 - 24) with (e + 1) by lia.
      assert (0 <= R) by lia. rewrite Z2Pos.id by (destruct (Z.odd m2); lia).
      destruct (Z.leb_spec 0 (e + 1)) as [H0 | H0].
      * assert (e = -1) by lia. subst e. change (-1 + 1) with 0.
        rewrite Z.pow_0_r, Z.mul_1_r.
        assert (j = 0) as J by (unfold j; lia).
        rewrite J in *. change (2 ^ 0) with 1 in *.
        change (2 ^ (- -1)) with 2. fold q.
        assert (m2 = 2 ^ 24) as M by lia.
        assert (R = q) as ->
          by (unfold R; rewrite M; reflexivity).
        apply checked_fits. unfold INT_MIN, INT_MAX.
        destruct (Z.odd m2); lia.
      * replace (- (e + 1)) with j by (unfold j; lia).
        rewrite Ee.
        replace (m2 / (2 * 2 ^ j)) with (q / 2 ^ j)
          by (unfold q; rewrite Z.div_div by lia; reflexivity).
        assert (1 <= j) as J1 by (unfold j; lia).
        assert (2 ^ j = 2 * 2 ^ (j - 1)) as Ej
          by (replace j with (Z.succ (j - 1)) at 1 by lia;
              rewrite Z.pow_succ_r by lia; reflexivity).
        assert (2 ^ 23 = 2 ^ (23 - j) * 2 ^ j) as E2
          by (rewrite <- Z.pow_add_r by lia; f_equal; lia).
        assert (0 < 2 ^ (j - 1)) by (apply Z.pow_pos_nonneg; lia).
        assert (0 < 2 ^ (23 - j)) by (apply Z.pow_pos_nonneg; lia).
        assert (forall t, 0 <= t < 2 ^ j ->
                  (2 ^ 23 + t) / 2 ^ j = 2 ^ (23 - j)) as Hdiv.
        { intros t Ht. rewrite E2, Z.add_comm, Z.div_add by lia.
          rewrite Z.div_small by lia. lia. }
        assert (q < 2 ^ 23 + 2 ^ (j - 1)) as Hq24
          by (destruct (Z.odd m2); lia).
        assert (q / 2 ^ j = 2 ^ (23 - j)) as Hqd.
        { replace q with (2 ^ 23 + (q - 2 ^ 23)) by lia. apply Hdiv. lia. }
        assert (R / 2 ^ j = 2 ^ (23 - j)) as ->.
        { replace R with (2 ^ 23 + (R - 2 ^ 23)) by lia. apply Hdiv. lia. }
        rewrite <- Hqd.
        apply checked_fits.
        pose proof (Z.div_pos q (2 ^ j) ltac:(lia) ltac:(lia)).
        pose proof (Z.div_le_upper_bound q (2 ^ j) q ltac:(lia) ltac:(nia)).
        unfold INT_MIN, INT_MAX. destruct (Z.odd m2); lia.
    + apply digits2_unique.
      replace (49 + e - 1) with (24 + (24 + e)) by lia.
      replace (49 + e) with (25 + (24 + e)) by lia.
      rewrite !Hpow, HP2 by lia. nia.
    + lia.
    + lia.
    + lia.
    + replace (49 + e - 24) with (25 + e) by lia.
      replace (25 + e - 1) with (24 + e) by lia.
      fold X.
      assert (2 ^ (25 + e) = 2 * X) as EX
        by (unfold X; replace (25 + e) with (Z.succ (24 + e)) by lia;
            rewrite Z.pow_succ_r by lia; reflexivity).
      assert (Z.pos P / X = m2) as -> by (rewrite HP2; apply Z.div_mul; lia).
      assert (Z.pos P mod X = 0) as -> by (rewrite HP2; apply Z.mod_mul; lia).
      assert (Z.pos P / 2 ^ (25 + e) = q) as ->.
      { rewrite EX, HP2, (Z.mul_comm 2 X), <- Z.div_div by lia.
        rewrite Z.div_mul by lia. reflexivity. }
      reflexivity.
    + destruct (Z.odd m2); lia.
Qed.

Lemma mul_two_normal (m : positive) (e : Z) :
  Z.pos (digits2_pos m) = 24 -> -150 <= e <= 103 ->
  F32.mul (S754_finite false m e) two = S754_finite false m (e + 1).
Proof.
  intros Hm He. apply mantissa_24 in Hm.
  change two with (S754_finite false 8388608 (-22)).
  unfold F32.mul, SFmul. cbn [xorb].
  rewrite (round_aux_normal (m * 8388608) (e + -22) 47 (Z.pos m)).
  - f_equal. lia.
  - apply digits2_unique. rewrite Pos2Z.inj_mul. lia.
  - lia.
  - lia.
  - lia.
  - change (47 - 24) with 23. change (23 - 1) with 22.
    rewrite Pos2Z.inj_mul. change (Z.pos 8388608) with (2 ^ 23).
    rewrite Z.div_mul by lia.
    replace (Z.pos m * 2 ^ 23) with (2 * Z.pos m * 2 ^ 22) by lia.
    rewrite Z.div_mul, Z.mod_mul by lia.
    rewrite Z.odd_mul. reflexivity.
  - assumption.
Qed.

Lemma ltb_three (m : positive) (e : Z) :
  F32.ltb (S754_finite false m e) three =
  (e <? -22) || ((e =? -22) && (Z.pos m <? 12582912)).
Proof.
  change three with (S754_finite false 12582912 (-22)).
  unfold F32.ltb, SFltb, SFcompare.
  destruct (Z.compare_spec e (-22)) as [-> | H | H].
  - change (-22 <? -22) with false. change (-22 =? -22) with true.
    cbn [orb andb]. unfold Z.ltb. cbn [Z.compare].
    unfold Pos.compare. reflexivity.
  - apply Z.ltb_lt in H. rewrite H. reflexivity.
  - assert ((e <? -22) = false) as -> by (apply Z.ltb_ge; lia).
    assert ((e =? -22) = false) as -> by (apply Z.eqb_neq; lia).
    reflexivity.
Qed.

Lemma doubled_normal (m : positive) (n : nat) : forall e,
  Z.pos (digits2_pos m) = 24 -> -150 <= e -> e + Z.of_nat n <= 104 ->
  doubled n (S754_finite false m e) = S754_finite false m (e + Z.of_nat n).
Proof.
  induction n as [| n IH]; intros e Hm He Hn.
  - change (doubled 0 ?x) with x. f_equal. lia.
  - rewrite doubled_succ, mul_two_normal by (try assumption; lia).
    rewrite IH by (try assumption; lia). f_equal. lia.
Qed.

Lemma rounding_finite (m : positive) (e : Z) :
  -22 <= e ->
  rounding (S754_finite false m e) =
  if e <? 0 then (Z.pos m + 2 ^ (- 1 - e)) / 2 ^ (- e) else Z.pos m * 2 ^ e.
Proof.
  intros He. unfold rounding, float_value.
  destruct (Z.leb_spec 0 e) as [H0 | H0].
  - assert ((e <? 0) = false) as -> by (apply Z.ltb_ge; lia).
    unfold inject_Z, Qplus, Qfloor. cbn [Qnum Qden].
    change (Z.pos (1 * 2)) with 2. change (Z.pos 1) with 1.
    change (Z.pos 2) with 2.
    replace (Z.pos m * 2 ^ e * 2 + 1 * 1) with (1 + Z.pos m * 2 ^ e * 2)
      by ring.
    rewrite Z.div_add by lia. reflexivity.
  - assert ((e <? 0) = true) as -> by (apply Z.ltb_lt; lia).
    assert (0 < 2 ^ (- 1 - e)) as Hj by (apply Z.pow_pos_nonneg; lia).
    assert (2 ^ (- e) = 2 * 2 ^ (- 1 - e)) as Ee
      by (replace (- e) with (Z.succ (- 1 - e)) by lia;
          rewrite Z.pow_succ_r by lia; reflexivity).
    unfold value, Qplus, Qfloor. cbn [Qnum Qden].
    rewrite Pos2Z.inj_mul, Z2Pos.id by lia.
    change (Z.pos 2) with 2.
    rewrite Ee.
    replace (Z.pos m * 2 + 1 * (2 * 2 ^ (- 1 - e)))
      with (2 * (Z.pos m + 2 ^ (- 1 - e))) by ring.
    replace (2 * 2 ^ (- 1 - e) * 2) with (2 * (2 * 2 ^ (- 1 - e))) by ring.
    rewrite Z.div_mul_cancel_l by lia. reflexivity.
Qed.

(** [int(x + 0.5f)] for a binary32 number [x] between 2 and 2^31: the
    rounding of [x], and one more for an odd integer of exponent 0. *)
Lemma round_half (m : positive) (e : Z) :
  Z.pos (digits2_pos m) = 24 -> -22 <= e <= 7 ->
  F32.to_int (F32.add (S754_finite false m e) F32.half) =
  Ok (rounding (S754_finite false m e)
      + (if (e =? 0) && Z.odd (Z.pos m) then 1 else 0)).
Proof.
  intros Hm He. rewrite rounding_finite by lia.
  destruct (Z.ltb_spec e 0) as [Hneg | Hpos].
  - assert ((e =? 0) = false) as -> by (apply Z.eqb_neq; lia).
    cbn [andb]. rewrite Z.add_0_r. apply add_half_small; [assumption | lia].
  - destruct (Z.eqb_spec e 0) as [-> | Hne]; cbn [andb].
    + rewrite add_half_tie by assumption.
      rewrite Z.pow_0_r, Z.mul_1_r, <- Z.negb_odd.
      destruct (Z.odd (Z.pos m)); cbn [negb]; f_equal; lia.
    + rewrite add_half_large by (try assumption; lia).
      rewrite to_int_finite.
      assert ((0 <=? e) = true) as -> by (apply Z.leb_le; lia).
      rewrite Z.add_0_r. apply checked_fits.
      apply mantissa_24 in Hm.
      assert (0 < 2 ^ e <= 2 ^ 7)
        by (split; [apply Z.pow_pos_nonneg; lia
                   | apply Z.pow_le_mono_r; lia]).
      unfold INT_MIN, INT_MAX. nia.
Qed.

Lemma bounded_normal (m : positive) (e : Z) :
  bounded F32.prec F32.emax m e = true -> -149 < e ->
  Z.pos (digits2_pos m) = 24 /\ e <= 104.
Proof.
  unfold bounded, canonical_mantissa, fexp, emin, F32.prec, F32.emax.
  intros H He. apply andb_true_iff in H. destruct H as [C B].
  apply Z.eqb_eq in C. apply Z.leb_le in B. lia.
Qed.

(** The loop and the rounding on a working value that is a positive
    binary32 number: how many doublings, what they give, and lambda. *)
Lemma lambda_of_K_normal (Kf : F32.float) (m : positive) (e : Z) :
  F32.div Kf five = S754_finite false m e ->
  bounded F32.prec F32.emax m e = true ->
  (doublings m e <= 30)%nat -> e <= 7 ->
  let n := doublings m e in
  let K' := S754_finite false m (e + Z.of_nat n) in
  doubled n (F32.div Kf five) = K' /\
  F32.ltb K' three = false /\
  (forall i : nat, (i < n)%nat ->
     F32.ltb (doubled i (F32.div Kf five)) three = true) /\
  lambda_of_K Kf =
    Ok (rounding K' + (if (e + Z.of_nat n =? 0) && Z.odd (Z.pos m)
                       then 1 else 0),
        2 ^ Z.of_nat n).
Proof.
  intros Hw Hb Hn He n K'.
  assert (-149 < e) as Hmin
    by (unfold doublings in Hn; destruct (Z.pos m <? 12582912); lia).
  destruct (bounded_normal m e Hb Hmin) as [Hm _].
  assert (forall i : nat, (i <= n)%nat ->
            doubled i (F32.div Kf five) =
            S754_finite false m (e + Z.of_nat i)) as Hd.
  { intros i Hi. rewrite Hw. apply doubled_normal; try assumption; lia. }
  assert (F32.ltb K' three = false) as Hstop.
  { unfold K'. rewrite ltb_three. subst n. unfold doublings.
    destruct (Z.ltb_spec (Z.pos m) 12582912);
      destruct (Z.ltb_spec (e + Z.of_nat (Z.to_nat (-21 - e))) (-22));
      destruct (Z.eqb_spec (e + Z.of_nat (Z.to_nat (-21 - e))) (-22));
      destruct (Z.ltb_spec (e + Z.of_nat (Z.to_nat (-22 - e))) (-22));
      destruct (Z.eqb_spec (e + Z.of_nat (Z.to_nat (-22 - e))) (-22));
      cbn [orb andb]; try reflexivity; lia. }
  assert (forall i : nat, (i < n)%nat ->
            F32.ltb (doubled i (F32.div Kf five)) three = true) as Hbelow.
  { intros i Hi. rewrite Hd, ltb_three by lia.
    subst n. unfold doublings in Hi.
    destruct (Z.ltb_spec (Z.pos m) 12582912);
      destruct (Z.ltb_spec (e + Z.of_nat i) (-22));
      destruct (Z.eqb_spec (e + Z.of_nat i) (-22));
      cbn [orb andb]; try reflexivity; lia. }
  split; [apply Hd; lia |]. split; [assumption |]. split; [assumption |].
  apply lambda_of_K_reaches. split; [assumption |].
  rewrite Hd by lia. fold K'.
  split; [assumption |]. split; [assumption |].
  unfold K'. apply round_half; [assumption |].
  assert (e + Z.of_nat n <= 7)
    by (subst n; unfold doublings; destruct (Z.pos m <? 12582912); lia).
  unfold K' in Hstop. rewrite ltb_three in Hstop.
  destruct (Z.ltb_spec (e + Z.of_nat n) (-22)); [discriminate | lia].
Qed.

(** * The claims *)

(** C1. For every combination of given, AUTO and defaulted coefficients,
    once a run has gone through [fix_parameters] the bundle handed to the
    solver has K, lambda1, lambda2 and denominator with greatest common
    divisor 1. *)
Theorem handed_bundle_gcd_one (cmd : CmdLine) (env : Env) (run : Run) :
  main cmd env = Ok run ->
  handed (solver run) = Some (params_end run) /\
  gcd4 (params_end run) = 1.
Proof.
  intros H. apply main_handoff in H.
  destruct H as (p0 & lambda & p & lo & hi & _ & _ & HD & (m & m1 & _ & HF)
                 & Hcalls & _).
  split.
  - eapply handed_last; [exact Hcalls | apply finish_calls_keep].
  - now apply fix_parameters_Ok in HF.
Qed.

Lemma handed_bundle_gcd_one_witness :
  exists run, main cmd_mixed env_demo = Ok run /\
              handed (solver run) = Some (params_end run) /\
              gcd4 (params_end run) = 1.
Proof.
  eexists. split; [vm_compute; reflexivity |].
  apply (handed_bundle_gcd_one cmd_mixed env_demo). vm_compute. reflexivity.
Defined.

(** C2. When lambda, lambda1, lambda2 and K are all given as fractions,
    none of them AUTO, the bundle handed to the solver holds exactly the
    given values: lambda1/denominator, lambda2/denominator and
    K/denominator are the rationals the user wrote. *)
Theorem explicit_ratios_exact (cmd : CmdLine) (env : Env) (run : Run)
  (a b c d e f g h : Z) :
  decodes (slambda cmd) a b -> decodes (slambda1 cmd) c d ->
  decodes (slambda2 cmd) e f -> decodes (sK cmd) g h ->
  0 <= a -> 0 <= c -> 0 <= e -> 0 <= g ->
  main cmd env = Ok run ->
  handed (solver run) = Some (params_end run) /\
  (value (lambda1 (params_end run)) (denominator (params_end run))
   == value c d)%Q /\
  (value (lambda2 (params_end run)) (denominator (params_end run))
   == value e f)%Q /\
  (value (K (params_end run)) (denominator (params_end run))
   == value g h)%Q.
Proof.
  intros S0 S1 S2 S3 Ha Hc He Hg H. apply main_handoff in H.
  destruct H as (p0 & lambda & p & lo & hi & (HD0 & _) & HC & HD
                 & (m & m1 & _ & HF) & Hcalls & _).
  split; [eapply handed_last; [exact Hcalls | apply finish_calls_keep] |].
  apply main_coefficients_Ok in HC.
  destruct HC as (l1 & p1 & l2 & p2 & l3 & p3 & B0 & B1 & B2 & B3).
  destruct (decodes_block _ _ _ _ _ _ _ _ _ S0 B0) as (Hb & N1 & D1).
  destruct (decodes_block _ _ _ _ _ _ _ _ _ S1 B1) as (Hd & N2 & D2).
  destruct (decodes_block _ _ _ _ _ _ _ _ _ S2 B2) as (Hf & N3 & D3).
  destruct (decodes_block _ _ _ _ _ _ _ _ _ S3 B3) as (Hh & N4 & D4).
  pose proof (N1 Lambda) as L1. pose proof (N2 Lambda) as L2.
  pose proof (N3 Lambda) as L3. pose proof (N4 Lambda) as L4.
  pose proof (N2 Lambda1) as X2. pose proof (N3 Lambda1) as X3.
  pose proof (N4 Lambda1) as X4.
  pose proof (N3 Lambda2) as Y3. pose proof (N4 Lambda2) as Y4.
  pose proof (N4 FieldK) as Z4.
  simpl in *.
  assert (0 <= lambda) as Hl by (subst; nia).
  assert (0 <= lambda1 p) as H1 by (subst; nia).
  assert (0 <= lambda2 p) as H2 by (subst; nia).
  assert (0 <= K p) as HK by (subst; nia).
  apply fix_parameters_Ok in HF; [| assumption].
  destruct HF as ((k & r & Hk & Hr & Hk1 & RD & RK & R1 & R2) & _ & _ & _ & _
                  & HDe & _).
  specialize (Hk1 Hl). subst k.
  specialize (RK HK). specialize (R1 H1). specialize (R2 H2).
  unfold value, Qeq. simpl. rewrite !Z2Pos.id by lia.
  repeat split.
  - apply (Z.mul_reg_l _ _ r); [lia |].
    replace (r * (lambda1 (params_end run) * d))
      with (lambda1 p * 1 * d) by (rewrite R1; ring).
    replace (r * (c * denominator (params_end run)))
      with (c * (denominator p * 1)) by (rewrite RD; ring).
    rewrite X4, X3, X2, D4, D3, D2. ring.
  - apply (Z.mul_reg_l _ _ r); [lia |].
    replace (r * (lambda2 (params_end run) * f))
      with (lambda2 p * 1 * f) by (rewrite R2; ring).
    replace (r * (e * denominator (params_end run)))
      with (e * (denominator p * 1)) by (rewrite RD; ring).
    rewrite Y4, Y3, D4, D3. ring.
  - apply (Z.mul_reg_l _ _ r); [lia |].
    replace (r * (K (params_end run) * h))
      with (K p * 1 * h) by (rewrite RK; ring).
    replace (r * (g * denominator (params_end run)))
      with (g * (denominator p * 1)) by (rewrite RD; ring).
    rewrite Z4, D4. ring.
Qed.

Lemma explicit_ratios_exact_witness :
  handed (solver (run_or cmd_explicit env_demo)) =
    Some (params_end (run_or cmd_explicit env_demo)) /\
  (value (lambda1 (params_end (run_or cmd_explicit env_demo)))
         (denominator (params_end (run_or cmd_explicit env_demo)))
   == value 5 6)%Q /\
  (value (lambda2 (params_end (run_or cmd_explicit env_demo)))
         (denominator (params_end (run_or cmd_explicit env_demo)))
   == value 1 6)%Q /\
  (value (K (params_end (run_or cmd_explicit env_demo)))
         (denominator (params_end (run_or cmd_explicit env_demo)))
   == value 9 2)%Q.
Proof.
  apply (explicit_ratios_exact cmd_explicit env_demo _ 3 4 5 6 1 6 9 2).
  - intros n0 d0. vm_compute. reflexivity.
  - intros n0 d0. vm_compute. reflexivity.
  - intros n0 d0. vm_compute. reflexivity.
  - intros n0 d0. vm_compute. reflexivity.
  - lia.
  - lia.
  - lia.
  - lia.
  - vm_compute. reflexivity.
Defined.

(** C3. A rescaling by a positive new denominator, on a bundle whose
    denominator is positive, leaves the rational value of every
    coefficient other than its target exactly as it was. *)
Theorem rescale_preserves_others (target other : field) (lambda denom : Z)
  (params : Parameters) (lambda' : Z) (params' : Parameters) :
  1 <= denominator params -> 1 <= denom ->
  rescale target lambda denom params = Ok (lambda', params') ->
  other <> target ->
  (value (numerator other lambda' params') (denominator params') ==
   value (numerator other lambda params) (denominator params))%Q.
Proof.
  intros HD Hd H Hneq. apply rescale_Ok in H. destruct H as (Hn & HD' & _).
  specialize (Hn other).
  assert (field_eqb other target = false) as E
    by (destruct other, target; try reflexivity; congruence).
  rewrite E in Hn.
  unfold value, Qeq. simpl.
  rewrite !Z2Pos.id by nia. rewrite Hn, HD'. ring.
Qed.

Lemma rescale_preserves_others_witness :
  (value (numerator Lambda2 18 (mkParameters L2 24 8 (-16) 30 (-24) 4 false)) 24
   == value (numerator Lambda2 3 params_demo) 4)%Q.
Proof.
  apply (rescale_preserves_others Lambda1 Lambda2 3 6 params_demo 18
           (mkParameters L2 24 8 (-16) 30 (-24) 4 false)).
  - vm_compute. discriminate.
  - vm_compute. discriminate.
  - vm_compute. reflexivity.
  - discriminate.
Defined.

(** C4, as stated, fails: text after the number is ignored, and a failed
    second conversion falls back to denominator 1, so inputs outside the
    three specified forms are decoded with success. *)
Lemma decoder_accepts_other_syntax :
  spec_decode "5abc" = None /\
  GetFraction "5abc" (-1) 0 = Ok (true, 5, 1) /\
  spec_decode "3/x" = None /\
  GetFraction "3/x" (-1) 0 = Ok (true, 3, 1) /\
  ~ decoder_agrees "5abc" (-1) 0.
Proof.
  repeat split; try (vm_compute; reflexivity).
  unfold decoder_agrees. vm_compute. intros (n & d & H). discriminate.
Qed.

(** C4, amended.  [GetFraction] decodes AUTO as (-1, 1) with success.
    Otherwise it reads the longest prefix [<int>/<int>] and, failing that,
    the longest prefix [<int>] with denominator 1, and ignores the text
    that follows: [<int>/<int>] followed by anything but a digit yields
    that pair, [<int>] followed by anything but a digit or a [/<int>]
    yields (int, 1), and an input that starts with no integer leaves both
    variables as the caller had them.  It reports success exactly when the
    input is AUTO or the numerator it leaves is at least 0 and the
    denominator at least 1; so a negative numerator and a denominator
    below 1 fail. *)
Theorem decoder_contract :
  (forall n0 d0, GetFraction "AUTO" n0 d0 = Ok (true, -1, 1)) /\
  (forall a b rest n0 d0,
     0 <= a <= INT_MAX -> 0 <= b <= INT_MAX -> no_digit rest = true ->
     GetFraction (show a ++ "/" ++ show b ++ rest)%string n0 d0 =
       Ok (1 <=? b, a, b)) /\
  (forall a rest n0 d0,
     0 <= a <= INT_MAX -> no_digit rest = true ->
     no_denominator rest = true ->
     GetFraction (show a ++ rest)%string n0 d0 = Ok (true, a, 1)) /\
  (forall a b rest n0 d0,
     1 <= a <= INT_MAX -> 0 <= b <= INT_MAX -> no_digit rest = true ->
     GetFraction ("-" ++ show a ++ "/" ++ show b ++ rest)%string n0 d0 =
       Ok (false, - a, b)) /\
  (forall s n0 d0,
     String.eqb s "AUTO" = false ->
     (forall v r, scan_d s <> Converted v r) ->
     GetFraction s n0 d0 = Ok ((0 <=? n0) && (1 <=? d0), n0, d0)) /\
  (forall s n0 d0 ok n d,
     GetFraction s n0 d0 = Ok (ok, n, d) ->
     ok = true <-> s = "AUTO" \/ (0 <= n /\ 1 <= d)).
Proof.
  split; [reflexivity |].
  split.
  { intros a b rest n0 d0 Ha Hb Hrest.
    destruct (scan_d_show a ("/" ++ show b ++ rest)%string ltac:(lia)
                eq_refl) as [S1 HA].
    destruct (scan_d_show b rest ltac:(lia) Hrest) as [S2 _].
    cbn [append] in S1.
    rewrite (GetFraction_pair a b _ _ _ n0 d0 ltac:(unfold INT_MIN in *; lia)
               ltac:(unfold INT_MIN in *; lia) HA S1 S2).
    destruct (Z.leb_spec 0 a); [reflexivity | lia]. }
  split.
  { intros a rest n0 d0 Ha Hrest Hden.
    destruct (scan_d_show a rest ltac:(lia) Hrest) as [S1 HA].
    unfold GetFraction, sscanf_d_slash_d, sscanf_d.
    rewrite HA, S1, (checked_fits a) by (unfold INT_MIN in *; lia).
    cbn [bind].
    assert (match rest with
            | String "/" rest' =>
                match scan_d rest' with
                | Converted d _ => d <- checked d;; Ok (2, a, d)
                | _ => Ok (1, a, d0)
                end
            | _ => Ok (1, a, d0)
            end = Ok (1, a, d0)) as ->.
    { destruct rest as [| c r]; [reflexivity |].
      cbn [no_denominator] in Hden.
      destruct (Ascii.eqb_spec c "/") as [-> | Hc].
      - destruct (scan_d r); [discriminate | reflexivity | reflexivity].
      - destruct c as [[] [] [] [] [] [] [] []]; try reflexivity.
        exfalso. apply Hc. reflexivity. }
    cbn [bind negb Z.eqb Pos.eqb].
    destruct (Z.leb_spec 0 a); [reflexivity | lia]. }
  split.
  { intros a b rest n0 d0 Ha Hb Hrest.
    pose proof (scan_d_minus_show a ("/" ++ show b ++ rest)%string
                  ltac:(lia) eq_refl) as S1.
    destruct (scan_d_show b rest ltac:(lia) Hrest) as [S2 _].
    cbn [append] in S1 |- *.
    rewrite (GetFraction_pair (- a) b
               (String "-" (show a ++ String "/" (show b ++ rest)))
               _ _ n0 d0
               ltac:(unfold INT_MIN, INT_MAX in *; lia)
               ltac:(unfold INT_MIN in *; lia) eq_refl S1 S2).
    destruct (Z.leb_spec 0 (- a)); [lia | reflexivity]. }
  split.
  { intros s n0 d0 HA Hscan.
    unfold GetFraction, sscanf_d_slash_d, sscanf_d. rewrite HA.
    destruct (scan_d s) as [v r | |]; [now destruct (Hscan v r) | |];
      reflexivity. }
  intros s n0 d0 ok n d H. unfold GetFraction in H.
  destruct (String.eqb_spec s "AUTO") as [-> | Hs].
  - injection H as <- <- <-. tauto.
  - bind_inv H. destruct a as [[r n1] d1].
    bind_inv H. destruct a as [n2 d2].
    injection H as <- -> ->.
    rewrite andb_true_iff, !Z.leb_le. tauto.
Qed.

Lemma decoder_contract_witness :
  GetFraction "3/4abc" (-1) 0 = Ok (true, 3, 4) /\
  GetFraction "5 px" (-1) 0 = Ok (true, 5, 1) /\
  GetFraction "-1/2" (-1) 0 = Ok (false, -1, 2) /\
  GetFraction "abc" (-1) 0 = Ok (false, -1, 0).
Proof.
  destruct decoder_contract as (_ & H2 & H3 & H4 & H5 & _).
  split; [| split; [| split]].
  - apply (H2 3 4 "abc" (-1) 0); vm_compute; try reflexivity;
      split; discriminate.
  - apply (H3 5 " px" (-1) 0); vm_compute; try reflexivity;
      split; discriminate.
  - apply (H4 1 2 "" (-1) 0); vm_compute; try reflexivity;
      split; discriminate.
  - apply (H5 "abc" (-1) 0); [reflexivity |].
    intros v r. vm_compute. discriminate.
Defined.

(** C5, as stated, fails: with lambda = 2 and nothing else given the
    bundle handed to the solver is K = 10, lambda1 = 6, lambda2 = 2 over
    denominator 1, not K = 5, lambda1 = 3, lambda2 = 1. *)
Lemma default_scenario_not_halved :
  exists run,
    main cmd_lambda2 env_demo = Ok run /\
    handed (solver run) = Some (params_end run) /\
    (K (params_end run), lambda1 (params_end run), lambda2 (params_end run),
     denominator (params_end run)) = (10, 6, 2, 1) /\
    (K (params_end run), lambda1 (params_end run), lambda2 (params_end run),
     denominator (params_end run)) <> (5, 3, 1, 1).
Proof.
  eexists. split; [vm_compute; reflexivity |].
  split; [vm_compute; reflexivity |].
  split; [vm_compute; reflexivity |].
  vm_compute. discriminate.
Qed.

(** C5, amended.  When lambda = 2 is given and K, lambda1 and lambda2 are
    not, the defaults resolve to K = 10, lambda1 = 6, lambda2 = 2; their
    gcd together with the denominator 1 is 1, so nothing is divided and
    the bundle handed to the solver is K = 10, lambda1 = 6, lambda2 = 2,
    denominator = 1. *)
Theorem default_scenario (cmd : CmdLine) (env : Env) (run : Run) :
  slambda cmd = "2" -> slambda1 cmd = "" -> slambda2 cmd = "" ->
  sK cmd = "" ->
  main cmd env = Ok run ->
  handed (solver run) = Some (params_end run) /\
  K (params_end run) = 10 /\ lambda1 (params_end run) = 6 /\
  lambda2 (params_end run) = 2 /\ denominator (params_end run) = 1 /\
  gcd4 (params_end run) = 1.
Proof.
  intros S0 S1 S2 S3 H. apply main_handoff in H.
  destruct H as (p0 & lambda & p & lo & hi & (I0 & I1 & I2 & I3) & HC & HD
                 & (m & m1 & _ & HF) & Hcalls & _).
  split; [eapply handed_last; [exact Hcalls | apply finish_calls_keep] |].
  unfold main_coefficients in HC. rewrite S0, S1, S2, S3 in HC.
  destruct p0 as [dc D0 et l10 l20 K0 mi rnd]. simpl in I0, I1, I2, I3.
  subst D0 l10 l20 K0.
  vm_compute in HC. injection HC as <- <-.
  remember (params_end run) as pe. remember (lambda_end run) as le.
  remember (denomLambda_end run) as de.
  destruct m as [est cs]. vm_compute in HF.
  injection HF as _ <- _ _. simpl. repeat split; reflexivity.
Qed.

Lemma default_scenario_witness :
  K (params_end (run_or cmd_lambda2 env_demo)) = 10 /\
  lambda1 (params_end (run_or cmd_lambda2 env_demo)) = 6 /\
  lambda2 (params_end (run_or cmd_lambda2 env_demo)) = 2 /\
  denominator (params_end (run_or cmd_lambda2 env_demo)) = 1.
Proof.
  destruct (default_scenario cmd_lambda2 env_demo
              (run_or cmd_lambda2 env_demo)) as (_ & HK & H1 & H2 & HD & _).
  - reflexivity.
  - reflexivity.
  - reflexivity.
  - reflexivity.
  - vm_compute. reflexivity.
  - repeat split; assumption.
Defined.

(** C6, as stated, fails: lambda is not always the rounding of the
    working value.  With K = 41943044 over denominator 1 the working
    value K/5 is the binary32 number 8388609 (the quotient 8388608.8
    rounded to 24 bits); it is not below 3, so nothing is doubled;
    8388609 + 0.5 is not a binary32 number and is rounded to its even
    neighbour, so lambda is 8388610, one more than the rounding of the
    working value and of the exact quotient.  No int overflows in this
    run. *)
Lemma lambda_is_not_the_rounding :
  F32.div (F32.of_int 41943044) five = S754_finite false 8388609 0 /\
  F32.ltb (S754_finite false 8388609 0) three = false /\
  rounding (S754_finite false 8388609 0) = 8388609 /\
  Qfloor ((41943044 # 5) + (1 # 2)) = 8388609 /\
  lambda_of_K (F32.of_int 41943044) = Ok (8388610, 1) /\
  8388610 <> rounding (S754_finite false 8388609 0) /\
  exists run,
    main cmd_k_odd env_demo = Ok run /\
    lambda_end run = 8388610 /\ denomLambda_end run = 1 /\
    lambda2 (params_end run) = 8388610 /\ K (params_end run) = 41943044 /\
    denominator (params_end run) = 1.
Proof.
  split; [vm_compute; reflexivity |].
  split; [vm_compute; reflexivity |].
  split; [vm_compute; reflexivity |].
  split; [vm_compute; reflexivity |].
  split; [vm_compute; reflexivity |].
  split; [vm_compute; discriminate |].
  eexists. split; [vm_compute; reflexivity |].
  repeat split.
Qed.

(** C6, amended.  With lambda not given and an automatic K estimate of
    40 over denominator 1, the working value 40/5 is 8, which is not
    below 3: no doubling takes place and [fix_parameters] resolves
    lambda = 8 with denominator 1.  In general, for a working value K/5
    that is a positive binary32 number below 2^31 and needs at most 30
    doublings: the value is doubled exactly, together with the counter
    that starts at 1, as many times as it takes to be 3 or more and no
    more; and lambda is [int(K' + 0.5f)] for the value K' so reached,
    which is the rounding of K' to the nearest integer, halves upwards,
    except that an odd integer K' from 2^23 to 2^24 gives K' + 1. *)
Theorem auto_lambda_scenario (m : Match) (p : Parameters) (lambda : Z) :
  lambda < 0 -> K p <= 0 -> denominator p = 1 -> INT_MIN <= K p ->
  INT_MIN <= lambda1 p <= INT_MAX -> INT_MIN <= lambda2 p <= INT_MAX ->
  K_estimate m p = F32.of_int 40 ->
  F32.div (F32.of_int 40) five = F32.of_int 8 /\
  doubling doubling_rounds (F32.of_int 8) 1 = Ok (F32.of_int 8, 1) /\
  (exists m' p', fix_parameters m p lambda = Ok (m', p', 8, 1)) /\
  (forall (Kf : F32.float) (w : positive) (e : Z),
     F32.div Kf five = S754_finite false w e ->
     bounded F32.prec F32.emax w e = true ->
     (doublings w e <= 30)%nat -> e <= 7 ->
     let n := doublings w e in
     let K' := S754_finite false w (e + Z.of_nat n) in
     doubled n (F32.div Kf five) = K' /\
     F32.ltb K' three = false /\
     (forall i : nat, (i < n)%nat ->
        F32.ltb (doubled i (F32.div Kf five)) three = true) /\
     lambda_of_K Kf =
       Ok (rounding K' + (if (e + Z.of_nat n =? 0) && Z.odd (Z.pos w)
                          then 1 else 0),
           2 ^ Z.of_nat n)).
Proof.
  intros Hneg HK HD HKmin H1 H2 Hest.
  split; [vm_compute; reflexivity |].
  split; [vm_compute; reflexivity |].
  split.
  - assert (reaches 0 (working_K m p) 8) as R.
    { unfold working_K. apply Z.leb_le in HK. rewrite HK, Hest.
      split; [lia |]. split; [vm_compute; reflexivity |].
      split; [intros i Hi; lia | vm_compute; reflexivity]. }
    destruct (fix_parameters_derived m p lambda 0 8) as [E _];
      try assumption; rewrite ?HD; change (2 ^ Z.of_nat 0) with 1;
      try (unfold INT_MIN, INT_MAX in *; lia).
    rewrite E, HD.
    rewrite finalized_denominator_one
      by (unfold scaled; cbn -[Z.mul]; rewrite HD; reflexivity).
    eauto.
  - intros Kf w e Hw Hb Hn He.
    exact (lambda_of_K_normal Kf w e Hw Hb Hn He).
Qed.

Lemma auto_lambda_scenario_witness :
  (exists m' p',
     fix_parameters solver_demo (default_params cmd_lambda2) (-1) =
     Ok (m', p', 8, 1)) /\
  lambda_of_K (F32.div (F32.of_int 9) (F32.of_int 2)) = Ok (4, 4).
Proof.
  pose proof (auto_lambda_scenario solver_demo (default_params cmd_lambda2)
                (-1) eq_refl ltac:(vm_compute; discriminate) eq_refl
                ltac:(vm_compute; discriminate)
                ltac:(vm_compute; split; discriminate)
                ltac:(vm_compute; split; discriminate) eq_refl)
    as (_ & _ & H3 & H4).
  split; [exact H3 |].
  destruct (H4 (F32.div (F32.of_int 9) (F32.of_int 2)) 15099494%positive
              (-24)) as (_ & _ & _ & L).
  - vm_compute. reflexivity.
  - vm_compute. reflexivity.
  - vm_compute. lia.
  - lia.
  - exact L.
Defined.

(** C7, as stated, fails: two command lines that pass every check of
    [main], on which [fix_parameters] does not return valid integers.
    With lambda = 500000000 the default K = 5*lambda is not an int (kept
    in two's complement it is negative); with K = 1/2000000000 the working
    value is still below 3 after 34 doublings and the counter leaves the
    int range at the 31st (kept in two's complement it ends as 0, and so
    does the denominator). *)
Lemma normalization_can_overflow :
  (exists lambda p,
     main_coefficients cmd_big 0 (default_params cmd_big) = Ok (lambda, p) /\
     K p < 0 /\ INT_MAX < 5 * lambda /\ wrap32 (5 * lambda) < 0 /\
     fix_parameters solver_demo p lambda = Undef) /\
  main cmd_big env_demo = Undef /\
  (exists lambda p,
     main_coefficients cmd_tiny 0 (default_params cmd_tiny) = Ok (lambda, p) /\
     lambda < 0 /\ 0 < K p /\
     (forall i : nat, (i < 35)%nat ->
        F32.ltb (doubled i (F32.div (working_K solver_demo p) five)) three
        = true) /\
     INT_MAX < 2 ^ 31 /\ wrap32 (2 ^ 35) = 0 /\
     fix_parameters solver_demo p lambda = Undef) /\
  main cmd_tiny env_demo = Undef.
Proof.
  split.
  { exists 500000000, (mkParameters L2 1 8 (-1) (-1) (-1) 4 false).
    split; [vm_compute; reflexivity |].
    split; [vm_compute; reflexivity |].
    split; [vm_compute; reflexivity |].
    split; vm_compute; reflexivity. }
  split; [vm_compute; reflexivity |].
  split.
  { exists (-2000000000),
      (mkParameters L2 2000000000 8 (-2000000000) (-2000000000) 1 4 false).
    split; [vm_compute; reflexivity |].
    split; [vm_compute; reflexivity |].
    split; [vm_compute; reflexivity |].
    split.
    { intros i Hi.
      do 35 (destruct i as [| i]; [vm_compute; reflexivity |]). lia. }
    split; [vm_compute; reflexivity |].
    split; vm_compute; reflexivity. }
  vm_compute; reflexivity.
Qed.

(** C7, amended.  The recursion of gcd reaches its base case on all
    operands, and the doubling loop stops within 30 doublings or else
    overflows its int counter at the 31st.  [fix_parameters] returns valid
    integers (K, lambda1, lambda2 >= 0, denominator >= 1, gcd 1,
    lambda >= 0 over a denominator >= 1) whenever every int it forms fits
    in 32 bits: for a given lambda, 5*lambda and the bundle; for a derived
    lambda, a working value that gets to 3 after n <= 30 doublings, the
    bundle times the counter 2^n, and 5 times the rounded lambda times the
    old denominator. *)
Theorem normalization_returns (m : Match) (p : Parameters) (lambda : Z)
  (n : nat) (lam : Z) :
  1 <= denominator p ->
  (if lambda <? 0 then
     reaches n (working_K m p) lam /\
     5 * (lam * denominator p) <= INT_MAX /\
     INT_MIN <= K p * 2 ^ Z.of_nat n <= INT_MAX /\
     INT_MIN <= lambda1 p * 2 ^ Z.of_nat n <= INT_MAX /\
     INT_MIN <= lambda2 p * 2 ^ Z.of_nat n <= INT_MAX /\
     denominator p * 2 ^ Z.of_nat n <= INT_MAX
   else
     5 * lambda <= INT_MAX /\ denominator p <= INT_MAX /\
     K p <= INT_MAX /\ lambda1 p <= INT_MAX /\ lambda2 p <= INT_MAX) ->
  (exists r, fix_parameters m p lambda = Ok r /\ valid r) /\
  (forall k Kf,
     doubling (doubling_rounds + k) Kf 1 = doubling doubling_rounds Kf 1) /\
  (forall a b, Euclid a b (gcd a b)).
Proof.
  intros HD H.
  split; [| split; [intros; apply doubling_fuel | apply gcd_adequate]].
  destruct (Z.ltb_spec lambda 0) as [Hneg | Hpos].
  - destruct H as (R & H5 & HK & H1 & H2 & HDn).
    eexists. now apply (fix_parameters_derived m p lambda n lam).
  - destruct H as (H5 & HDm & HK & H1 & H2).
    eexists. apply fix_parameters_given; try assumption. lia.
Qed.

Lemma normalization_returns_witness :
  (exists r, fix_parameters solver_demo params_k (-2) = Ok r /\ valid r) /\
  (exists r, fix_parameters solver_demo params_demo 3 = Ok r /\ valid r).
Proof.
  split.
  - apply (normalization_returns solver_demo params_k (-2) 2 4).
    + vm_compute. discriminate.
    + change (-2 <? 0) with true. cbv beta iota.
      split.
      { split; [lia |]. split; [vm_compute; reflexivity |].
        split; [| vm_compute; reflexivity].
        intros [| [| i]] Hi; [vm_compute; reflexivity .. | lia]. }
      vm_compute. repeat split; discriminate.
  - apply (normalization_returns solver_demo params_demo 3 0 0).
    + vm_compute. discriminate.
    + vm_compute. repeat split; discriminate.
Defined.

(** The expansion moves never run in the reporting mode and run exactly
    once in the computing mode. *)
Lemma expansions_by_mode (cmd : CmdLine) (env : Env) (run : Run) :
  main cmd env = Ok run ->
  (argc cmd = 5 -> sDisp cmd = "" ->
     expansions (solver run) = 0%nat /\ cout run <> []) /\
  (argc cmd > 5 \/ sDisp cmd <> "" ->
     expansions (solver run) = 1%nat /\ cout run = []).
Proof.
  intros H. apply main_handoff in H.
  destruct H as (p0 & lambda & p & lo & hi & _ & _ & _ & _ & Hcalls & Hout).
  assert (List.length (filter is_KZ2
            (([CallSetDispRange lo hi] ++ provisional p lambda)
             ++ [CallSetParameters (params_end run)])) = 0%nat) as Hpre.
  { unfold provisional.
    destruct ((lambda <? 0) && (K p <=? 0)); reflexivity. }
  change (CallSetParameters (params_end run) :: finish_calls cmd)
    with ([CallSetParameters (params_end run)] ++ finish_calls cmd) in Hcalls.
  rewrite app_assoc in Hcalls.
  apply expansions_app in Hcalls. rewrite Hpre in Hcalls.
  unfold finish_calls in Hcalls.
  split.
  - intros A E. apply empty_iff in E.
    rewrite A, E in Hcalls, Hout. simpl in Hcalls, Hout.
    split; [assumption |]. rewrite Hout. discriminate.
  - intros [A | E].
    + assert ((argc cmd >? 5) = true) as G by (apply Z.gtb_lt; lia).
      rewrite G in Hcalls, Hout. simpl in Hcalls, Hout.
      split; [| assumption].
      rewrite Hcalls. destruct (negb (empty (sDisp cmd))); reflexivity.
    + assert (empty (sDisp cmd) = false) as G.
      { apply not_true_iff_false. now rewrite empty_iff. }
      rewrite G, orb_true_r in Hcalls, Hout. simpl in Hcalls, Hout.
      split; [| assumption].
      rewrite Hcalls. destruct (argc cmd >? 5); reflexivity.
Qed.

(** C8.  The code does not print the resolved lambda.  On
    [kz2 -l 3/4 --lambda1 AUTO --lambda2 1/6 -k 9/2 l.png r.png 0 9],
    a run with 4 positional arguments and no output flag, the expansion
    moves are not run and K is printed with its denominator, [K=54/12],
    as the solver was given it; but the line for lambda reads
    [lambda=9], where the lambda given, and resolved, is 3/4.  Having
    divided the bundle by its gcd 4, [fix_parameters] takes that gcd for
    the denominator of lambda, so what is printed is lambda multiplied
    by the final denominator 12. *)
Lemma report_prints_scaled_lambda :
  exists run,
    main cmd_mixed env_demo = Ok run /\
    argc cmd_mixed = 5 /\ sDisp cmd_mixed = "" /\
    expansions (solver run) = 0%nat /\
    decodes (slambda cmd_mixed) 3 4 /\
    handed (solver run) = Some (mkParameters L2 12 8 27 2 54 4 false) /\
    cout run = [Text "K="; Int 54; Text "/"; Int 12; Endl;
                Text "lambda="; Int 9; Endl] /\
    ~ (value 9 1 == value 3 4)%Q /\
    (value 9 1 == value (3 * 12) 4)%Q.
Proof.
  eexists. split; [vm_compute; reflexivity |].
  split; [reflexivity |]. split; [reflexivity |].
  split; [vm_compute; reflexivity |].
  split; [intros n0 d0; vm_compute; reflexivity |].
  split; [vm_compute; reflexivity |].
  split; [vm_compute; reflexivity |].
  split; vm_compute; [discriminate | reflexivity].
Qed.



(** C10. Every rescaling multiplies the five integers by positive factors
    (a decoded denominator, at least 1, or the shared denominator, which
    stays at least 1), so signs are kept: through any sequence of
    rescalings a coefficient is negative afterwards exactly when it was
    before and the shared denominator stays positive; and after the
    coefficient blocks of [main] the [< 0] tests of [fix_parameters] find
    exactly the coefficients left unset, the given ones being
    non-negative. *)
Theorem rescaling_keeps_signs :
  (forall (ops : list (field * Z)) (lambda : Z) (params : Parameters)
          (lambda' : Z) (params' : Parameters),
     Forall (fun op => 1 <= snd op) ops ->
     1 <= denominator params ->
     rescale_all ops lambda params = Ok (lambda', params') ->
     (forall f,
        (numerator f lambda params < 0 -> numerator f lambda' params' < 0) /\
        (0 <= numerator f lambda params -> 0 <= numerator f lambda' params'))
     /\ 1 <= denominator params') /\
  (forall (cmd : CmdLine) (junk lambda : Z) (params : Parameters),
     main_coefficients cmd junk (default_params cmd) = Ok (lambda, params) ->
     1 <= denominator params /\
     (lambda <? 0) = unset (slambda cmd) /\
     (lambda1 params <? 0) = unset (slambda1 cmd) /\
     (lambda2 params <? 0) = unset (slambda2 cmd) /\
     (K params <? 0) = unset (sK cmd)).
Proof.
  split.
  - intros ops lambda params lambda' params' Hops HD H.
    destruct (rescale_all_signs _ _ _ _ _ Hops HD H) as [Hs HD'].
    split; [| assumption].
    intros f. specialize (Hs f). split; lia.
  - intros cmd junk lambda params H.
    now apply main_coefficients_signs in H.
Qed.

Lemma rescaling_keeps_signs_witness :
  (K (mkParameters L2 24 8 (-24) 20 (-24) 4 false) < 0 /\
   1 <= denominator (mkParameters L2 24 8 (-24) 20 (-24) 4 false)) /\
  (lambda1 (mkParameters L2 48 8 (-48) 8 216 4 false) <? 0) =
    unset (slambda1 cmd_mixed).
Proof.
  split.
  - destruct (proj1 rescaling_keeps_signs [(Lambda1, 1); (Lambda2, 6)] 3
                (mkParameters L2 4 8 (-1) 5 (-4) 4 false) 18
                (mkParameters L2 24 8 (-24) 20 (-24) 4 false))
      as (Hs & HD).
    + repeat constructor; simpl; lia.
    + simpl; lia.
    + vm_compute. reflexivity.
    + split; [| exact HD].
      apply (proj1 (Hs FieldK)). simpl. lia.
  - apply (proj2 rescaling_keeps_signs cmd_mixed 0 36
             (mkParameters L2 48 8 (-48) 8 216 4 false)).
    vm_compute. reflexivity.
Defined.

(** * Further properties of the code *)

(** ** gcd on operands of either sign *)

Lemma Euclid_abs (a b : Z) (r : result Z) :
  Euclid a b r -> forall g, r = Ok g -> Z.abs g = Z.gcd a b.
Proof.
  induction 1 as [a | a b Hb E | a b r g Hb E HE IH]; intros v Hv.
  - injection Hv as <-. now rewrite Z.gcd_0_r.
  - discriminate.
  - destruct (irem_cases a b) as [U | U]; rewrite U in E; [discriminate |].
    injection E as <-.
    rewrite (IH v Hv), Z.gcd_comm, Z.gcd_rem by assumption.
    apply Z.gcd_comm.
Qed.

Lemma rem_above_INT_MIN (a b : Z) :
  b <> 0 -> INT_MIN < a -> INT_MIN < Z.rem a b.
Proof.
  intros Hb Ha. destruct (Z.le_gt_cases 0 a) as [Hpos | Hneg].
  - pose proof (Z.rem_nonneg a b Hb Hpos). unfold INT_MIN in *. lia.
  - pose proof (Z.rem_opp_l a b Hb) as Ho.
    pose proof (Z.rem_nonneg (- a) b Hb ltac:(lia)) as H0.
    pose proof (Z.rem_abs (- a) b Hb) as HA.
    pose proof (Z.rem_bound_abs (- a) b Hb) as HB.
    assert (Z.abs (Z.rem (- a) b) <= Z.abs (- a)).
    { rewrite <- HA.
      destruct (Z.le_gt_cases (Z.abs (- a)) (Z.abs b)) as [Hs | Hs].
      - destruct (Z.eq_dec (Z.abs (- a)) (Z.abs b)) as [-> | Hne].
        + rewrite Z.rem_same by lia. lia.
        + rewrite Z.rem_small by lia. lia.
      - apply Z.rem_le; lia. }
    lia.
Qed.

Lemma Euclid_above_INT_MIN (a b : Z) (r : result Z) :
  Euclid a b r -> INT_MIN < a -> INT_MIN < b -> exists g, r = Ok g.
Proof.
  induction 1 as [a | a b Hb E | a b r g Hb E HE IH]; intros Ha Hb0.
  - eauto.
  - unfold irem in E. destruct (Z.eqb_spec a INT_MIN); [lia |].
    discriminate.
  - destruct (irem_cases a b) as [U | U]; rewrite U in E; [discriminate |].
    injection E as <-.
    apply IH; [assumption | now apply rem_above_INT_MIN].
Qed.

(** X1. On operands above INT_MIN, [gcd] returns: its result is, up to
    sign, the greatest common divisor of the operands, and on
    non-negative operands it is the greatest common divisor itself. *)
Theorem gcd_is_gcd (a b : Z) :
  INT_MIN < a -> INT_MIN < b ->
  exists g, gcd a b = Ok g /\ Z.abs g = Z.gcd a b /\
            (0 <= a -> 0 <= b -> g = Z.gcd a b).
Proof.
  intros Ha Hb. pose proof (gcd_adequate a b) as E.
  destruct (Euclid_above_INT_MIN _ _ _ E Ha Hb) as [g Hg].
  exists g. split; [assumption |].
  split; [eapply Euclid_abs; eassumption |].
  intros Ha0 Hb0. rewrite gcd_nonneg in Hg by assumption.
  now injection Hg.
Qed.

Lemma gcd_is_gcd_witness :
  exists g, gcd (-84) 36 = Ok g /\ Z.abs g = Z.gcd (-84) 36 /\
            (0 <= -84 -> 0 <= 36 -> g = Z.gcd (-84) 36).
Proof.
  apply (gcd_is_gcd (-84) 36); vm_compute; reflexivity.
Defined.

(** ** What a rescaling does to its target, and sequences of rescalings *)

(** X2. A rescaling by a positive new denominator, on a bundle whose
    denominator is positive, turns the integer held for its target into
    that integer over the new denominator: the helper named
    [setLambda1] sets lambda1 to the value lambda1/denom, and so on; the
    shared denominator is multiplied by the new one. *)
Theorem rescale_sets_target (target : field) (lambda denom : Z)
  (params : Parameters) (lambda' : Z) (params' : Parameters) :
  1 <= denominator params -> 1 <= denom ->
  rescale target lambda denom params = Ok (lambda', params') ->
  denominator params' = denominator params * denom /\
  (value (numerator target lambda' params') (denominator params') ==
   value (numerator target lambda params) denom)%Q.
Proof.
  intros HD Hd H. apply rescale_Ok in H. destruct H as (Hn & HD' & _).
  split; [assumption |].
  specialize (Hn target).
  assert (field_eqb target target = true) as E by now destruct target.
  rewrite E in Hn.
  unfold value, Qeq. simpl.
  rewrite !Z2Pos.id by nia. rewrite Hn, HD'. ring.
Qed.

Lemma rescale_sets_target_witness :
  denominator (mkParameters L2 24 8 (-24) 20 (-24) 4 false) =
    denominator params_demo * 6 /\
  (value (numerator Lambda2 18 (mkParameters L2 24 8 (-24) 20 (-24) 4 false))
         (denominator (mkParameters L2 24 8 (-24) 20 (-24) 4 false))
   == value (numerator Lambda2 3 params_demo) 6)%Q.
Proof.
  apply (rescale_sets_target Lambda2 3 6 params_demo 18
           (mkParameters L2 24 8 (-24) 20 (-24) 4 false)).
  - vm_compute. discriminate.
  - vm_compute. discriminate.
  - vm_compute. reflexivity.
Defined.

Lemma rescale_all_Ok (ops : list (field * Z)) :
  forall (lambda : Z) (params : Parameters) (lambda' : Z)
         (params' : Parameters),
  rescale_all ops lambda params = Ok (lambda', params') ->
  denominator params' = denominator params * denominators ops /\
  (forall f, ~ In f (targets ops) ->
     numerator f lambda' params' = numerator f lambda params * denominators ops).
Proof.
  induction ops as [| [target denom] ops IH];
    intros lambda params lambda' params' H; simpl in H.
  - injection H as <- <-. unfold denominators. simpl.
    split; [ring | intros; ring].
  - bind_inv H. destruct a as [lam1 p1].
    apply rescale_Ok in E. destruct E as (Hn & HD & _).
    apply IH in H. destruct H as (HD' & Hn').
    change (denominators ((target, denom) :: ops))
      with (denom * denominators ops).
    split; [rewrite HD', HD; ring |].
    intros f Hf. simpl in Hf.
    rewrite Hn' by tauto. rewrite Hn.
    assert (field_eqb f target = false) as ->
      by (destruct f, target; try reflexivity; exfalso; apply Hf; auto).
    ring.
Qed.

(** X3. Along any sequence of rescalings that returns, the shared
    denominator is multiplied by the product of the new denominators, and
    so is every coefficient that no step targets; with positive
    denominators, such a coefficient has the value it had before. *)
Theorem rescale_all_untargeted (ops : list (field * Z)) (f : field)
  (lambda : Z) (params : Parameters) (lambda' : Z) (params' : Parameters) :
  Forall (fun op => 1 <= snd op) ops ->
  1 <= denominator params ->
  ~ In f (targets ops) ->
  rescale_all ops lambda params = Ok (lambda', params') ->
  denominator params' = denominator params * denominators ops /\
  numerator f lambda' params' = numerator f lambda params * denominators ops /\
  (value (numerator f lambda' params') (denominator params') ==
   value (numerator f lambda params) (denominator params))%Q.
Proof.
  intros Hops HD Hf H.
  destruct (rescale_all_signs _ _ _ _ _ Hops HD H) as [_ HD'].
  apply rescale_all_Ok in H. destruct H as (HDe & Hn).
  specialize (Hn f Hf).
  split; [assumption |]. split; [assumption |].
  unfold value, Qeq. simpl.
  rewrite !Z2Pos.id by lia. rewrite Hn, HDe. ring.
Qed.

Lemma rescale_all_untargeted_witness :
  denominator (mkParameters L2 24 8 (-24) 20 (-24) 4 false) =
    4 * denominators [(Lambda1, 1); (Lambda2, 6)] /\
  K (mkParameters L2 24 8 (-24) 20 (-24) 4 false) =
    -4 * denominators [(Lambda1, 1); (Lambda2, 6)] /\
  (value (K (mkParameters L2 24 8 (-24) 20 (-24) 4 false)) 24
   == value (-4) 4)%Q.
Proof.
  apply (rescale_all_untargeted [(Lambda1, 1); (Lambda2, 6)] FieldK 3
           (mkParameters L2 4 8 (-1) 5 (-4) 4 false) 18
           (mkParameters L2 24 8 (-24) 20 (-24) 4 false)).
  - repeat constructor; simpl; lia.
  - simpl. lia.
  - simpl. intros [H | [H | H]]; try discriminate. exact H.
  - vm_compute. reflexivity.
Defined.

(** ** White space in front of a fraction *)

Lemma isspace_not_A (c : ascii) : isspace c = true -> Ascii.eqb c "A" = false.
Proof.
  intros H. destruct (Ascii.eqb_spec c "A") as [-> | ?]; [| reflexivity].
  vm_compute in H. discriminate.
Qed.

Lemma scan_d_blank (c : ascii) (s : string) :
  isspace c = true -> scan_d (String c s) = scan_d s.
Proof. intros H. unfold scan_d. cbn [skip_space]. now rewrite H. Qed.

(** X4. White space in front of a fraction is skipped: [GetFraction]
    decodes a text that is not AUTO the same with a blank in front.  The
    word AUTO itself is compared exactly: with a blank in front it is not
    recognised, nothing is read, and the verdict is taken on what the
    variables held. *)
Theorem GetFraction_skips_blanks (c : ascii) (s : string) (n0 d0 : Z) :
  isspace c = true ->
  (String.eqb s "AUTO" = false ->
   GetFraction (String c s) n0 d0 = GetFraction s n0 d0) /\
  GetFraction (String c "AUTO") n0 d0 =
    Ok ((0 <=? n0) && (1 <=? d0), n0, d0).
Proof.
  intros Hc.
  assert (forall t, String.eqb (String c t) "AUTO" = false) as HA
    by (intros t; cbn [String.eqb]; now rewrite isspace_not_A).
  split.
  - intros Hs. unfold GetFraction, sscanf_d_slash_d, sscanf_d.
    rewrite HA, Hs, scan_d_blank by assumption. reflexivity.
  - unfold GetFraction, sscanf_d_slash_d, sscanf_d.
    rewrite HA, scan_d_blank by assumption. reflexivity.
Qed.

Lemma GetFraction_skips_blanks_witness :
  GetFraction " 3/4" (-1) 0 = GetFraction "3/4" (-1) 0 /\
  GetFraction " AUTO" (-1) 0 = Ok (false, -1, 0).
Proof.
  destruct (GetFraction_skips_blanks " " "3/4" (-1) 0) as [H1 _];
    [reflexivity |].
  destruct (GetFraction_skips_blanks " " "" (-1) 0) as [_ H2];
    [reflexivity |].
  split; [apply H1; reflexivity | exact H2].
Defined.

(** ** The values held after the coefficient blocks of main *)

Lemma block_cases (target : field) (s : string) (junk lambda : Z)
  (p : Parameters) (lam' : Z) (p' : Parameters) :
  block target s junk lambda p = Ok (lam', p') ->
  (empty s = true /\ lam' = lambda /\ p' = p) \/
  (empty s = false /\
   exists n d,
     GetFraction s (numerator target lambda p) junk = Ok (true, n, d) /\
     1 <= d /\ denominator p' = denominator p * d /\
     forall f, numerator f lam' p' =
               if field_eqb f target then n * denominator p
               else numerator f lambda p * d).
Proof.
  intros H. apply block_Ok in H.
  destruct H as [H | (E & n & d & G & R)]; [left; exact H | right].
  split; [assumption |]. exists n, d. split; [assumption |].
  split; [apply GetFraction_true in G; lia |].
  apply rescale_Ok in R. destruct R as (Hn & HD & _).
  rewrite store_denominator in Hn, HD.
  split; [assumption |].
  intros f. rewrite Hn, store_numerator.
  destruct (field_eqb f target); reflexivity.
Qed.

Lemma not_decodes_empty (n d : Z) : ~ decodes "" n d.
Proof. intros H. specialize (H (-1) 0). discriminate. Qed.

(** The block of a coefficient that still holds the mark settles it. *)
Lemma block_settles (target : field) (s : string) (junk lambda : Z)
  (p : Parameters) (lam' : Z) (p' : Parameters) :
  numerator target lambda p = - denominator p ->
  block target s junk lambda p = Ok (lam', p') ->
  settled s (numerator target lam' p') (denominator p').
Proof.
  intros Hx H. apply block_cases in H.
  destruct H as [(E & -> & ->) | (E & n & d & G & Hd & HD & Hn)].
  - split; [intros _; assumption |].
    intros n d Hs. apply empty_iff in E. subst s.
    now destruct (not_decodes_empty n d).
  - specialize (Hn target).
    assert (field_eqb target target = true) as T by now destruct target.
    rewrite T in Hn. split.
    + unfold unset. rewrite E. simpl. intros A.
      apply String.eqb_eq in A. subst s.
      rewrite GetFraction_AUTO in G. injection G as <- <-. lia.
    + intros n1 d1 Hs. rewrite Hs in G. injection G as <- <-.
      rewrite Hn, HD. ring.
Qed.

(** The block of another coefficient keeps the mark, and keeps what was
    settled. *)
Lemma block_keeps (target f : field) (s : string) (junk lambda : Z)
  (p : Parameters) (lam' : Z) (p' : Parameters) :
  field_eqb f target = false ->
  block target s junk lambda p = Ok (lam', p') ->
  (numerator f lambda p = - denominator p ->
   numerator f lam' p' = - denominator p') /\
  (forall t, settled t (numerator f lambda p) (denominator p) ->
             settled t (numerator f lam' p') (denominator p')).
Proof.
  intros Hf H. apply block_cases in H.
  destruct H as [(E & -> & ->) | (E & n & d & G & Hd & HD & Hn)];
    [split; auto |].
  specialize (Hn f). rewrite Hf in Hn. rewrite Hn, HD.
  split; [intros ->; ring |].
  intros t [U V]. split.
  - intros Ht. rewrite (U Ht). ring.
  - intros n1 d1 Ht. specialize (V n1 d1 Ht). nia.
Qed.

Lemma main_coefficients_values (cmd : CmdLine) (junk : Z) (p0 : Parameters)
  (lambda : Z) (p : Parameters) :
  initial p0 ->
  main_coefficients cmd junk p0 = Ok (lambda, p) ->
  forall f, settled (coefficient_text f cmd) (numerator f lambda p)
                    (denominator p).
Proof.
  intros (I0 & I1 & I2 & I3) H. apply main_coefficients_Ok in H.
  destruct H as (l1 & p1 & l2 & p2 & l3 & p3 & B0 & B1 & B2 & B3).
  intros [].
  - apply (block_keeps FieldK Lambda _ _ _ _ _ _ eq_refl B3).
    apply (block_keeps Lambda2 Lambda _ _ _ _ _ _ eq_refl B2).
    apply (block_keeps Lambda1 Lambda _ _ _ _ _ _ eq_refl B1).
    apply (block_settles Lambda _ _ _ _ _ _) with (2 := B0).
    simpl. lia.
  - apply (block_keeps FieldK Lambda1 _ _ _ _ _ _ eq_refl B3).
    apply (block_keeps Lambda2 Lambda1 _ _ _ _ _ _ eq_refl B2).
    apply (block_settles Lambda1 _ _ _ _ _ _) with (2 := B1).
    apply (block_keeps Lambda Lambda1 _ _ _ _ _ _ eq_refl B0).
    simpl. lia.
  - apply (block_keeps FieldK Lambda2 _ _ _ _ _ _ eq_refl B3).
    apply (block_settles Lambda2 _ _ _ _ _ _) with (2 := B2).
    apply (block_keeps Lambda1 Lambda2 _ _ _ _ _ _ eq_refl B1).
    apply (block_keeps Lambda Lambda2 _ _ _ _ _ _ eq_refl B0).
    simpl. lia.
  - apply (block_settles FieldK _ _ _ _ _ _) with (2 := B3).
    apply (block_keeps Lambda2 FieldK _ _ _ _ _ _ eq_refl B2).
    apply (block_keeps Lambda1 FieldK _ _ _ _ _ _ eq_refl B1).
    apply (block_keeps Lambda FieldK _ _ _ _ _ _ eq_refl B0).
    simpl. lia.
Qed.

Lemma decodes_denominator (s : string) (n d : Z) : decodes s n d -> 1 <= d.
Proof.
  intros H. specialize (H 0 0). apply GetFraction_true in H. lia.
Qed.

(** X5. After the four coefficient blocks of [main], whatever mix of
    given, AUTO and absent options: a coefficient that is absent or AUTO
    holds minus the shared denominator, the value -1 that
    [fix_parameters] tests for; a coefficient whose text decodes as n/d
    holds the value n/d over the shared denominator. *)
Theorem blocks_hold_given_values (cmd : CmdLine) (junk : Z) (p0 : Parameters)
  (lambda : Z) (p : Parameters) (f : field) :
  initial p0 ->
  main_coefficients cmd junk p0 = Ok (lambda, p) ->
  1 <= denominator p /\
  (unset (coefficient_text f cmd) = true ->
   numerator f lambda p = - denominator p) /\
  (forall n d, decodes (coefficient_text f cmd) n d ->
     (value (numerator f lambda p) (denominator p) == value n d)%Q).
Proof.
  intros I H.
  assert (1 <= denominator p) as HD.
  { eapply main_coefficients_denominator; [| eassumption].
    destruct I as [-> _]. lia. }
  destruct (main_coefficients_values _ _ _ _ _ I H f) as [U V].
  split; [assumption |]. split; [assumption |].
  intros n d Hs. pose proof (decodes_denominator _ _ _ Hs).
  unfold value, Qeq. simpl. rewrite !Z2Pos.id by lia. now apply V.
Qed.

Lemma blocks_hold_given_values_witness :
  1 <= denominator (mkParameters L2 48 8 (-48) 8 216 4 false) /\
  (unset (coefficient_text Lambda1 cmd_mixed) = true ->
   numerator Lambda1 36 (mkParameters L2 48 8 (-48) 8 216 4 false) =
   - denominator (mkParameters L2 48 8 (-48) 8 216 4 false)) /\
  (forall n d, decodes (coefficient_text Lambda1 cmd_mixed) n d ->
     (value (numerator Lambda1 36 (mkParameters L2 48 8 (-48) 8 216 4 false))
            (denominator (mkParameters L2 48 8 (-48) 8 216 4 false))
      == value n d)%Q).
Proof.
  apply (blocks_hold_given_values cmd_mixed 0 (default_params cmd_mixed) 36
           (mkParameters L2 48 8 (-48) 8 216 4 false) Lambda1).
  - vm_compute. repeat split; reflexivity.
  - vm_compute. reflexivity.
Defined.

(** ** Everything fix_parameters returns *)

Lemma reduce_lambda_Ok (lambda denomLambda lam' dl : Z) :
  0 <= lambda -> 1 <= denomLambda ->
  reduce_lambda lambda denomLambda = Ok (lam', dl) ->
  lam' * denomLambda = lambda * dl /\ Z.gcd lam' dl = 1 /\
  0 <= lam' /\ 1 <= dl.
Proof.
  intros Hl Hd H. unfold reduce_lambda in H.
  rewrite gcd_nonneg in H by lia. cbn [bind] in H.
  set (g := Z.gcd lambda denomLambda) in *.
  assert (0 <= g) as Hg0 by apply Z.gcd_nonneg.
  assert (g <> 0) as Hg
    by (intros E; apply Z.gcd_eq_0_r in E; lia).
  destruct (Z.gtb_spec g 1) as [Hgt | Hle].
  - bind_inv H. bind_inv H. injection H as <- <-.
    apply idiv_Ok in E, E0. destruct E as [-> _]. destruct E0 as [-> _].
    rewrite !Z.quot_div_nonneg by lia.
    destruct (Z.gcd_divide_l lambda denomLambda) as [q Hq].
    destruct (Z.gcd_divide_r lambda denomLambda) as [r Hr].
    fold g in Hq, Hr.
    pose proof (Z.gcd_div_gcd lambda denomLambda g Hg eq_refl) as G.
    assert (lambda / g = q) as Eq
      by (rewrite Hq at 1; now apply Z.div_mul).
    assert (denomLambda / g = r) as Er
      by (rewrite Hr at 1; now apply Z.div_mul).
    rewrite Eq, Er in *.
    split; [nia |]. split; [assumption |]. split; nia.
  - injection H as <- <-.
    repeat split; try assumption; try ring.
    fold g. lia.
Qed.

Lemma resolve_lambda_estimate (m : Match) (p : Parameters) (lambda : Z)
  (m' : Match) (p' : Parameters) (lam' : Z) :
  resolve_lambda m p lambda = Ok (m', p', lam') ->
  K_estimate m' = K_estimate m.
Proof.
  unfold resolve_lambda. destruct (lambda <? 0).
  - destruct (K p <=? 0); cbn [GetK SetParameters record];
      intros H; bind_inv H; destruct a as [l d];
      bind_inv H; destruct a as [l' q]; injection H as <- _ _; reflexivity.
  - intros H. injection H as <- _ _. reflexivity.
Qed.

(** Whenever [fix_parameters] returns: the factor [c] of the derived
    lambda, the resolved lambda [lamr], the divisor [g] of the bundle and
    the denominator [dl0] that the reporting pair starts from. *)
Lemma fix_parameters_inv (m : Match) (p : Parameters) (lambda : Z)
  (m' : Match) (p' : Parameters) (lam' dl : Z) :
  1 <= denominator p ->
  fix_parameters m p lambda = Ok (m', p', lam', dl) ->
  exists c g lamr dl0,
    1 <= c /\ 1 <= g /\ 0 <= lamr /\
    (0 <= lambda -> c = 1 /\ lamr = lambda) /\
    denominator p * c = g * denominator p' /\ 1 <= denominator p' /\
    (if K p <? 0 then 5 * lamr else K p * c) = g * K p' /\
    (if lambda1 p <? 0 then 3 * lamr else lambda1 p * c) = g * lambda1 p' /\
    (if lambda2 p <? 0 then lamr else lambda2 p * c) = g * lambda2 p' /\
    ((g = 1 /\ dl0 = denominator p * c) \/ (1 < g /\ dl0 = g)) /\
    lam' * dl0 = lamr * dl /\ Z.gcd lam' dl = 1 /\ 0 <= lam' /\ 1 <= dl /\
    K_estimate m' = K_estimate m.
Proof.
  intros HD H. unfold fix_parameters in H.
  bind_inv H. destruct a as [[m1 p1] lam1].
  bind_inv H. rename a into p2.
  bind_inv H. destruct a as [p3 dl3].
  bind_inv H. destruct a as [lam4 dl4]. inversion H; subst; clear H.
  pose proof (resolve_lambda_estimate _ _ _ _ _ _ E) as Hest.
  apply resolve_lambda_Ok in E; [| assumption].
  destruct E as (Hlam & (c & Hc & HK & H1 & H2 & HD1 & Hexp) & _).
  apply fill_defaults_Ok in E0. destruct E0 as (HD2 & HK2 & H12 & H22).
  assert ((K p1 <? 0) = (K p <? 0)) as SK
    by (rewrite HK; destruct (Z.ltb_spec (K p * c) 0),
          (Z.ltb_spec (K p) 0); try reflexivity; nia).
  assert ((lambda1 p1 <? 0) = (lambda1 p <? 0)) as S1
    by (rewrite H1; destruct (Z.ltb_spec (lambda1 p * c) 0),
          (Z.ltb_spec (lambda1 p) 0); try reflexivity; nia).
  assert ((lambda2 p1 <? 0) = (lambda2 p <? 0)) as S2
    by (rewrite H2; destruct (Z.ltb_spec (lambda2 p * c) 0),
          (Z.ltb_spec (lambda2 p) 0); try reflexivity; nia).
  rewrite SK in HK2. rewrite S1 in H12. rewrite S2 in H22.
  assert (0 <= K p2) by (rewrite HK2; destruct (Z.ltb_spec (K p) 0); nia).
  assert (0 <= lambda1 p2)
    by (rewrite H12; destruct (Z.ltb_spec (lambda1 p) 0); nia).
  assert (0 <= lambda2 p2)
    by (rewrite H22; destruct (Z.ltb_spec (lambda2 p) 0); nia).
  assert (1 <= denominator p2) by nia.
  apply reduce_params_Ok in E1; try assumption.
  pose proof (reduced_spec p2 ltac:(assumption)) as R.
  rewrite <- E1 in R. simpl in R.
  destruct R as (g & Hg & RK & R1 & R2 & RD & _ & Hs & Hs1).
  assert (1 <= denominator p') as HD' by nia.
  assert ((g = 1 /\ dl3 = denominator p * c) \/ (1 < g /\ dl3 = g)) as Hdl.
  { destruct (Z.eq_dec g 1) as [G1 | G1].
    - left. split; [assumption |]. rewrite (Hs1 G1). lia.
    - right. split; [lia |]. destruct Hs; [contradiction | assumption]. }
  assert (1 <= dl3) as Hdl3 by (destruct Hdl as [[_ ->] | [_ ->]]; nia).
  apply reduce_lambda_Ok in E2; try assumption.
  destruct E2 as (L1 & L2 & L3 & L4).
  exists c, g, lam1, dl3.
  split; [assumption |]. split; [assumption |]. split; [assumption |].
  split; [assumption |]. split; [lia |]. split; [assumption |].
  split; [rewrite <- RK, HK2, HK; reflexivity |].
  split; [rewrite <- R1, H12, H1; reflexivity |].
  split; [rewrite <- R2, H22, H2; reflexivity |].
  split; [assumption |]. split; [assumption |]. split; [assumption |].
  split; [assumption |]. split; [assumption |].
  exact Hest.
Qed.

(** ** Given and defaulted coefficients at the handoff *)

(** Ratios survive a common factor [c] and a common divisor [g]. *)
Lemma ratio_kept (g c x x' D D' n d : Z) :
  1 <= g -> x * c = g * x' -> D * c = g * D' -> x * d = n * D ->
  x' * d = n * D'.
Proof.
  intros Hg Hx HD Hv. apply (Z.mul_reg_l _ _ g); [lia |].
  transitivity (x * d * c).
  - rewrite Z.mul_assoc, <- Hx. ring.
  - rewrite Hv. transitivity (n * (D * c)); [ring |]. rewrite HD. ring.
Qed.

(** X6. Whatever else is given, left out or derived: a lambda1, lambda2
    or K given as a fraction n/d reaches the solver with exactly that
    value over the final denominator. *)
Theorem given_coefficient_reaches_solver (cmd : CmdLine) (env : Env)
  (run : Run) (f : field) (n d : Z) :
  f <> Lambda -> decodes (coefficient_text f cmd) n d -> 0 <= n ->
  main cmd env = Ok run ->
  handed (solver run) = Some (params_end run) /\
  (value (numerator f (lambda_end run) (params_end run))
         (denominator (params_end run)) == value n d)%Q.
Proof.
  intros Hf Hs Hn H. apply main_handoff in H.
  destruct H as (p0 & lambda & p & lo & hi & I & HC & HD
                 & (m & m1 & _ & HF) & Hcalls & _).
  split; [eapply handed_last; [exact Hcalls | apply finish_calls_keep] |].
  pose proof (decodes_denominator _ _ _ Hs) as Hd.
  destruct (main_coefficients_values _ _ _ _ _ I HC f) as [_ V].
  specialize (V n d Hs).
  apply fix_parameters_inv in HF; [| assumption].
  destruct HF as (c & g & lamr & dl0 & Hc & Hg & _ & _ & RD & HD' & RK & R1
                  & R2 & _).
  unfold value, Qeq. simpl. rewrite !Z2Pos.id by lia.
  destruct f; [contradiction | | |]; simpl in V |- *.
  - destruct (Z.ltb_spec (lambda1 p) 0); [nia |].
    exact (ratio_kept g c _ _ _ _ n d Hg R1 RD V).
  - destruct (Z.ltb_spec (lambda2 p) 0); [nia |].
    exact (ratio_kept g c _ _ _ _ n d Hg R2 RD V).
  - destruct (Z.ltb_spec (K p) 0); [nia |].
    exact (ratio_kept g c _ _ _ _ n d Hg RK RD V).
Qed.

Lemma given_coefficient_reaches_solver_witness :
  handed (solver (run_or cmd_k env_demo)) =
    Some (params_end (run_or cmd_k env_demo)) /\
  (value (numerator FieldK (lambda_end (run_or cmd_k env_demo))
            (params_end (run_or cmd_k env_demo)))
         (denominator (params_end (run_or cmd_k env_demo)))
   == value 9 2)%Q.
Proof.
  apply (given_coefficient_reaches_solver cmd_k env_demo _ FieldK 9 2).
  - discriminate.
  - intros n0 d0. vm_compute. reflexivity.
  - lia.
  - vm_compute. reflexivity.
Defined.

(** X7. The defaults are relative to lambda.  In the bundle handed to
    the solver, a lambda1 and a lambda2 both left unset satisfy
    lambda1 = 3 * lambda2, and a K and a lambda2 both left unset satisfy
    K = 5 * lambda2, whether lambda was given or derived.  When lambda is
    given as a/b, an unset lambda2 has the value a/b, an unset lambda1
    the value 3a/b and an unset K the value 5a/b. *)
Theorem defaults_follow_lambda (cmd : CmdLine) (env : Env) (run : Run) :
  main cmd env = Ok run ->
  (unset (slambda1 cmd) = true -> unset (slambda2 cmd) = true ->
   lambda1 (params_end run) = 3 * lambda2 (params_end run)) /\
  (unset (sK cmd) = true -> unset (slambda2 cmd) = true ->
   K (params_end run) = 5 * lambda2 (params_end run)) /\
  (forall a b, decodes (slambda cmd) a b -> 0 <= a ->
     (unset (slambda2 cmd) = true ->
      (value (lambda2 (params_end run)) (denominator (params_end run))
       == value a b)%Q) /\
     (unset (slambda1 cmd) = true ->
      (value (lambda1 (params_end run)) (denominator (params_end run))
       == value (3 * a) b)%Q) /\
     (unset (sK cmd) = true ->
      (value (K (params_end run)) (denominator (params_end run))
       == value (5 * a) b)%Q)).
Proof.
  intros H. apply main_handoff in H.
  destruct H as (p0 & lambda & p & lo & hi & I & HC & HD
                 & (m & m1 & _ & HF) & _ & _).
  pose proof (main_coefficients_values _ _ _ _ _ I HC Lambda) as [_ V].
  destruct I as (I0 & I1 & I2 & I3).
  destruct (main_coefficients_signs _ _ _ _ _ I0 I1 I2 I3 HC)
    as (_ & _ & S1 & S2 & SK).
  apply fix_parameters_inv in HF; [| assumption].
  destruct HF as (c & g & lamr & dl0 & Hc & Hg & Hl & Hgiven & RD & HD'
                  & RK & R1 & R2 & _).
  rewrite SK in RK. rewrite S1 in R1. rewrite S2 in R2.
  split; [| split].
  - intros U1 U2. rewrite U1 in R1. rewrite U2 in R2. nia.
  - intros UK U2. rewrite UK in RK. rewrite U2 in R2. nia.
  - intros a b Hs Ha. pose proof (decodes_denominator _ _ _ Hs) as Hb.
    specialize (V a b Hs). simpl in V.
    assert (0 <= lambda) as Hpos by nia.
    destruct (Hgiven Hpos) as [-> ->].
    unfold value, Qeq. simpl. rewrite !Z2Pos.id by lia.
    split; [| split]; intros U.
    + rewrite U in R2.
      apply (ratio_kept g 1 lambda _ (denominator p) _ a b); lia.
    + rewrite U in R1.
      apply (ratio_kept g 1 (3 * lambda) _ (denominator p) _ (3 * a) b); lia.
    + rewrite U in RK.
      apply (ratio_kept g 1 (5 * lambda) _ (denominator p) _ (5 * a) b); lia.
Qed.

Lemma defaults_follow_lambda_witness :
  lambda1 (params_end (run_or cmd_k env_demo)) =
    3 * lambda2 (params_end (run_or cmd_k env_demo)).
Proof.
  destruct (defaults_follow_lambda cmd_k env_demo (run_or cmd_k env_demo))
    as (H & _).
  - vm_compute. reflexivity.
  - apply H; reflexivity.
Defined.

(** ** The pair returned for the display of lambda *)

(** X8. For a given lambda, [fix_parameters] returns the pair
    (lambda, denomLambda) in lowest terms.  When the bundle needed no
    reduction, the pair is lambda over the shared denominator, the value
    of lambda.  When the bundle was divided by its gcd, the pair starts
    from that gcd instead of the shared denominator, so it is the value
    of lambda multiplied by the final denominator. *)
Theorem reported_lambda (m : Match) (p : Parameters) (lambda : Z)
  (m' : Match) (p' : Parameters) (lam' dl : Z) :
  1 <= denominator p -> 0 <= lambda ->
  fix_parameters m p lambda = Ok (m', p', lam', dl) ->
  0 <= lam' /\ 1 <= dl /\ Z.gcd lam' dl = 1 /\
  (denominator p' = denominator p ->
   (value lam' dl == value lambda (denominator p))%Q) /\
  (denominator p' <> denominator p ->
   (value lam' dl == value (lambda * denominator p') (denominator p))%Q).
Proof.
  intros HD Hl H. apply fix_parameters_inv in H; [| assumption].
  destruct H as (c & g & lamr & dl0 & Hc & Hg & _ & Hgiven & RD & HD'
                 & _ & _ & _ & Hdl & L1 & L2 & L3 & L4 & _).
  destruct (Hgiven Hl) as [-> ->].
  split; [assumption |]. split; [assumption |]. split; [assumption |].
  unfold value, Qeq. simpl. rewrite !Z2Pos.id by lia.
  split; intros E.
  - destruct Hdl as [[G ->] | [G ->]]; [lia | nia].
  - destruct Hdl as [[G ->] | [G ->]]; [nia |].
    apply (Z.mul_reg_l _ _ g); [lia |].
    replace (g * (lam' * denominator p)) with (lam' * g * denominator p)
      by ring.
    rewrite L1. replace (denominator p) with (g * denominator p') by lia.
    ring.
Qed.

Lemma reported_lambda_witness :
  0 <= 9 /\ 1 <= 2 /\ Z.gcd 9 2 = 1 /\
  (denominator params_explicit_end = denominator params_explicit ->
   (value 9 2 == value 216 (denominator params_explicit))%Q) /\
  (denominator params_explicit_end <> denominator params_explicit ->
   (value 9 2 == value (216 * denominator params_explicit_end)
                       (denominator params_explicit))%Q).
Proof.
  apply (reported_lambda solver_demo params_explicit 216
           (SetParameters solver_demo params_explicit_end)
           params_explicit_end 9 2).
  - vm_compute. discriminate.
  - lia.
  - vm_compute. reflexivity.
Defined.

(** ** fix_parameters on bundles in lowest terms and on multiples *)

Lemma fill_defaults_set (p : Parameters) (lambda : Z) :
  0 <= K p -> 0 <= lambda1 p -> 0 <= lambda2 p ->
  fill_defaults p lambda = Ok p.
Proof.
  intros HK H1 H2. unfold fill_defaults.
  apply Z.ltb_ge in HK, H1, H2. rewrite HK. cbn [bind].
  rewrite H1. cbn [bind]. now rewrite H2.
Qed.

(** X9. A bundle that is already in lowest terms, with every coefficient
    set, goes through [fix_parameters] unchanged: no default is filled
    in, nothing is divided, and the solver is given that very bundle. *)
Theorem lowest_terms_unchanged (m : Match) (p : Parameters) (lambda : Z) :
  0 <= K p -> 0 <= lambda1 p -> 0 <= lambda2 p ->
  1 <= denominator p <= INT_MAX -> gcd4 p = 1 ->
  0 <= lambda <= INT_MAX ->
  exists lam' dl,
    fix_parameters m p lambda = Ok (SetParameters m p, p, lam', dl).
Proof.
  intros HK H1 H2 HD G Hl.
  unfold fix_parameters, resolve_lambda.
  assert ((lambda <? 0) = false) as -> by (apply Z.ltb_ge; lia).
  cbn [bind]. rewrite fill_defaults_set by assumption. cbn [bind].
  assert (reduce_params p = Ok (p, denominator p)) as ->.
  { unfold reduce_params.
    rewrite gcd_nonneg by lia. cbn [bind].
    rewrite gcd_nonneg by (try apply Z.gcd_nonneg; lia). cbn [bind].
    rewrite gcd_nonneg by (try apply Z.gcd_nonneg; lia). cbn [bind].
    fold (gcd4 p). rewrite G. reflexivity. }
  cbn [bind]. rewrite reduce_lambda_spec by lia.
  destruct (reduced_lambda lambda (denominator p)) as [lam' dl].
  cbn [bind]. eauto.
Qed.

Lemma lowest_terms_unchanged_witness :
  exists lam' dl,
    fix_parameters solver_demo params_lowest 3 =
    Ok (SetParameters solver_demo params_lowest, params_lowest, lam', dl).
Proof.
  apply (lowest_terms_unchanged solver_demo params_lowest 3);
    vm_compute; try reflexivity; try discriminate; split; discriminate.
Defined.

Lemma fill_defaults_filled (p : Parameters) (lambda : Z) (q : Parameters) :
  fill_defaults p lambda = Ok q -> q = filled p lambda.
Proof.
  unfold fill_defaults, filled. intros H.
  bind_inv H. bind_inv H. injection H as <-.
  destruct (K p <? 0).
  - bind_inv E. apply imul_Ok in E1. destruct E1 as [-> _].
    apply (f_equal (fun r => match r with Ok x => x | _ => p end)) in E.
    cbv beta iota in E. subst a.
    destruct (lambda1 (with_K (5 * lambda) p) <? 0).
    + bind_inv E0. apply imul_Ok in E. destruct E as [-> _].
      apply (f_equal (fun r => match r with Ok x => x | _ => p end)) in E0.
      cbv beta iota in E0. subst a0. reflexivity.
    + injection E0 as <-. reflexivity.
  - injection E as <-.
    destruct (lambda1 p <? 0).
    + bind_inv E0. apply imul_Ok in E. destruct E as [-> _].
      apply (f_equal (fun r => match r with Ok x => x | _ => p end)) in E0.
      cbv beta iota in E0. subst a0. reflexivity.
    + injection E0 as <-. reflexivity.
Qed.

Lemma filled_nonneg (p : Parameters) (lambda : Z) :
  0 <= lambda ->
  0 <= K (filled p lambda) /\ 0 <= lambda1 (filled p lambda) /\
  0 <= lambda2 (filled p lambda).
Proof.
  intros Hl. unfold filled.
  destruct p as [dc D et l1 l2 k mi rnd]. cbn -[Z.mul].
  destruct (Z.ltb_spec k 0); cbn -[Z.mul];
    (destruct (Z.ltb_spec l1 0); cbn -[Z.mul];
     (destruct (Z.ltb_spec l2 0); cbn -[Z.mul]; lia)).
Qed.

Lemma ltb_scaled (x c : Z) : 1 <= c -> (x * c <? 0) = (x <? 0).
Proof.
  intros Hc.
  destruct (Z.ltb_spec (x * c) 0), (Z.ltb_spec x 0); try reflexivity; nia.
Qed.

(** Unfolds the field updates and projections of a bundle, and nothing
    of the arithmetic. *)
Ltac fields :=
  cbv beta iota delta [with_denominator with_K with_lambda1 with_lambda2
    K lambda1 lambda2 denominator dataCost edgeThresh maxIter
    bRandomizeEveryIteration].

Lemma filled_scaled (c : Z) (p : Parameters) (lambda : Z) :
  1 <= c -> filled (scaled c p) (lambda * c) = scaled c (filled p lambda).
Proof.
  intros Hc. destruct p as [dc D et l1 l2 k mi rnd].
  unfold filled, scaled. fields.
  rewrite !ltb_scaled by assumption.
  destruct (k <? 0); fields; rewrite ?ltb_scaled by assumption;
    (destruct (l1 <? 0); fields; rewrite ?ltb_scaled by assumption;
     (destruct (l2 <? 0); fields; f_equal; ring)).
Qed.

Lemma gcd4_of_scaled (c : Z) (p : Parameters) :
  0 <= c -> gcd4 (scaled c p) = c * gcd4 p.
Proof.
  intros Hc. destruct p as [dc D et l1 l2 k mi rnd].
  unfold gcd4, scaled. fields.
  rewrite !(Z.mul_comm _ c). now apply gcd4_scaled.
Qed.

Lemma reduced_scaled (c : Z) (p : Parameters) :
  1 <= c -> 1 <= denominator p ->
  fst (reduced (scaled c p)) = fst (reduced p).
Proof.
  intros Hc HD. pose proof (gcd4_pos p HD) as Hg.
  unfold reduced. rewrite gcd4_of_scaled by lia.
  generalize dependent (gcd4 p). intros g Hg.
  destruct p as [dc D et l1 l2 k mi rnd].
  unfold scaled. fields.
  destruct (Z.gtb_spec (c * g) 1) as [Hcg | Hcg];
    destruct (Z.gtb_spec g 1) as [Hg1 | Hg1]; cbv [fst]; fields.
  - rewrite !(Z.mul_comm c g), !Z.div_mul_cancel_r by lia. reflexivity.
  - assert (g = 1) as -> by lia.
    rewrite Z.mul_1_r, !Z.div_mul by lia. reflexivity.
  - nia.
  - assert (c = 1) as -> by nia.
    rewrite !Z.mul_1_r. reflexivity.
Qed.

(** X10. The bundle that [fix_parameters] hands over depends on the
    ratios only: for a given lambda, a bundle and the same bundle with
    lambda and its four integers multiplied by a common factor end as
    the same bundle. *)
Theorem common_factor_is_forgotten (m1 m2 : Match) (c : Z) (p : Parameters)
  (lambda : Z) (m1' m2' : Match) (p1 p2 : Parameters) (l1 d1 l2 d2 : Z) :
  1 <= c -> 1 <= denominator p -> 0 <= lambda ->
  fix_parameters m1 (scaled c p) (lambda * c) = Ok (m1', p1, l1, d1) ->
  fix_parameters m2 p lambda = Ok (m2', p2, l2, d2) ->
  p1 = p2.
Proof.
  intros Hc HD Hl F1 F2. unfold fix_parameters, resolve_lambda in F1, F2.
  assert ((lambda <? 0) = false) as E0 by (apply Z.ltb_ge; lia).
  assert ((lambda * c <? 0) = false) as E1 by (apply Z.ltb_ge; nia).
  rewrite E0 in F2. rewrite E1 in F1. cbn [bind] in F1, F2.
  destruct (filled_nonneg p lambda Hl) as (NK & N1 & N2).
  pose proof (filled_denominator p lambda) as ND.
  bind_inv F1. rename E into A1. apply fill_defaults_filled in A1. subst a.
  bind_inv F1. rename E into B1. destruct a as [q1 dl1].
  bind_inv F1. destruct a as [x1 y1]. injection F1 as _ <- _ _. clear E.
  bind_inv F2. rename E into A2. apply fill_defaults_filled in A2. subst a.
  bind_inv F2. rename E into B2. destruct a as [q2 dl2].
  bind_inv F2. destruct a as [x2 y2]. injection F2 as _ <- _ _. clear E.
  rewrite filled_scaled in B1 by assumption.
  apply reduce_params_Ok in B1;
    try (destruct (filled p lambda) as [dc D et f1 f2 k mi rnd];
         unfold scaled; fields; cbv [K lambda1 lambda2 denominator] in *;
         nia).
  apply reduce_params_Ok in B2; try rewrite ND; try assumption.
  change q1 with (fst (q1, dl1)). change q2 with (fst (q2, dl2)).
  rewrite B1, B2. apply reduced_scaled; [assumption | now rewrite ND].
Qed.

Lemma common_factor_is_forgotten_witness :
  mkParameters L2 4 8 9 5 15 4 false = mkParameters L2 4 8 9 5 15 4 false.
Proof.
  apply (common_factor_is_forgotten solver_demo solver_demo 2 params_demo 3
           (SetParameters solver_demo (mkParameters L2 4 8 9 5 15 4 false))
           (SetParameters solver_demo (mkParameters L2 4 8 9 5 15 4 false))
           (mkParameters L2 4 8 9 5 15 4 false)
           (mkParameters L2 4 8 9 5 15 4 false) 3 1 3 4).
  - lia.
  - vm_compute. discriminate.
  - lia.
  - vm_compute. reflexivity.
  - vm_compute. reflexivity.
Defined.

(** ** How often the solver is configured *)

Lemma finish_calls_plain (cmd : CmdLine) :
  filter is_SetParameters (finish_calls cmd) = [] /\
  filter is_GetK (finish_calls cmd) = [].
Proof.
  unfold finish_calls.
  destruct (argc cmd >? 5), (negb (empty (sDisp cmd))); split; reflexivity.
Qed.

Lemma main_counts (cmd : CmdLine) (env : Env) (run : Run) :
  main cmd env = Ok run ->
  exists p0 lambda p,
    initial p0 /\ main_coefficients cmd (uninit env) p0 = Ok (lambda, p) /\
    configurations (solver run) =
      (if (lambda <? 0) && (K p <=? 0) then 2%nat else 1%nat) /\
    queries (solver run) =
      (if (lambda <? 0) && (K p <=? 0) then 1%nat else 0%nat).
Proof.
  intros H. apply main_handoff in H.
  destruct H as (p0 & lambda & p & lo & hi & I & HC & _ & _ & Hcalls & _).
  exists p0, lambda, p. split; [assumption |]. split; [assumption |].
  change (CallSetParameters (params_end run) :: finish_calls cmd)
    with ([CallSetParameters (params_end run)] ++ finish_calls cmd) in Hcalls.
  destruct (finish_calls_plain cmd) as [F1 F2].
  unfold configurations, queries.
  rewrite Hcalls, !filter_app, !length_app, F1, F2. unfold provisional.
  destruct ((lambda <? 0) && (K p <=? 0)); split; reflexivity.
Qed.

(** X11. The solver is given parameters once, and never asked for its
    estimate of K, when lambda is given.  It is given parameters twice,
    with one query for K in between, when lambda and K are both left
    unset.  When lambda is unset and K is given as g/h, the query and
    the extra configuration happen exactly when g is 0. *)
Theorem solver_configured_once_or_twice (cmd : CmdLine) (env : Env)
  (run : Run) :
  main cmd env = Ok run ->
  (unset (slambda cmd) = false ->
   configurations (solver run) = 1%nat /\ queries (solver run) = 0%nat) /\
  (unset (slambda cmd) = true -> unset (sK cmd) = true ->
   configurations (solver run) = 2%nat /\ queries (solver run) = 1%nat) /\
  (forall g h, unset (slambda cmd) = true -> decodes (sK cmd) g h -> 0 <= g ->
     configurations (solver run) = (if g =? 0 then 2%nat else 1%nat) /\
     queries (solver run) = (if g =? 0 then 1%nat else 0%nat)).
Proof.
  intros H. apply main_counts in H.
  destruct H as (p0 & lambda & p & I & HC & -> & ->).
  pose proof (main_coefficients_values _ _ _ _ _ I HC FieldK) as [_ V].
  destruct I as (I0 & I1 & I2 & I3).
  destruct (main_coefficients_signs _ _ _ _ _ I0 I1 I2 I3 HC)
    as (HD & SL & _ & _ & SK).
  rewrite SL. split; [| split].
  - intros ->. split; reflexivity.
  - intros -> UK. rewrite UK in SK. apply Z.ltb_lt in SK.
    assert ((K p <=? 0) = true) as -> by (apply Z.leb_le; lia).
    split; reflexivity.
  - intros g h -> Hs Hg. pose proof (decodes_denominator _ _ _ Hs) as Hh.
    specialize (V g h Hs). simpl in V.
    assert ((K p <=? 0) = (g =? 0)) as ->.
    { destruct (Z.leb_spec (K p) 0), (Z.eqb_spec g 0);
        try reflexivity; nia. }
    split; reflexivity.
Qed.

Lemma solver_configured_once_or_twice_witness :
  configurations (solver (run_or cmd_none env_demo)) = 2%nat /\
  queries (solver (run_or cmd_none env_demo)) = 1%nat.
Proof.
  destruct (solver_configured_once_or_twice cmd_none env_demo
              (run_or cmd_none env_demo)) as (_ & H & _).
  - vm_compute. reflexivity.
  - apply H; reflexivity.
Defined.

(** ** Gray images *)

Lemma gray_pixel (c0 c1 c2 : Z) :
  negb (negb (c0 =? c1) || negb (c0 =? c2)) = true <->
  (c0, c0, c0) = (c0, c1, c2).
Proof.
  destruct (Z.eqb_spec c0 c1) as [<- | N1];
    destruct (Z.eqb_spec c0 c2) as [<- | N2]; simpl;
    split; intros H; try reflexivity; try discriminate;
    injection H; intros; congruence.
Qed.

Lemma gray_row (row : list (Z * Z * Z)) :
  forallb (fun '(c0, c1, c2) => negb (negb (c0 =? c1) || negb (c0 =? c2)))
          row = true <->
  map (fun v => (v, v, v)) (map (fun '(c0, _, _) => c0) row) = row.
Proof.
  induction row as [| [[c0 c1] c2] row IH]; simpl; [tauto |].
  rewrite andb_true_iff, IH, gray_pixel. split.
  - intros [-> ->]. reflexivity.
  - intros H. injection H as <- <- E. rewrite E. auto.
Qed.

(** X12. [isGray] holds exactly of the images that [convert_gray] keeps
    whole: putting the gray level back into the three channels gives the
    image again if and only if [isGray] answered true.  The converted
    image has the same number of rows and the same row lengths. *)
Theorem gray_round_trip (im : RGBImage) :
  (isGray im = true <-> recolor (convert_gray im) = im) /\
  List.length (convert_gray im) = List.length im /\
  map (@List.length Z) (convert_gray im) =
    map (@List.length (Z * Z * Z)) im.
Proof.
  unfold isGray, recolor, convert_gray. split; [| split].
  - induction im as [| row im IH]; simpl; [tauto |].
    rewrite andb_true_iff, IH, gray_row. split.
    + intros [-> ->]. reflexivity.
    + intros H. injection H as E1 E2. rewrite E1, E2. auto.
  - apply length_map.
  - rewrite map_map. apply map_ext. intros row. apply length_map.
Qed.

(** ** The images the solver is built on *)

Lemma fix_parameters_estimate (m : Match) (p : Parameters) (lambda : Z)
  (m' : Match) (p' : Parameters) (lam' dl : Z) :
  fix_parameters m p lambda = Ok (m', p', lam', dl) ->
  K_estimate m' = K_estimate m.
Proof.
  unfold fix_parameters. intros H.
  bind_inv H. destruct a as [[m1 p1] lam1].
  apply resolve_lambda_estimate in E.
  bind_inv H. bind_inv H. destruct a0 as [p3 dl3].
  bind_inv H. destruct a0 as [lam4 dl4].
  injection H as <- _ _ _. exact E.
Qed.

Lemma main_finish_estimate (cmd : CmdLine) (m : Match) (p : Parameters)
  (lambda : Z) (run : Run) :
  main_finish cmd m p lambda = Ok run ->
  K_estimate (solver run) = K_estimate m.
Proof.
  unfold main_finish. intros H.
  bind_inv H. destruct a as [[[m1 p1] lam1] dl1].
  apply fix_parameters_estimate in E.
  destruct ((argc cmd >? 5) || negb (empty (sDisp cmd)));
    injection H as <-; cbn [solver]; [| exact E].
  destruct (argc cmd >? 5), (negb (empty (sDisp cmd))); exact E.
Qed.

(** X13. A run that returns 0 loaded both images, and built the solver
    on their gray conversions, without colour, when both are gray; when
    either image has a pixel with unequal channels, both are kept in
    colour. *)
Theorem images_handed_to_solver (cmd : CmdLine) (env : Env) (run : Run) :
  main cmd env = Ok run ->
  exists rgb1 rgb2,
    imLoad env (nth 1 (argv cmd) "") = Some rgb1 /\
    imLoad env (nth 2 (argv cmd) "") = Some rgb2 /\
    (isGray rgb1 = true -> isGray rgb2 = true ->
     K_estimate (solver run) =
       estimate env (ImGray (convert_gray rgb1)) (ImGray (convert_gray rgb2))
                false) /\
    (isGray rgb1 = false \/ isGray rgb2 = false ->
     K_estimate (solver run) = estimate env (ImRGB rgb1) (ImRGB rgb2) true).
Proof.
  unfold main. intros H.
  destruct (negb (argc cmd =? 5) && negb (argc cmd =? 6)); [discriminate |].
  bind_inv H. rename a into p0. clear E.
  bind_inv H. destruct a as [lambda p]. clear E.
  destruct (imLoad env (nth 1 (argv cmd) "")) as [rgb1 |]; [| discriminate].
  destruct (imLoad env (nth 2 (argv cmd) "")) as [rgb2 |]; [| discriminate].
  exists rgb1, rgb2. split; [reflexivity |]. split; [reflexivity |].
  destruct (read_int env (nth 3 (argv cmd) "")) as [lo eof_f].
  destruct (isGray rgb1 && isGray rgb2) eqn:G;
    destruct eof_f; simpl in H; try discriminate;
    destruct (read_int env (nth 4 (argv cmd) "")) as [hi eof_g];
    destruct eof_g; simpl in H; try discriminate;
    apply main_finish_estimate in H; cbn [record K_estimate] in H.
  - apply andb_true_iff in G. split; [intros _ _; exact H |].
    intros [E | E]; rewrite E in G; destruct G; discriminate.
  - apply andb_false_iff in G. split; [| intros _; exact H].
    intros E1 E2. rewrite E1, E2 in G. destruct G; discriminate.
Qed.

Lemma images_handed_to_solver_witness :
  exists rgb1 rgb2,
    imLoad env_images (nth 1 (argv cmd_none) "") = Some rgb1 /\
    imLoad env_images (nth 2 (argv cmd_none) "") = Some rgb2 /\
    (isGray rgb1 = true -> isGray rgb2 = true ->
     K_estimate (solver (run_or cmd_none env_images)) =
       estimate env_images (ImGray (convert_gray rgb1))
                (ImGray (convert_gray rgb2)) false) /\
    (isGray rgb1 = false \/ isGray rgb2 = false ->
     K_estimate (solver (run_or cmd_none env_images)) =
       estimate env_images (ImRGB rgb1) (ImRGB rgb2) true).
Proof.
  apply (images_handed_to_solver cmd_none env_images). vm_compute. reflexivity.
Defined.

(** ** The lambda derived from K *)

(** X14. When lambda is derived from the occlusion cost, the loop and
    the rounding return a lambda that is an int and not negative, over a
    counter that is a power of two between 1 and 2^30. *)
Theorem derived_lambda_bounds (Kf : F32.float) (lam denom : Z) :
  lambda_of_K Kf = Ok (lam, denom) ->
  0 <= lam <= INT_MAX /\
  exists n : nat, (n <= 30)%nat /\ denom = 2 ^ Z.of_nat n.
Proof.
  intros H. pose proof (lambda_of_K_Ok _ _ _ H) as (Hl & Hd & n & -> & _ & _
                                                    & Hint).
  split.
  - split; [assumption |]. unfold F32.to_int in Hint.
    destruct (F32.trunc _); [| discriminate].
    apply checked_Ok in Hint. destruct Hint as [-> ?]. lia.
  - exists n. split; [| reflexivity].
    destruct (Nat.le_gt_cases n 30) as [Hn | Hn]; [assumption |].
    assert (2 ^ 31 <= 2 ^ Z.of_nat n) by (apply Z.pow_le_mono_r; lia).
    unfold INT_MAX in Hd. lia.
Qed.

Lemma derived_lambda_bounds_witness :
  0 <= 4 <= INT_MAX /\
  exists n : nat, (n <= 30)%nat /\ 4 = 2 ^ Z.of_nat n.
Proof.
  apply (derived_lambda_bounds
           (F32.div (F32.of_int 9) (F32.of_int 2)) 4 4).
  vm_compute. reflexivity.
Defined.

(** ** The exit code *)

Lemma bind_Abort {A B : Type} (r : result A) (k : A -> result B) (c : Z) :
  bind r k = Abort c -> r = Abort c \/ exists a, r = Ok a /\ k a = Abort c.
Proof.
  destruct r as [a | c' |]; simpl; intros H; try discriminate.
  - right. eauto.
  - left. injection H as ->. reflexivity.
Qed.

Lemma checked_not_Abort (z c : Z) : checked z <> Abort c.
Proof. unfold checked. destruct (fits z); discriminate. Qed.

Lemma irem_not_Abort (a b c : Z) : irem a b <> Abort c.
Proof. unfold irem. destruct (_ && _); discriminate. Qed.

Lemma gcd_not_Abort (a b c : Z) : gcd a b <> Abort c.
Proof.
  unfold gcd. generalize (gcd_depth b) as fuel. intros fuel. revert a b.
  induction fuel as [| fuel IH]; intros a b; simpl; [discriminate |].
  destruct (b =? 0); [discriminate |]. intros H.
  apply bind_Abort in H. destruct H as [H | (r & _ & H)].
  - now apply irem_not_Abort in H.
  - now apply IH in H.
Qed.

Lemma doubling_not_Abort (fuel : nat) : forall Kf denom c,
  doubling fuel Kf denom <> Abort c.
Proof.
  induction fuel as [| fuel IH]; intros Kf denom c; simpl;
    destruct (F32.ltb Kf three); try discriminate.
  intros H. apply bind_Abort in H. destruct H as [H | (r & _ & H)].
  - now apply checked_not_Abort in H.
  - now apply IH in H.
Qed.

(** Takes apart a hypothesis [H] that a sequence of steps ended in
    [Abort], down to the step that would have done it. *)
Ltac abort_inv H :=
  repeat first
    [ discriminate H
    | progress cbv beta in H
    | apply checked_not_Abort in H; destruct H
    | apply irem_not_Abort in H; destruct H
    | apply gcd_not_Abort in H; destruct H
    | apply doubling_not_Abort in H; destruct H
    | apply bind_Abort in H; destruct H as [H | (? & _ & H)]
    | match type of H with
      | (if ?b then _ else _) = Abort _ => destruct b
      | match ?x with _ => _ end = Abort _ => destruct x
      end ].

Lemma multLambdaK_not_Abort (lambda : Z) (f : list Z) (p : Parameters)
  (c : Z) : multLambdaK lambda f p <> Abort c.
Proof. unfold multLambdaK, imul. intros H. abort_inv H. Qed.

Lemma rescale_not_Abort (target : field) (lambda denom : Z) (p : Parameters)
  (c : Z) : rescale target lambda denom p <> Abort c.
Proof. destruct target; apply multLambdaK_not_Abort. Qed.

Lemma GetFraction_not_Abort (s : string) (n0 d0 c : Z) :
  GetFraction s n0 d0 <> Abort c.
Proof.
  unfold GetFraction, sscanf_d_slash_d, sscanf_d. intros H.
  destruct (String.eqb s "AUTO"); [discriminate |].
  destruct (scan_d s) as [v rest | |]; cbn [bind] in H.
  - destruct (checked v) as [v' | |] eqn:V; cbn [bind] in H;
      try discriminate; [| now apply checked_not_Abort in V].
    destruct rest as [| ch rest']; cbn [bind negb Z.eqb Pos.eqb] in H;
      [discriminate |].
    destruct (Ascii.eqb ch "/") eqn:S.
    + apply Ascii.eqb_eq in S. subst ch.
      destruct (scan_d rest') as [w r | |]; cbn [bind] in H;
        try discriminate.
      destruct (checked w) as [w' | |] eqn:W; cbn [bind] in H;
        try discriminate. now apply checked_not_Abort in W.
    + assert (match ch with
              | "/"%char =>
                  match scan_d rest' with
                  | Converted d _ => d <- checked d;; Ok (2, v', d)
                  | _ => Ok (1, v', d0)
                  end
              | _ => Ok (1, v', d0)
              end = Ok (1, v', d0)) as E.
      { destruct ch as [[] [] [] [] [] [] [] []]; try reflexivity.
        discriminate. }
      rewrite E in H. discriminate.
  - discriminate.
  - discriminate.
Qed.

Lemma fix_parameters_not_Abort (m : Match) (p : Parameters) (lambda c : Z) :
  fix_parameters m p lambda <> Abort c.
Proof.
  unfold fix_parameters, resolve_lambda, lambda_of_K, fill_defaults,
    reduce_params, reduce_lambda, setLambda, multLambdaK, imul, idiv,
    F32.to_int.
  intros H. abort_inv H.
Qed.

Lemma main_finish_not_Abort (cmd : CmdLine) (m : Match) (p : Parameters)
  (lambda c : Z) : main_finish cmd m p lambda <> Abort c.
Proof.
  unfold main_finish. intros H.
  apply bind_Abort in H. destruct H as [H | ([[[m1 p1] l1] d1] & _ & H)].
  - now apply fix_parameters_not_Abort in H.
  - destruct ((argc cmd >? 5) || negb (empty (sDisp cmd))); discriminate.
Qed.

(** A coefficient block aborts only on a text that is there and that
    [GetFraction] reports as not decoded. *)
Lemma block_Abort (target : field) (s : string) (junk lambda : Z)
  (p : Parameters) (c : Z) :
  block target s junk lambda p = Abort c ->
  c = 1 /\ empty s = false /\
  exists n0 n d, GetFraction s n0 junk = Ok (false, n, d).
Proof.
  destruct target; simpl;
    unfold main_lambda, main_lambda1, main_lambda2, main_K;
    destruct (empty s); simpl; intros H; try discriminate;
    (apply bind_Abort in H; destruct H as [H | ([[ok n] d] & G & H)];
     [now apply GetFraction_not_Abort in H |]);
    (destruct ok; simpl in H;
     [exfalso; first
        [ now apply (rescale_not_Abort Lambda) in H
        | now apply (rescale_not_Abort Lambda1) in H
        | now apply (rescale_not_Abort Lambda2) in H
        | now apply (rescale_not_Abort FieldK) in H ]
     | injection H as <-; split; [reflexivity |]; split; [reflexivity |];
       eauto]).
Qed.

Lemma main_coefficients_Abort (cmd : CmdLine) (junk : Z) (p : Parameters)
  (c : Z) :
  main_coefficients cmd junk p = Abort c ->
  c = 1 /\
  exists f n0 n d,
    empty (coefficient_text f cmd) = false /\
    GetFraction (coefficient_text f cmd) n0 junk = Ok (false, n, d).
Proof.
  unfold main_coefficients. intros H.
  apply bind_Abort in H. destruct H as [H | ([l1 p1] & _ & H)].
  { apply (block_Abort Lambda) in H.
    destruct H as (-> & E & n0 & n & d & G).
    split; [reflexivity |]. exists Lambda, n0, n, d. auto. }
  apply bind_Abort in H. destruct H as [H | ([l2 p2] & _ & H)].
  { apply (block_Abort Lambda1) in H.
    destruct H as (-> & E & n0 & n & d & G).
    split; [reflexivity |]. exists Lambda1, n0, n, d. auto. }
  apply bind_Abort in H. destruct H as [H | ([l3 p3] & _ & H)].
  { apply (block_Abort Lambda2) in H.
    destruct H as (-> & E & n0 & n & d & G).
    split; [reflexivity |]. exists Lambda2, n0, n, d. auto. }
  apply (block_Abort FieldK) in H.
  destruct H as (-> & E & n0 & n & d & G).
  split; [reflexivity |]. exists FieldK, n0, n, d. auto.
Qed.

(** X15. [main] returns no exit code other than 0 and 1, and it returns
    1 only for one of its five checks: the number of positional
    arguments is not 4 or 5, the data cost is neither L1 nor L2, a
    coefficient text is there and [GetFraction] does not decode it, an
    image does not load, or a disparity bound is not read to the end of
    its text.  Nothing in the normalisation or after it sets an exit
    code. *)
Theorem exit_code_is_one (cmd : CmdLine) (env : Env) (c : Z) :
  main cmd env = Abort c ->
  c = 1 /\
  ((argc cmd <> 5 /\ argc cmd <> 6) \/
   (used_c cmd = true /\ cost cmd <> "L1" /\ cost cmd <> "L2") \/
   (exists f n0 n d,
      empty (coefficient_text f cmd) = false /\
      GetFraction (coefficient_text f cmd) n0 (uninit env) =
        Ok (false, n, d)) \/
   imLoad env (nth 1 (argv cmd) "") = None \/
   imLoad env (nth 2 (argv cmd) "") = None \/
   snd (read_int env (nth 3 (argv cmd) "")) = false \/
   snd (read_int env (nth 4 (argv cmd) "")) = false).
Proof.
  unfold main. intros H.
  destruct (Z.eqb_spec (argc cmd) 5) as [A5 | A5];
    destruct (Z.eqb_spec (argc cmd) 6) as [A6 | A6]; simpl in H;
    try (injection H as <-; split; [reflexivity | left; split; assumption]).
  all: apply bind_Abort in H; destruct H as [H | (p0 & _ & H)].
  all: try (destruct (used_c cmd); [| discriminate];
            destruct (String.eqb_spec (cost cmd) "L1"); [discriminate |];
            destruct (String.eqb_spec (cost cmd) "L2"); [discriminate |];
            injection H as <-; split; [reflexivity |];
            right; left; auto; fail).
  all: apply bind_Abort in H; destruct H as [H | ([lambda p] & _ & H)].
  all: try (apply main_coefficients_Abort in H; destruct H as [-> H];
            split; [reflexivity |]; right; right; left; exact H).
  all: destruct (imLoad env (nth 1 (argv cmd) "")) as [rgb1 |];
    [| injection H as <-; split; [reflexivity |];
       right; right; right; left; reflexivity].
  all: destruct (imLoad env (nth 2 (argv cmd) "")) as [rgb2 |];
    [| injection H as <-; split; [reflexivity |];
       right; right; right; right; left; reflexivity].
  all: destruct (read_int env (nth 3 (argv cmd) "")) as [lo eof_f].
  all: destruct (isGray rgb1 && isGray rgb2).
  all: destruct eof_f; simpl in H;
    [| injection H as <-; split; [reflexivity |];
       right; right; right; right; right; left; reflexivity].
  all: destruct (read_int env (nth 4 (argv cmd) "")) as [hi eof_g].
  all: destruct eof_g; simpl in H;
    [now apply main_finish_not_Abort in H
    | injection H as <-; split; [reflexivity |];
      right; right; right; right; right; right; reflexivity].
Qed.

Lemma exit_code_is_one_witness :
  1 = 1 /\
  ((argc cmd_cost <> 5 /\ argc cmd_cost <> 6) \/
   (used_c cmd_cost = true /\ cost cmd_cost <> "L1" /\ cost cmd_cost <> "L2") \/
   (exists f n0 n d,
      empty (coefficient_text f cmd_cost) = false /\
      GetFraction (coefficient_text f cmd_cost) n0 (uninit env_demo) =
        Ok (false, n, d)) \/
   imLoad env_demo (nth 1 (argv cmd_cost) "") = None \/
   imLoad env_demo (nth 2 (argv cmd_cost) "") = None \/
   snd (read_int env_demo (nth 3 (argv cmd_cost) "")) = false \/
   snd (read_int env_demo (nth 4 (argv cmd_cost) "")) = false).
Proof.
  apply (exit_code_is_one cmd_cost env_demo 1). vm_compute. reflexivity.
Defined.

(** ** The options in the bundle, and the order of the calls *)

Lemma main_inv (cmd : CmdLine) (env : Env) (run : Run) :
  main cmd env = Ok run ->
  exists p0 lambda p m,
    options p0 =
      (if used_c cmd && String.eqb (cost cmd) "L1" then L1 else L2,
       match opt_threshold cmd with Some t => t | None => 8 end,
       match opt_max_iter cmd with Some i => i | None => 4 end,
       used_r cmd) /\
    denominator p0 = 1 /\
    main_coefficients cmd (uninit env) p0 = Ok (lambda, p) /\
    calls m = [CallSetDispRange (fst (read_int env (nth 3 (argv cmd) "")))
                                (fst (read_int env (nth 4 (argv cmd) "")))] /\
    main_finish cmd m p lambda = Ok run.
Proof.
  unfold main. intros H.
  destruct (negb (argc cmd =? 5) && negb (argc cmd =? 6)); [discriminate |].
  bind_inv H. rename a into p0.
  assert (options p0 =
            (if used_c cmd && String.eqb (cost cmd) "L1" then L1 else L2,
             match opt_threshold cmd with Some t => t | None => 8 end,
             match opt_max_iter cmd with Some i => i | None => 4 end,
             used_r cmd) /\ denominator p0 = 1) as [O D].
  { destruct (used_r cmd), (used_c cmd), (String.eqb (cost cmd) "L1"),
      (String.eqb (cost cmd) "L2"); inversion E; split; reflexivity. }
  clear E. bind_inv H. destruct a as [lambda p].
  destruct (imLoad env (nth 1 (argv cmd) "")) as [rgb1 |]; [| discriminate].
  destruct (imLoad env (nth 2 (argv cmd) "")) as [rgb2 |]; [| discriminate].
  destruct (isGray rgb1 && isGray rgb2);
    destruct (read_int env (nth 3 (argv cmd) "")) as [lo eof_f];
    destruct eof_f; simpl in H; try discriminate;
    destruct (read_int env (nth 4 (argv cmd) "")) as [hi eof_g];
    destruct eof_g; simpl in H; try discriminate;
    (eexists p0, lambda, p, _;
     split; [exact O |]; split; [exact D |]; split; [exact E |];
     split; [| exact H]; reflexivity).
Qed.

Lemma multLambdaK_options (lambda : Z) (f : list Z) (p : Parameters)
  (lam' : Z) (p' : Parameters) :
  multLambdaK lambda f p = Ok (lam', p') -> options p' = options p.
Proof.
  unfold multLambdaK. intros H. repeat bind_inv H.
  injection H as _ <-. reflexivity.
Qed.

Lemma block_options (target : field) (s : string) (junk lambda : Z)
  (p : Parameters) (lam' : Z) (p' : Parameters) :
  block target s junk lambda p = Ok (lam', p') -> options p' = options p.
Proof.
  intros H. apply block_Ok in H.
  destruct H as [(_ & _ & ->) | (_ & n & d & _ & R)]; [reflexivity |].
  destruct target; apply multLambdaK_options in R; exact R.
Qed.

Lemma main_coefficients_options (cmd : CmdLine) (junk : Z) (p : Parameters)
  (lambda : Z) (p' : Parameters) :
  main_coefficients cmd junk p = Ok (lambda, p') -> options p' = options p.
Proof.
  intros H. apply main_coefficients_Ok in H.
  destruct H as (l1 & p1 & l2 & p2 & l3 & p3 & B0 & B1 & B2 & B3).
  apply block_options in B0, B1, B2, B3. congruence.
Qed.

Lemma filled_options (p : Parameters) (lambda : Z) :
  options (filled p lambda) = options p.
Proof.
  unfold filled. destruct p as [dc D et l1 l2 k mi rnd]. fields.
  destruct (k <? 0); fields; (destruct (l1 <? 0); fields;
    (destruct (l2 <? 0); reflexivity)).
Qed.

Lemma reduce_params_options (p q : Parameters) (dl : Z) :
  reduce_params p = Ok (q, dl) -> options q = options p.
Proof.
  unfold reduce_params. intros H. do 3 bind_inv H.
  destruct (_ >? 1).
  - repeat bind_inv H. injection H as <- _. reflexivity.
  - injection H as <- _. reflexivity.
Qed.

Lemma fix_parameters_options (m : Match) (p : Parameters) (lambda : Z)
  (m' : Match) (p' : Parameters) (lam' dl : Z) :
  fix_parameters m p lambda = Ok (m', p', lam', dl) ->
  options p' = options p.
Proof.
  unfold fix_parameters. intros H.
  bind_inv H. destruct a as [[m1 p1] lam1]. rename E into R.
  bind_inv H. rename E into F. apply fill_defaults_filled in F. subst a.
  bind_inv H. destruct a as [p3 dl3]. apply reduce_params_options in E.
  bind_inv H. destruct a as [lam4 dl4]. injection H as _ <- _ _.
  rewrite E, filled_options.
  unfold resolve_lambda in R. destruct (lambda <? 0).
  - destruct (K p <=? 0); cbn [GetK] in R;
      bind_inv R; destruct a as [l d];
      bind_inv R; destruct a as [l' q]; injection R as _ <- _;
      now apply multLambdaK_options in E2.
  - injection R as _ <- _. reflexivity.
Qed.

(** X16. The rescalings and [fix_parameters] touch the four integers of
    the bundle and nothing else: the bundle handed to the solver has the
    edge threshold of [-t] (8 without it), the iteration count of [-i]
    (4 without it), the random order exactly when [-r] is there, and the
    data cost L1 exactly when [-c L1] is there, L2 otherwise. *)
Theorem options_reach_solver (cmd : CmdLine) (env : Env) (run : Run) :
  main cmd env = Ok run ->
  handed (solver run) = Some (params_end run) /\
  edgeThresh (params_end run) =
    match opt_threshold cmd with Some t => t | None => 8 end /\
  maxIter (params_end run) =
    match opt_max_iter cmd with Some i => i | None => 4 end /\
  bRandomizeEveryIteration (params_end run) = used_r cmd /\
  dataCost (params_end run) =
    (if used_c cmd && String.eqb (cost cmd) "L1" then L1 else L2).
Proof.
  intros H. pose proof (main_handoff _ _ _ H)
    as (q0 & l & q & lo & hi & _ & _ & _ & _ & Hcalls & _).
  split; [eapply handed_last; [exact Hcalls | apply finish_calls_keep] |].
  clear Hcalls q0 l q lo hi. apply main_inv in H.
  destruct H as (p0 & lambda & p & m & O & _ & HC & _ & HF).
  apply main_coefficients_options in HC.
  apply main_finish_Ok in HF. destruct HF as (m1 & HF & _).
  apply fix_parameters_options in HF.
  rewrite HC, O in HF. unfold options in HF.
  injection HF as -> -> -> ->. repeat split; reflexivity.
Qed.

Lemma options_reach_solver_witness :
  handed (solver (run_or cmd_mixed env_demo)) =
    Some (params_end (run_or cmd_mixed env_demo)) /\
  edgeThresh (params_end (run_or cmd_mixed env_demo)) =
    match opt_threshold cmd_mixed with Some t => t | None => 8 end /\
  maxIter (params_end (run_or cmd_mixed env_demo)) =
    match opt_max_iter cmd_mixed with Some i => i | None => 4 end /\
  bRandomizeEveryIteration (params_end (run_or cmd_mixed env_demo)) =
    used_r cmd_mixed /\
  dataCost (params_end (run_or cmd_mixed env_demo)) =
    (if used_c cmd_mixed && String.eqb (cost cmd_mixed) "L1" then L1 else L2).
Proof.
  apply (options_reach_solver cmd_mixed env_demo). vm_compute. reflexivity.
Defined.

(** X17. The calls a run makes to the solver, in order: the disparity
    range first, with the two bounds read from the command line; then,
    if lambda has to be derived from an automatic K, provisional
    parameters and the query for K; then the final parameters; and in
    the computing mode the expansion moves, followed by the saving of
    the disparity map to the fifth positional argument if there is one,
    and of the scaled map to the file of [-o] if given.  Nothing is
    saved before the expansion moves have run. *)
Theorem calls_in_order (cmd : CmdLine) (env : Env) (run : Run) :
  main cmd env = Ok run ->
  exists pre,
    calls (solver run) =
      CallSetDispRange (fst (read_int env (nth 3 (argv cmd) "")))
                       (fst (read_int env (nth 4 (argv cmd) "")))
      :: pre ++ CallSetParameters (params_end run)
      :: (if (argc cmd >? 5) || negb (empty (sDisp cmd)) then
            CallKZ2
            :: (if argc cmd >? 5
                then [CallSaveXLeft (nth 5 (argv cmd) "")] else [])
            ++ (if negb (empty (sDisp cmd))
                then [CallSaveScaledXLeft (sDisp cmd) false] else [])
          else []) /\
    (pre = [] \/ exists p, pre = [CallSetParameters p; CallGetK]).
Proof.
  intros H. apply main_inv in H.
  destruct H as (p0 & lambda & p & m & _ & D0 & HC & Hm & HF).
  assert (1 <= denominator p) as HD
    by (eapply main_coefficients_denominator; [| eassumption]; lia).
  apply main_finish_Ok in HF. destruct HF as (m1 & HF & Hcalls & _).
  apply fix_parameters_Ok in HF; [| assumption].
  destruct HF as (_ & _ & _ & _ & _ & _ & Hm1).
  exists (provisional p lambda). split.
  - rewrite Hcalls, Hm1, Hm. unfold finish_calls.
    rewrite <- !app_assoc. reflexivity.
  - unfold provisional. destruct ((lambda <? 0) && (K p <=? 0)); eauto.
Qed.

Lemma calls_in_order_witness :
  exists pre,
    calls (solver (run_or cmd_compute env_demo)) =
      CallSetDispRange (fst (read_int env_demo (nth 3 (argv cmd_compute) "")))
                       (fst (read_int env_demo (nth 4 (argv cmd_compute) "")))
      :: pre ++ CallSetParameters (params_end (run_or cmd_compute env_demo))
      :: (if (argc cmd_compute >? 5) || negb (empty (sDisp cmd_compute)) then
            CallKZ2
            :: (if argc cmd_compute >? 5
                then [CallSaveXLeft (nth 5 (argv cmd_compute) "")] else [])
            ++ (if negb (empty (sDisp cmd_compute))
                then [CallSaveScaledXLeft (sDisp cmd_compute) false] else [])
          else []) /\
    (pre = [] \/ exists p, pre = [CallSetParameters p; CallGetK]).
Proof.
  apply (calls_in_order cmd_compute env_demo). vm_compute. reflexivity.
Defined.

(** ** The uninitialised denominator *)

(** On a target that holds a negative integer, what [denom] held before
    the call either does not show in the result, or shows in a result
    that reports a failure. *)
Lemma GetFraction_junk (s : string) (n0 j1 j2 : Z) :
  n0 < 0 ->
  GetFraction s n0 j1 = GetFraction s n0 j2 \/
  (GetFraction s n0 j1 = Ok (false, n0, j1) /\
   GetFraction s n0 j2 = Ok (false, n0, j2)).
Proof.
  intros Hn. unfold GetFraction, sscanf_d_slash_d, sscanf_d.
  destruct (String.eqb s "AUTO"); [left; reflexivity |].
  assert ((0 <=? n0) = false) as Hneg by (apply Z.leb_gt; lia).
  destruct (scan_d s) as [v rest | |]; cbn [bind].
  - left. destruct (checked v) as [v' | |]; cbn [bind]; try reflexivity.
    destruct rest as [| ch rest']; cbn [bind negb Z.eqb Pos.eqb];
      [reflexivity |].
    destruct (Ascii.eqb_spec ch "/") as [-> | Hch].
    + destruct (scan_d rest') as [w r | |]; cbn [bind negb Z.eqb Pos.eqb];
        reflexivity.
    + assert (forall j,
                match ch with
                | "/"%char =>
                    match scan_d rest' with
                    | Converted d _ => d <- checked d;; Ok (2, v', d)
                    | _ => Ok (1, v', j)
                    end
                | _ => Ok (1, v', j)
                end = Ok (1, v', j)) as E.
      { intros j. destruct ch as [[] [] [] [] [] [] [] []]; try reflexivity.
        exfalso. apply Hch. reflexivity. }
      rewrite !E. reflexivity.
  - right. cbn [bind negb Z.eqb Pos.eqb]. rewrite Hneg. auto.
  - right. cbn [bind negb Z.eqb Pos.eqb]. unfold EOF.
    cbn [bind negb Z.eqb Pos.eqb]. rewrite Hneg. auto.
Qed.

Lemma block_junk (target : field) (s : string) (j1 j2 lambda : Z)
  (p : Parameters) :
  numerator target lambda p < 0 ->
  block target s j1 lambda p = block target s j2 lambda p.
Proof.
  intros Hn.
  destruct (GetFraction_junk s _ j1 j2 Hn) as [E | [E1 E2]];
    destruct target; simpl in *;
    unfold main_lambda, main_lambda1, main_lambda2, main_K;
    destruct (empty s); simpl; try reflexivity;
    rewrite ?E, ?E1, ?E2; reflexivity.
Qed.

Lemma block_mark (target f : field) (s : string) (junk lambda : Z)
  (p : Parameters) (lam' : Z) (p' : Parameters) :
  field_eqb f target = false -> 1 <= denominator p ->
  numerator f lambda p = - denominator p ->
  block target s junk lambda p = Ok (lam', p') ->
  1 <= denominator p' /\ numerator f lam' p' = - denominator p'.
Proof.
  intros Hf HD Hx H. split; [eapply block_denominator; eassumption |].
  now apply (block_keeps target f _ _ _ _ _ _ Hf H).
Qed.

Lemma main_coefficients_junk (cmd : CmdLine) (j1 j2 : Z) (p0 : Parameters) :
  initial p0 ->
  main_coefficients cmd j1 p0 = main_coefficients cmd j2 p0.
Proof.
  intros (I0 & I1 & I2 & I3). unfold main_coefficients. cbv zeta.
  change main_lambda with (block Lambda).
  change main_lambda1 with (block Lambda1).
  change main_lambda2 with (block Lambda2).
  change main_K with (block FieldK).
  rewrite (block_junk Lambda _ j1 j2) by (simpl; lia).
  destruct (block Lambda (slambda cmd) j2 (-1) p0) as [[l1 p1] | |] eqn:B0;
    cbn [bind]; try reflexivity.
  assert (1 <= denominator p0) as D0 by lia.
  assert (numerator Lambda1 (-1) p0 = - denominator p0) as A1
    by (simpl; lia).
  assert (numerator Lambda2 (-1) p0 = - denominator p0) as A2
    by (simpl; lia).
  assert (numerator FieldK (-1) p0 = - denominator p0) as A3
    by (simpl; lia).
  destruct (block_mark Lambda Lambda1 _ _ _ _ _ _ eq_refl D0 A1 B0)
    as [D1 M1].
  destruct (block_mark Lambda Lambda2 _ _ _ _ _ _ eq_refl D0 A2 B0)
    as [_ M2].
  destruct (block_mark Lambda FieldK _ _ _ _ _ _ eq_refl D0 A3 B0)
    as [_ M3].
  rewrite (block_junk Lambda1 _ j1 j2) by lia.
  destruct (block Lambda1 (slambda1 cmd) j2 l1 p1) as [[l2 p2] | |] eqn:B1;
    cbn [bind]; try reflexivity.
  destruct (block_mark Lambda1 Lambda2 _ _ _ _ _ _ eq_refl D1 M2 B1)
    as [D2 N2].
  destruct (block_mark Lambda1 FieldK _ _ _ _ _ _ eq_refl D1 M3 B1)
    as [_ N3].
  rewrite (block_junk Lambda2 _ j1 j2) by lia.
  destruct (block Lambda2 (slambda2 cmd) j2 l2 p2) as [[l3 p3] | |] eqn:B2;
    cbn [bind]; try reflexivity.
  destruct (block_mark Lambda2 FieldK _ _ _ _ _ _ eq_refl D2 N3 B2)
    as [D3 O3].
  apply block_junk. lia.
Qed.

(** X18. What the [int denom] that [main] passes to [GetFraction]
    without a value happens to hold never matters: the run ends the same
    way, with the same exit code, the same calls to the solver and the
    same output.  A text in which nothing is read leaves [denom] as it
    was, but the target then still holds its negative mark, so the
    verdict is a failure whatever [denom] is. *)
Theorem uninitialised_denom_is_harmless (cmd : CmdLine) (env : Env)
  (junk : Z) :
  main cmd (mkEnv (imLoad env) (read_int env) (estimate env) junk) =
  main cmd env.
Proof.
  unfold main. cbn [imLoad read_int estimate uninit].
  destruct (negb (argc cmd =? 5) && negb (argc cmd =? 6)); [reflexivity |].
  assert (forall p0, initial p0 ->
            main_coefficients cmd junk p0 =
            main_coefficients cmd (uninit env) p0) as J
    by (intros; now apply main_coefficients_junk).
  destruct (used_r cmd), (used_c cmd), (String.eqb (cost cmd) "L1"),
    (String.eqb (cost cmd) "L2"); cbn [bind]; try reflexivity;
    rewrite J by (repeat split); reflexivity.
Qed.
